(** * AtomMan screen daemon (screen.py): protocol engine and sensor selection

    A shallow embedding of the parts of [screen.py] that carry decisions:
    the frame codec ([read_enq], [build_reply]), the tile registry
    ([SEQ_FOR], [seq_for], the two rotations), the activation handshake
    ([unlock_attempt] and the retry loop of [main]), the steady-state loop
    of [main], the fan resolver ([fan_rpm]), the interface picker
    ([_pick_iface]), the rate meter ([NetMeter]) and the rate formatter
    ([_fmt_rate]).

    Conventions.
    - A Python [int] is a [Z]; a byte of a [bytes] object is a [Z] in
      [0, 255]; a [str] is a [string] (or, for payload text, the list of its
      code points).
    - A Python [float] holding a time, a rate or a percentage is the
      rational number it denotes ([Q]), and the arithmetic on such values is
      that of the rationals.  Comparison, and subtraction or division by a
      power of two of values that need no rounding, agree with binary64.
      Where the code multiplies or divides floats ([_fan_rpm_from_nvidia],
      [rates_ks], [cpu_usage_pct], [mem_info], [disk_numbers]) the value
      here is the exact one, which the binary64 result approximates: an
      integer rounded from it can differ by one next to a tie, and a bound
      can be missed by a rounding error for integers above 2^53.  An
      integer too large for a float makes the code raise where the model
      answers.
    - [None] is [None]; a function whose [try]/[except] turns every failure
      into a default takes the outcome of the guarded read as an [option].
    - What the operating system answers (sysfs files, tool output, the
      clock, the serial line) is an explicit argument.
    - The dashboard ([render_dashboard], the dictionary [latest] and
      [update_latest_from_payload], which only refreshes it) is presentation
      and is left out, as are the single-value sensor reads behind the
      payload generators: a payload is whatever text the generator returns.
      An exception raised by the serial port ends the process and is not
      modelled. *)

From Stdlib Require Import ZArith QArith Qround Qminmax Qabs List Ascii String Lia Lqa.
From stdpp Require Import base option list sorting gmap strings pretty.

Local Open Scope Z_scope.

(** ** Python primitives used by the code *)

Module Py.

(** [x < y] on floats. *)
Definition Qlt_bool (x y : Q) : bool := negb (Qle_bool y x).

(** [round(x)]: to the nearest integer, a tie to the even one. *)
Definition round (x : Q) : Z :=
  let f := Qfloor x in
  match (x - inject_Z f ?= 1 # 2)%Q with
  | Lt => f
  | Gt => f + 1
  | Eq => if Z.even f then f else f + 1
  end.

(** [c.lower()] and [s.lower()] on ASCII text. *)
Definition lower_char (c : ascii) : ascii :=
  let n := N_of_ascii c in
  if ((65 <=? n) && (n <=? 90))%N then ascii_of_N (n + 32) else c.

Fixpoint lower (s : string) : string :=
  match s with
  | EmptyString => EmptyString
  | String c s' => String (lower_char c) (lower s')
  end.

(** [list(dict.fromkeys(l))]: the first occurrence of each element, in order. *)
Definition fromkeys (l : list string) : list string :=
  foldl (fun acc x => if bool_decide (x ∈ acc) then acc else acc ++ [x]) [] l.

(** Truth value of a [str | None]: neither [None] nor the empty string. *)
Definition live (o : option string) : option string :=
  match o with
  | Some s => if bool_decide (s = ""%string) then None else Some s
  | None => None
  end.

End Py.

(** ** Serial line *)

Module Serial.

(** What the panel sends, as seen through [ser.read] with its one-second
    timeout: [Some b] is a byte that arrives in time, [None] is a timeout
    that expires with nothing to read.  The empty stream is a line that
    stays silent. *)
Definition stream := list (option Z).

(** [ser.read(n)]: up to [n] bytes, fewer when the timeout expires first. *)
Fixpoint read (n : nat) (s : stream) : list Z * stream :=
  match n with
  | O => ([], s)
  | S k =>
      match s with
      | [] => ([], [])
      | None :: s' => ([], s')
      | Some b :: s' => let '(bs, s'') := read k s' in (b :: bs, s'')
      end
  end.

(** A stream whose first [n] reads all deliver a byte. *)
Definition supplies (bs : list Z) (rest : stream) : stream :=
  (Some <$> bs) ++ rest.

(** Number of items taken off the stream between [s] and a later [s']. *)
Definition consumed (s s' : stream) : nat := (length s - length s')%nat.

End Serial.

(** ** Frame codec *)

Module Codec.
Import Serial.

Definition TRAILER : list Z := [0xCC; 0x33; 0xC3; 0x3C].

(** [read_enq(ser)], returning the result and the rest of the stream. *)
Definition read_enq (ser : stream) : option Z * stream :=
  let '(h1, s1) := read 1 ser in
  if negb (bool_decide (h1 = [0xAA])) then (None, s1) else
  let '(h2, s2) := read 1 s1 in
  if negb (bool_decide (h2 = [0x05])) then (None, s2) else
  let '(b3, s3) := read 1 s2 in
  match b3 with
  | [] => (None, s3)
  | b :: _ =>
      let '(tr, s4) := read 4 s3 in
      if negb (bool_decide (tr = TRAILER)) then (None, s4) else (Some b, s4)
  end.

(** [txt.encode("latin-1","ignore")] on the code points of [txt]. *)
Definition encode_latin1 (txt : list Z) : list Z :=
  filter (fun c => c < 256) txt.

(** [build_reply(id_byte, seq_ascii, txt)].  ([bytes([...])] needs both
    integers in [0, 255]; every caller passes a tile constant and either a
    byte just read or the code of a character of [SEQ_FOR].) *)
Definition build_reply (id_byte seq_ascii : Z) (txt : list Z) : list Z :=
  [0xAA; id_byte; 0x00; seq_ascii] ++ encode_latin1 txt ++ TRAILER.

(** The poll frame [AA 05 <seq> CC 33 C3 3C]. *)
Definition poll_frame (seq : Z) : list Z := [0xAA; 0x05; seq] ++ TRAILER.

End Codec.

(** ** Tile registry *)

Module Tiles.

Definition CPU : Z := 0x53.
Definition GPU : Z := 0x36.
Definition MEM : Z := 0x49.
Definition DSK : Z := 0x4F.
Definition DAT : Z := 0x6B.
Definition NET : Z := 0x27.
Definition VOL : Z := 0x10.
Definition BAT : Z := 0x1A.

(** The payload generators are sensor reads; the registry only names them. *)
Inductive maker := p_cpu | p_gpu | p_mem | p_dsk | p_date | p_net | p_vol | p_bat.

Definition UNLOCK_ROT : list (Z * maker) := [(CPU, p_cpu); (GPU, p_gpu); (MEM, p_mem)].

(** The dict [SEQ_FOR], built in the order of the literal. *)
Definition SEQ_FOR : gmap Z ascii :=
  <[BAT := "2"%char]> (<[VOL := "9"%char]> (<[NET := "7"%char]> (<[DAT := "6"%char]>
  (<[DSK := "5"%char]> (<[MEM := "4"%char]> (<[GPU := "3"%char]> (<[CPU := "2"%char]> ∅))))))).

Definition ord (ch : ascii) : Z := Z.of_N (N_of_ascii ch).

(** [seq_for(tile_id)]: [SEQ_FOR.get(tile_id, '2')], then its code. *)
Definition seq_for (tile_id : Z) : Z :=
  let ch := default "2"%char (SEQ_FOR !! tile_id) in
  if bool_decide (ch = "<"%char) then ord "<"%char else ord ch.

(** [FULL_ROT], local to [main]. *)
Definition FULL_ROT : list (Z * maker) :=
  [(CPU, p_cpu); (GPU, p_gpu); (MEM, p_mem); (DSK, p_dsk);
   (DAT, p_date); (NET, p_net); (VOL, p_vol); (BAT, p_bat)].

(** [rot[idx % len(rot)]].  The index is in range for a non-empty [rot]
    (lemma [rot_index_in_range]); the default is never returned for the two
    rotations. *)
Definition rot_at (rot : list (Z * maker)) (idx : Z) : Z * maker :=
  default (CPU, p_cpu) (rot !! Z.to_nat (idx `mod` Z.of_nat (length rot))).

End Tiles.

(** ** The protocol loops of [unlock_attempt] and [main] *)

Module Proto.
Import Py Serial Codec Tiles.

(** The lines printed by the handshake. *)
Inductive msg :=
| MsgAttempt (i : Z)          (* "[Attempt i/3] Unlock window ..." *)
| MsgActivated (i : Z)        (* "[Attempt i] Activated (ENQs flowing)." *)
| MsgNoActivation (i : Z)     (* "[Attempt i] No activation within window." *)
| MsgWarn                     (* "[WARN] Screen might not be fully activated; continuing anyway." *)
| MsgOk.                      (* "[OK] Screen activated - switching to steady-state." *)

(** What the process does to the outside, in order. *)
Inductive event :=
| EvWrite (frm : list Z)      (* ser.write(frm); ser.flush() *)
| EvSleep (d : Q)             (* time.sleep(d) *)
| EvDTR (level : bool)        (* ser.setDTR(level) *)
| EvPrint (m : msg).

(** What the outside answers.  [clock k] is the value of the [k]-th
    [time.time()] call made by these loops, [payload mk k] the text of the
    [k]-th payload generated, [dtr_raises k] whether the [k]-th [setDTR]
    call raises. *)
Record env := {
  clock : nat -> Q;
  payload : maker -> nat -> list Z;
  dtr_raises : nat -> bool
}.

(** Command line: [--attempts], [--window], and [POST_WRITE_SLEEP]. *)
Record config := {
  attempts : Z;
  window : Q;
  post_write_sleep : Q
}.

Record state := {
  ser : stream;        (* unread input *)
  tick : nat;          (* time.time() calls so far *)
  made : nat;          (* payloads generated so far *)
  dtrs : nat;          (* setDTR calls so far *)
  out : list event     (* trace, oldest first *)
}.

Definition init (s : stream) : state :=
  {| ser := s; tick := O; made := O; dtrs := O; out := [] |}.

Definition emit (ev : event) (st : state) : state :=
  {| ser := ser st; tick := tick st; made := made st; dtrs := dtrs st;
     out := out st ++ [ev] |}.

(** [time.time()] *)
Definition now (e : env) (st : state) : Q * state :=
  (clock e (tick st),
   {| ser := ser st; tick := S (tick st); made := made st; dtrs := dtrs st;
      out := out st |}).

(** [read_enq(ser)] on the state's stream. *)
Definition poll (st : state) : option Z * state :=
  let '(r, s') := read_enq (ser st) in
  (r, {| ser := s'; tick := tick st; made := made st; dtrs := dtrs st;
         out := out st |}).

(** [maker()] *)
Definition make (e : env) (mk : maker) (st : state) : list Z * state :=
  (payload e mk (made st),
   {| ser := ser st; tick := tick st; made := S (made st); dtrs := dtrs st;
      out := out st |}).

(** [ser.write(frm); ser.flush(); time.sleep(POST_WRITE_SLEEP)] *)
Definition send (c : config) (frm : list Z) (st : state) : state :=
  emit (EvSleep (post_write_sleep c)) (emit (EvWrite frm) st).

(** [[t for t in enq_times if time.time()-t <= 2.0]]: the clock is read once
    for every element tested. *)
Fixpoint keep_recent (e : env) (ts : list Q) (st : state) : list Q * state :=
  match ts with
  | [] => ([], st)
  | t :: ts' =>
      let '(n, st1) := now e st in
      let '(kept, st2) := keep_recent e ts' st1 in
      (if Qle_bool (n - t) 2 then t :: kept else kept, st2)
  end.

(** [keep_recent] without the bookkeeping: of the times [ts], those at most
    two seconds old, the [j]-th one judged at clock reading number [k + j]. *)
Fixpoint recent (e : env) (k : nat) (ts : list Q) : list Q :=
  match ts with
  | [] => []
  | t :: ts' =>
      if Qle_bool (clock e k - t) 2 then t :: recent e (S k) ts' else recent e (S k) ts'
  end.

(** [is_ascii_seq(b)] *)
Definition is_ascii_seq (b : Z) : bool :=
  ((0x30 <=? b) && (b <=? 0x39)) || (b =? 0x3C).

(** The variables of [unlock_attempt] that live across iterations. *)
Record locals := {
  idx : Z;
  boot_replies : Z;
  enq_times : list Q
}.

(** The body of the [while] of [unlock_attempt] after a poll [seq] was read:
    the new locals, whether the loop breaks with [activated=True], and the
    state. *)
Definition unlock_reply (e : env) (c : config) (attempt_idx : Z)
    (seq : Z) (l : locals) (st : state) : locals * bool * state :=
  let '(arrival, st1) := now e st in
  let '(times, st2) := keep_recent e (enq_times l ++ [arrival]) st1 in
  let '(tile, mk) := rot_at UNLOCK_ROT (idx l) in
  let '(txt, st3) := make e mk st2 in
  let frm := build_reply tile seq txt in
  let st4 := send c frm st3 in
  let idx' := idx l + 1 in
  let boot' := if is_ascii_seq seq then boot_replies l + 1 else boot_replies l in
  let l' := {| idx := idx'; boot_replies := boot'; enq_times := times |} in
  if (3 <=? boot') && (5 <=? Z.of_nat (length times))
  then (l', true, emit (EvPrint (MsgActivated attempt_idx)) st4)
  else (l', false, st4).

(** The [while] of [unlock_attempt]; [None] when [fuel] iterations did not
    end it. *)
Fixpoint unlock_loop (fuel : nat) (e : env) (c : config) (attempt_idx : Z)
    (start : Q) (l : locals) (st : state) : option (bool * locals * state) :=
  match fuel with
  | O => None
  | S fuel' =>
      let '(t, st1) := now e st in
      if negb (Qlt_bool (t - start) (window c)) then Some (false, l, st1) else
      let '(seq, st2) := poll st1 in
      match seq with
      | None => unlock_loop fuel' e c attempt_idx start l st2
      | Some b =>
          let '(l', activated, st3) := unlock_reply e c attempt_idx b l st2 in
          if activated then Some (true, l', st3)
          else unlock_loop fuel' e c attempt_idx start l' st3
      end
  end.

Definition locals0 : locals := {| idx := 0; boot_replies := 0; enq_times := [] |}.

(** [unlock_attempt(ser, attempt_idx, ...)], with the final locals kept for
    the statements below. *)
Definition unlock_attempt_locals (fuel : nat) (e : env) (c : config)
    (attempt_idx : Z) (st : state) : option (bool * locals * state) :=
  let st0 := emit (EvPrint (MsgAttempt attempt_idx)) st in
  let '(start, st1) := now e st0 in
  match unlock_loop fuel e c attempt_idx start locals0 st1 with
  | None => None
  | Some (activated, l, st2) =>
      Some (activated, l,
            if activated then st2 else emit (EvPrint (MsgNoActivation attempt_idx)) st2)
  end.

Definition unlock_attempt (fuel : nat) (e : env) (c : config)
    (attempt_idx : Z) (st : state) : option (bool * state) :=
  match unlock_attempt_locals fuel e c attempt_idx st with
  | None => None
  | Some (activated, _, st') => Some (activated, st')
  end.

(** [ser.setDTR(level)], [None] when it raises. *)
Definition setDTR (e : env) (level : bool) (st : state) : option state :=
  let st' := {| ser := ser st; tick := tick st; made := made st;
                dtrs := S (dtrs st); out := out st ++ [EvDTR level] |} in
  if dtr_raises e (dtrs st) then None else Some st'.

(** The state a raising [setDTR] leaves behind: the call was made. *)
Definition setDTR_raised (level : bool) (st : state) : state :=
  {| ser := ser st; tick := tick st; made := made st;
     dtrs := S (dtrs st); out := out st ++ [EvDTR level] |}.

(** [try: setDTR(False); sleep(0.05); setDTR(True) except: pass] then
    [sleep(0.3)]. *)
Definition pulse (e : env) (st : state) : state :=
  let st1 :=
    match setDTR e false st with
    | None => setDTR_raised false st
    | Some sa =>
        let sb := emit (EvSleep (1 # 20)) sa in
        match setDTR e true sb with
        | None => setDTR_raised true sb
        | Some sc => sc
        end
    end in
  emit (EvSleep (3 # 10)) st1.

(** The [for i in range(1, args.attempts+1)] of [main]: the final value of
    [activated] and the state. *)
Fixpoint retry (fuel : nat) (e : env) (c : config) (ks : list Z) (st : state)
    : option (bool * state) :=
  match ks with
  | [] => Some (false, st)
  | i :: rest =>
      match unlock_attempt fuel e c i st with
      | None => None
      | Some (true, st') => Some (true, st')
      | Some (false, st') => retry fuel e c rest (pulse e st')
      end
  end.

(** [main] up to the steady-state loop. *)
Definition handshake (fuel : nat) (e : env) (c : config) (st : state)
    : option (bool * state) :=
  match retry fuel e c (seqZ 1 (attempts c)) st with
  | None => None
  | Some (activated, st') =>
      Some (activated, emit (EvPrint (if activated then MsgOk else MsgWarn)) st')
  end.

(** One iteration of the [while True] of [main]: the new [idx] and state. *)
Definition steady_step (e : env) (c : config) (idx : Z) (st : state) : Z * state :=
  let '(enq3, st1) := poll st in
  match enq3 with
  | None => (idx, st1)
  | Some _ =>
      let '(tile, mk) := rot_at FULL_ROT idx in
      let '(txt, st2) := make e mk st1 in
      let seq := seq_for tile in
      let frm := build_reply tile seq txt in
      ((idx + 1) `mod` 1000000, send c frm st2)
  end.

(** [n] iterations of the steady-state loop. *)
Fixpoint steady_loop (n : nat) (e : env) (c : config) (idx : Z) (st : state) : Z * state :=
  match n with
  | O => (idx, st)
  | S n' => let '(idx', st') := steady_step e c idx st in steady_loop n' e c idx' st'
  end.

(** The scheduler as the specification words it: the same loop with an
    index that is never wrapped. *)
Definition steady_step_unbounded (e : env) (c : config) (idx : Z) (st : state) : Z * state :=
  let '(enq3, st1) := poll st in
  match enq3 with
  | None => (idx, st1)
  | Some _ =>
      let '(tile, mk) := rot_at FULL_ROT idx in
      let '(txt, st2) := make e mk st1 in
      let seq := seq_for tile in
      let frm := build_reply tile seq txt in
      (idx + 1, send c frm st2)
  end.

Fixpoint steady_loop_unbounded (n : nat) (e : env) (c : config) (idx : Z) (st : state)
    : Z * state :=
  match n with
  | O => (idx, st)
  | S n' =>
      let '(idx', st') := steady_step_unbounded e c idx st in
      steady_loop_unbounded n' e c idx' st'
  end.

(** The state [st] with [s] as its unread input. *)
Definition with_ser (s : stream) (st : state) : state :=
  {| ser := s; tick := tick st; made := made st; dtrs := dtrs st; out := out st |}.

(** [main]: the handshake, then [n] iterations of the steady state. *)
Definition main (fuel n : nat) (e : env) (c : config) (s : stream) : option state :=
  match handshake fuel e c (init s) with
  | None => None
  | Some (_, st) => Some (snd (steady_loop n e c 0 st))
  end.

(** The frames written, in order. *)
Definition writes (tr : list event) : list (list Z) :=
  omap (fun ev => match ev with EvWrite f => Some f | _ => None end) tr.

(** The number of [setDTR(False)] calls: control-line pulses started. *)
(** The sequence byte of a reply frame, and whether it is a boot-style one. *)
Definition seq_byte (frm : list Z) : option Z := frm !! 3%nat.

Definition boot_style (frm : list Z) : bool :=
  match seq_byte frm with Some b => is_ascii_seq b | None => false end.

(** The number of boot-style replies among [frames]. *)
Definition boot_count (frames : list (list Z)) : Z :=
  Z.of_nat (length (List.filter boot_style frames)).

(** The skeleton of an attempt that fails: its banner, the failure line,
    and the deasserting [setDTR(False)] that follows. *)
Definition round_failed (i : Z) : list event :=
  [EvPrint (MsgAttempt i); EvPrint (MsgNoActivation i); EvDTR false].

(** The activation condition on the locals of [unlock_attempt]. *)
Definition dense (l : locals) : Prop :=
  3 <= boot_replies l /\ 5 <= Z.of_nat (length (enq_times l)).

(** The skeleton of a trace: the printed lines and the deasserting
    [setDTR(False)] calls, without the frames and the sleeps. *)
Definition is_milestone (ev : event) : bool :=
  match ev with
  | EvPrint _ => true
  | EvDTR false => true
  | _ => false
  end.

Definition milestones (tr : list event) : list event := List.filter is_milestone tr.

(** A clock that lets any window run out: [H] readings after any reading,
    at least [window] seconds have passed. *)
Definition elapses (e : env) (c : config) (H : nat) : Prop :=
  forall j k : nat, (j + H <= k)%nat -> (window c <= clock e k - clock e j)%Q.

(** The defaults of the command line, and two clocks for examples: one
    that advances a second, one that advances 10 ms, per reading. *)
Definition default_config : config :=
  {| attempts := 3; window := 5; post_write_sleep := 6 # 1000 |}.

Definition slow_clock_env : env :=
  {| clock := fun k => inject_Z (Z.of_nat k);
     payload := fun _ _ => [];
     dtr_raises := fun _ => false |}.

Definition fast_clock_env : env :=
  {| clock := fun k => (Z.of_nat k # 100)%Q;
     payload := fun _ _ => [];
     dtr_raises := fun _ => false |}.

Definition is_pulse (ev : event) : bool :=
  match ev with EvDTR false => true | _ => false end.

Definition pulses (tr : list event) : nat := length (List.filter is_pulse tr).

(** A burst of polls on the line: the frames carrying the sequence bytes
    [seqs], back to back, then [tail]. *)
Definition poll_burst (seqs : list Z) (tail : stream) : stream :=
  supplies (seqs ≫= poll_frame) tail.

(** The replies the unlock phase owes to the polls [seqs] when its index
    is [k] and [made0] payloads were generated before: the tile of the
    unlock rotation at the index, the byte of the poll echoed, the text
    generated for it at that moment. *)
Fixpoint echo_frames (e : env) (k : Z) (made0 : nat) (seqs : list Z) : list (list Z) :=
  match seqs with
  | [] => []
  | b :: seqs' =>
      build_reply (rot_at UNLOCK_ROT k).1 b (payload e (rot_at UNLOCK_ROT k).2 made0)
        :: echo_frames e (k + 1) (S made0) seqs'
  end.

(** The boot-style bytes among the polls [seqs]. *)
Definition boot_polls (seqs : list Z) : Z :=
  Z.of_nat (length (List.filter is_ascii_seq seqs)).

(** The clock readings the [while] of [unlock_attempt] takes to answer [n]
    polls in a row when [len] arrival times are kept at the start and none
    is dropped: for each poll the check of the window, the arrival, and one
    reading per arrival time tested. *)
Fixpoint burst_ticks (len n : nat) : nat :=
  match n with
  | O => O
  | S n' => (len + 3 + burst_ticks (S len) n')%nat
  end.

(** Polls in quick succession: over the [span] clock readings that follow
    reading [t0], no two readings are more than two seconds apart and the
    window that opened at [t0] has not run out. *)
Definition quick (e : env) (c : config) (t0 span : nat) : Prop :=
  forall j k : nat, (t0 <= j)%nat -> (j <= k)%nat -> (k <= t0 + span)%nat ->
    (clock e k - clock e j <= 2)%Q /\ (clock e k - clock e t0 < window c)%Q.

(** The trace of sending [frames]: each write followed by its sleep. *)
Definition reply_trace (c : config) (frames : list (list Z)) : list event :=
  frames ≫= (fun f => [EvWrite f; EvSleep (post_write_sleep c)]).

(** Arrival times that are clock readings taken from [t0] on and before
    [t1]. *)
Definition read_between (e : env) (t0 t1 : nat) (ts : list Q) : Prop :=
  Forall (fun t => exists q : nat, (t0 <= q < t1)%nat /\ t = clock e q) ts.

End Proto.

(** ** Fan speed *)

Module Fan.
Import Py.

(** What [nvidia-smi --query-gpu=fan.speed] gave: nothing (tool absent,
    failure or timeout: [_run] returns [""]), a blank first line, a first
    line that [float] rejects (or reads as a non-finite value, on which
    [round] raises), or a number. *)
Inductive smi_out :=
| SmiNothing
| SmiBlank
| SmiNotNumber
| SmiPercent (percent : Q).

(** The sensors at the time of the call.  [hwmon] lists, per
    [/sys/class/hwmon/hwmon*] directory, what reading each [fan*_input]
    gave: [None] when opening or parsing it raised. *)
Record sensors := {
  hwmon : list (list (option Z));
  smi : smi_out
}.

(** The body of the inner [for] of [_fan_rpm_from_hwmon]. *)
Definition hwmon_visit (best : option Z) (reading : option Z) : option Z :=
  match reading with
  | None => best
  | Some v =>
      if 0 <? v
      then Some (match best with None => v | Some b => Z.max b v end)
      else best
  end.

Definition _fan_rpm_from_hwmon (s : sensors) : option Z :=
  foldl (fun best dir => foldl hwmon_visit best dir) None (hwmon s).

(** [_fan_rpm_from_nvidia(max_rpm)].  The product [(percent/100.0)*max(1,
    max_rpm)] is taken exactly, where the code computes it in binary64: the
    two agree at 0% and at 100% for [max_rpm] up to 2^53, and stay within
    the same bounds there; in between the float product can round to the
    neighbouring integer next to a half (17% of 5050 is 858.5 exactly and
    rounds to 858, the float product lies just above it and rounds to
    859). *)
Definition _fan_rpm_from_nvidia (s : sensors) (max_rpm : Z) : option Z :=
  match smi s with
  | SmiNothing => None
  | SmiBlank => None
  | SmiNotNumber => None
  | SmiPercent percent =>
      Some (round ((percent / 100) * inject_Z (Z.max 1 max_rpm))%Q)
  end.

(** [fan_rpm(prefer, max_rpm)] *)
Definition fan_rpm (s : sensors) (prefer : string) (max_rpm : Z) : Z :=
  let prefer := lower (if bool_decide (prefer = ""%string) then "auto"%string else prefer) in
  if bool_decide (prefer = "hwmon"%string) then
    match _fan_rpm_from_hwmon s with
    | Some v => v
    | None => match _fan_rpm_from_nvidia s max_rpm with Some v => v | None => -1 end
    end
  else if bool_decide (prefer = "nvidia"%string) then
    match _fan_rpm_from_nvidia s max_rpm with
    | Some v => v
    | None => match _fan_rpm_from_hwmon s with Some v => v | None => -1 end
    end
  else
    match _fan_rpm_from_hwmon s with
    | Some v => v
    | None => match _fan_rpm_from_nvidia s max_rpm with Some v => v | None => -1 end
    end.

(** A duty cycle is not negative. *)
Definition duty_nonneg (s : sensors) : Prop :=
  match smi s with
  | SmiPercent percent => (0 <= percent)%Q
  | _ => True
  end.

End Fan.

(** ** Network interface picker *)

Module Net.
Import Py.

(** What sysfs and the routing table show at one moment.  [route_devs] are
    the [dev] names matched in the lines of [ip -o route show default], in
    order; [listdir] is [os.listdir("/sys/class/net")], [None] when it
    raises; [operstate i] and [carrier_file i] are the stripped contents of
    the two files of interface [i], [None] when unreadable. *)
Record sysfs := {
  route_devs : list string;
  listdir : option (list string);
  is_wireless : string -> bool;
  operstate : string -> option string;
  carrier_file : string -> option string
}.

Record info := {
  name : string;
  up : bool;
  carrier : bool;
  wireless : bool
}.

Definition _is_wireless (w : sysfs) (iface : string) : bool := is_wireless w iface.

Definition _iface_info (w : sysfs) (iface : string) : info :=
  {| name := iface;
     up := match operstate w iface with
           | Some s => bool_decide (s = "up"%string)
           | None => false
           end;
     carrier := match carrier_file w iface with
                | Some s => bool_decide (s = "1"%string)
                | None => false
                end;
     wireless := _is_wireless w iface |}.

Definition _default_route_ifaces (w : sysfs) : list string :=
  fromkeys (route_devs w).

Definition _list_candidate_ifaces (w : sysfs) : list string :=
  match listdir w with
  | Some l => filter (fun i => i <> "lo"%string) (merge_sort String.le l)
  | None => []
  end.

(** The tuples [(score, not wireless, name)] and their order, the one of
    Python tuples: by score, then [False < True], then the names as
    strings. *)
Definition key : Type := Z * bool * string.

Definition key_leb (a b : key) : bool :=
  let '(s1, w1, n1) := a in
  let '(s2, w2, n2) := b in
  match s1 ?= s2 with
  | Lt => true
  | Gt => false
  | Eq =>
      match w1, w2 with
      | false, true => true
      | true, false => false
      | _, _ => String.leb n1 n2
      end
  end.

Definition key_le (a b : key) : Prop := key_leb a b = true.

#[global] Instance key_le_dec : RelDecision key_le.
Proof. intros a b. unfold key_le. apply _. Defined.

(** [l.sort(reverse=True)] *)
Definition sort_reverse (l : list key) : list key := merge_sort (flip key_le) l.

Definition score (inf : info) : Z :=
  (if up inf && carrier inf then 2 else if up inf then 1 else 0)
  + (if negb (wireless inf) then 1 else 0).

Definition key_of (w : sysfs) (i : string) : key :=
  let inf := _iface_info w i in
  (score inf, negb (wireless inf), name inf).

(** [for score, _wired, name in l: if score > 0: return name] *)
Fixpoint first_positive (l : list key) : option string :=
  match l with
  | [] => None
  | (s, _, n) :: l' => if 0 <? s then Some n else first_positive l'
  end.

(** [_pick_iface(preferred)] *)
Definition _pick_iface (w : sysfs) (preferred : option string) : option string :=
  match live preferred with
  | Some p => Some p
  | None =>
      let ranked := sort_reverse (key_of w <$> _default_route_ifaces w) in
      match first_positive ranked with
      | Some n => Some n
      | None =>
          let cands := sort_reverse (key_of w <$> _list_candidate_ifaces w) in
          match first_positive cands with
          | Some n => Some n
          | None => head (_list_candidate_ifaces w)
          end
      end
  end.

(** *** Rate meter *)

(** [/proc/net/dev] and the clock.  [netdev k] is what the [k]-th read of
    the file gave: for each line with a colon, the stripped text before it
    and the (numeric) columns after it.  [clock k] is the [k]-th value of
    [time.time()] taken by the meter. *)
Record procfs := {
  netdev : nat -> list (string * list Z);
  clock : nat -> Q
}.

(** The fields of a [NetMeter]; [rx0], [tx0] and [t0] are always assigned
    together.  [reads] and [ticks] count the file reads and clock reads. *)
Record meter := {
  iface : option string;
  base : option (Z * Z * Q);
  reads : nat;
  ticks : nat
}.

Fixpoint _parse_netdev (lines : list (string * list Z)) (i : string) : option (Z * Z) :=
  match lines with
  | [] => None
  | (n, cols) :: rest =>
      if bool_decide (n = i) && (16 <=? length cols)%nat
      then match cols !! 0%nat, cols !! 8%nat with
           | Some rx, Some tx => Some (rx, tx)
           | _, _ => None
           end
      else _parse_netdev rest i
  end.

(** [_parse_netdev(_read_netdev(), i)] *)
Definition sample (p : procfs) (i : string) (m : meter) : option (Z * Z) * meter :=
  (_parse_netdev (netdev p (reads m)) i,
   {| iface := iface m; base := base m; reads := S (reads m); ticks := ticks m |}).

Definition set_iface (i : option string) (m : meter) : meter :=
  {| iface := i; base := base m; reads := reads m; ticks := ticks m |}.

(** [self.rx0, self.tx0, self.t0 = rx, tx, time.time()] *)
Definition set_base (p : procfs) (c : Z * Z) (m : meter) : meter :=
  {| iface := iface m; base := Some (c.1, c.2, clock p (ticks m));
     reads := reads m; ticks := S (ticks m) |}.

Definition _prime (w : sysfs) (p : procfs) (m : meter) : meter :=
  match live (iface m) with
  | None => m
  | Some i =>
      let '(r, m1) := sample p i m in
      match r with
      | Some c => set_base p c m1
      | None =>
          let m2 := set_iface (_pick_iface w None) m1 in
          match live (iface m2) with
          | None => m2
          | Some j =>
              let '(r2, m3) := sample p j m2 in
              match r2 with
              | Some c => set_base p c m3
              | None => m3
              end
          end
      end
  end.

(** [NetMeter()], with [env] the value of [ATOMMAN_NET_IFACE] stripped, or
    [None] when empty. *)
Definition NetMeter (w : sysfs) (p : procfs) (env : option string) : meter :=
  _prime w p {| iface := _pick_iface w (live env); base := None; reads := O; ticks := O |}.

(** Whether [maybe_repick] asks the picker again for a live interface. *)
Definition gone (inf : info) : bool :=
  negb (up inf) || (wireless inf && negb (carrier inf)).

Definition maybe_repick (w : sysfs) (p : procfs) (m : meter) : meter :=
  match live (iface m) with
  | None => _prime w p (set_iface (_pick_iface w None) m)
  | Some i =>
      let inf := _iface_info w i in
      if gone inf then
        match live (_pick_iface w None) with
        | Some new =>
            if bool_decide (new <> i) then _prime w p (set_iface (Some new) m) else m
        | None => m
        end
      else m
  end.

(** [rates_ks()]: [(None, None)] is [None].  The quotient is the exact
    one; the code converts the counter difference to a float and divides
    in binary64, which keeps the sign and gives the same value whenever
    the exact quotient is a binary64 number. *)
Definition rates_ks (w : sysfs) (p : procfs) (m : meter) : option (Q * Q) * meter :=
  let m1 := maybe_repick w p m in
  match live (iface m1) with
  | None => (None, m1)
  | Some i =>
      let '(r1, m2) := sample p i m1 in
      match r1, base m2 with
      | Some (rx1, tx1), Some (rx0, tx0, t0) =>
          let t1 := clock p (ticks m2) in
          let dt := Qmax (1 # 1000) (t1 - t0) in
          let rxk := (inject_Z (rx1 - rx0) / dt / 1024)%Q in
          let txk := (inject_Z (tx1 - tx0) / dt / 1024)%Q in
          (Some (Qmax 0 rxk, Qmax 0 txk),
           {| iface := iface m2; base := Some (rx1, tx1, t1);
              reads := reads m2; ticks := S (ticks m2) |})
      | _, _ => (None, _prime w p m2)
      end
  end.

(** The states used by the examples below: [eth0] and [wlan0] both carry a
    default route; [eth0] is first up, then down. *)
Definition sysfs_example (eth0_state : string) : sysfs :=
  {| route_devs := ["eth0"; "wlan0"]%string;
     listdir := Some ["eth0"; "lo"; "wlan0"]%string;
     is_wireless := fun i => bool_decide (i = "wlan0"%string);
     operstate := fun i => if bool_decide (i = "eth0"%string)
                           then Some eth0_state else Some "up"%string;
     carrier_file := fun i => if bool_decide (i = "eth0"%string)
                              then Some (if bool_decide (eth0_state = "up"%string)
                                         then "1" else "0")%string
                              else Some "1"%string |}.

(** [/proc/net/dev] growing by 1024 bytes received per read on both
    interfaces, and a clock advancing one second per reading. *)
Definition procfs_example : procfs :=
  {| netdev := fun k =>
       [("eth0"%string, [1024 * Z.of_nat k; 0; 0; 0; 0; 0; 0; 0; 0; 0; 0; 0; 0; 0; 0; 0]);
        ("wlan0"%string, [5000 + 1024 * Z.of_nat k; 0; 0; 0; 0; 0; 0; 0; 7; 0; 0; 0; 0; 0; 0; 0])];
     clock := fun k => inject_Z (Z.of_nat k) |}.

(** The same [/proc/net/dev] with the line of [wlan0] missing from the
    first seven reads: an interface whose counters cannot be read yet. *)
Definition procfs_late_wlan0 : procfs :=
  {| netdev := fun k =>
       ("eth0"%string, [1024 * Z.of_nat k; 0; 0; 0; 0; 0; 0; 0; 0; 0; 0; 0; 0; 0; 0; 0])
       :: (if (7 <=? k)%nat
           then [("wlan0"%string,
                  [5000 + 1024 * Z.of_nat k; 0; 0; 0; 0; 0; 0; 0; 7; 0; 0; 0; 0; 0; 0; 0])]
           else []);
     clock := fun k => inject_Z (Z.of_nat k) |}.

(** The rate of one direction as [rates_ks] computes it: the counter
    difference over the elapsed time (at least a millisecond), in KB/s,
    floored at zero. *)
Definition rate_of (old new : Z) (t0 t1 : Q) : Q :=
  Qmax 0 (inject_Z (new - old) / Qmax (1 # 1000) (t1 - t0) / 1024)%Q.

End Net.

(** ** Rate formatting *)

Module Fmt.
Import Py.

(** [f"{x:.1f}"] for a finite [x]: the sign, then [|x|] rounded to tenths
    (a tie to even), printed with one digit after the point. *)
Definition fmt1 (x : Q) : string :=
  let n := round (Qabs x * 10)%Q in
  (if Qlt_bool x 0 then "-" else "")
  +:+ pretty (Z.to_N (n `div` 10)) +:+ "." +:+ pretty (Z.to_N (n `mod` 10)).

(** [_fmt_rate(rate_kbs)] *)
Definition _fmt_rate (rate_kbs : option Q) : string :=
  match rate_kbs with
  | None => "N/A"
  | Some r =>
      if Qlt_bool r 1024 then fmt1 r +:+ " K/s"
      else
        let mbps := (r / 1024)%Q in
        if Qlt_bool mbps 1024 then fmt1 mbps +:+ " M/s"
        else
          let gbps := (mbps / 1024)%Q in
          fmt1 gbps +:+ " G/s"
  end.

End Fmt.

(** ** CPU, memory and disk figures *)

Module Figures.
Import Py.

(** [snap()] of [cpu_usage_pct] on the integer fields [n] of the first line
    of [/proc/stat] (the label [cpu] dropped): [None] when [n[3]] or [n[4]]
    is out of range. *)
Definition snap (n : list Z) : option (Z * Z) :=
  match n !! 3%nat, n !! 4%nat with
  | Some a, Some b => Some (a + b, foldr Z.add 0 n)
  | _, _ => None
  end.

(** [x or 1] on an integer. *)
Definition or_one (x : Z) : Z := if x =? 0 then 1 else x.

(** [cpu_usage_pct()] from the fields read before and after the sleep;
    [None] when a snapshot raises.  The quotient is the exact one, so the
    rounded percentage can differ by one from the code's next to a tie;
    the clamp to [0, 100] is the code's. *)
Definition cpu_usage_pct (n1 n2 : list Z) : option Z :=
  match snap n1, snap n2 with
  | Some (i1, t1), Some (i2, t2) =>
      let di := i2 - i1 in
      let dt := t2 - t1 in
      Some (Z.max 0 (Z.min 100
              (round (100 * (1 - inject_Z di / inject_Z (or_one dt)))%Q)))
  | _, _ => None
  end.

(** [ln.replace(":","")] *)
Fixpoint remove_colons (s : string) : string :=
  match s with
  | EmptyString => EmptyString
  | String c s' =>
      if bool_decide (c = ":"%char) then remove_colons s' else String c (remove_colons s')
  end.

(** [s.isdigit()] and [int(s)] on ASCII text ([plain_line] below). *)
Fixpoint all_digits (s : string) : bool :=
  match s with
  | EmptyString => true
  | String c s' => match Ascii.is_nat c with Some _ => all_digits s' | None => false end
  end.

Definition isdigit (s : string) : bool :=
  match s with
  | EmptyString => false
  | _ => all_digits s
  end.

Fixpoint int_digits (acc : Z) (s : string) : Z :=
  match s with
  | EmptyString => acc
  | String c s' =>
      int_digits (10 * acc + match Ascii.is_nat c with Some d => Z.of_nat d | None => 0 end) s'
  end.

Definition int_of (s : string) : Z := int_digits 0 s.

(** [c.isspace()] on an ASCII character: tab to carriage return, the
    separators 0x1C to 0x1F, and the space. *)
Definition isspace (c : ascii) : bool :=
  let n := N_of_ascii c in
  ((9 <=? n) && (n <=? 13) || (28 <=? n) && (n <=? 32))%N.

(** [s.split()]: the maximal runs of characters that are not spaces; [cur]
    is the run being read, its last character first. *)
Fixpoint split_go (cur : string) (s : string) : list string :=
  match s with
  | EmptyString => if bool_decide (cur = EmptyString) then [] else [String.rev cur]
  | String c s' =>
      if isspace c
      then (if bool_decide (cur = EmptyString) then [] else [String.rev cur])
             ++ split_go EmptyString s'
      else split_go (String c cur) s'
  end.

Definition split (s : string) : list string := split_go EmptyString s.

(** A line as [splitlines()] gives it and on which [isdigit], [int] and
    [split] above are Python's: ASCII characters only ([str.isdigit] and
    [str.isspace] accept more of Unicode), none of them a line boundary,
    and at most 300 of them, so that no number read from it is too long
    for [int] or too large for a float. *)
Definition line_char (c : ascii) : bool :=
  let n := N_of_ascii c in
  ((n <? 128) && negb ((10 <=? n) && (n <=? 13)) && negb ((28 <=? n) && (n <=? 30)))%N.

Fixpoint all_line_chars (s : string) : bool :=
  match s with
  | EmptyString => true
  | String c s' => line_char c && all_line_chars s'
  end.

Definition plain_line (ln : string) : bool :=
  all_line_chars ln && (String.length ln <=? 300)%nat.

(** The body of the [for] of [mem_info]: [ln.replace(":","").split()] and
    the guarded store into the dict. *)
Definition mem_line (d : gmap string Z) (ln : string) : gmap string Z :=
  match split (remove_colons ln) with
  | k :: v :: _ => if isdigit v then <[k := int_of v]> d else d
  | _ => d
  end.

Definition meminfo_dict (lines : list string) : gmap string Z :=
  foldl mem_line ∅ lines.

(** [round(x, 1)]: [x] rounded to tenths, a tie to even. *)
Definition round1 (x : Q) : Q := (inject_Z (round (x * 10)) / 10)%Q.

(** [mem_info()] on the lines of [/proc/meminfo]: used, available and total
    in GB, and the usage in percent.  The quotients are the exact ones, so
    a rounded figure can differ by one unit from the code's next to a tie;
    0, and 100 for [used = total], are the same. *)
Definition mem_info (lines : list string) : Q * Q * Q * Z :=
  let d := meminfo_dict lines in
  let total := default 0 (d !! "MemTotal"%string) in
  let avail := default 0 (d !! "MemAvailable"%string) in
  let used := Z.max 0 (total - avail) in
  let to_gb := fun kb : Z => round1 (inject_Z kb / 1024 / 1024)%Q in
  let usage := round (100 * (inject_Z used / inject_Z (or_one total)))%Q in
  (to_gb used, to_gb avail, to_gb total, usage).

(** The fields of [os.statvfs("/")] that [disk_numbers] reads. *)
Record statvfs := {
  f_frsize : Z;
  f_blocks : Z;
  f_bavail : Z
}.

(** [disk_numbers()]: used and total in GB, and the usage in percent.  The
    quotients are the exact ones, as in [mem_info]. *)
Definition disk_numbers (st : statvfs) : Z * Z * Z :=
  let tot_b := f_frsize st * f_blocks st in
  let avail_b := f_frsize st * f_bavail st in
  let used_b := tot_b - avail_b in
  let to_gb := fun b : Z => round (inject_Z b / 1024 / 1024 / 1024)%Q in
  let usage := round (100 * (inject_Z used_b / inject_Z (or_one tot_b)))%Q in
  (to_gb used_b, to_gb tot_b, usage).

End Figures.

(** ** Label cache *)

Module Cache.
Import Py.

(** The dict [_cache] as the module creates it. *)
Definition _cache : gmap string (string * Q) :=
  <["disk"%string := (""%string, 0%Q)]> (<["ram"%string := (""%string, 0%Q)]> ∅).

(** [_cache_get(k, ttl)] when [time.time()] is [now]. *)
Definition _cache_get (c : gmap string (string * Q)) (k : string) (ttl now : Q)
    : option string :=
  let '(v, t) := default (""%string, 0%Q) (c !! k) in
  if negb (bool_decide (v = ""%string)) && Qlt_bool (now - t) ttl then Some v else None.

(** [_cache_set(k, v)] when [time.time()] is [now]. *)
Definition _cache_set (c : gmap string (string * Q)) (k v : string) (now : Q)
    : gmap string (string * Q) :=
  <[k := (v, now)]> c.

(** The frame shared by [ram_label] and [disk_label] for the key [k]: serve
    from the cache, else take what the scan of the tools gives ([scan],
    already normalised), store it and return it.  [t_get] and [t_set] are
    the clock at the lookup and at the store. *)
Definition cached_label (k : string) (c : gmap string (string * Q))
    (t_get t_set : Q) (scan : string) : string * gmap string (string * Q) :=
  match _cache_get c k 3600 t_get with
  | Some cached => (cached, c)
  | None => (scan, _cache_set c k scan t_set)
  end.

Definition ram_label := cached_label "ram".
Definition disk_label := cached_label "disk".

End Cache.

(** ** Battery tile *)

Module Battery.

(** The [for] of [p_bat] over the entries of [/sys/class/power_supply], each
    with what reading its [capacity] file gives ([None] when that raises):
    the text returned from inside the loop, if any.  A raise leaves the
    [try] and ends the loop. *)
Fixpoint bat_loop (entries : list (string * option Z)) : option string :=
  match entries with
  | [] => None
  | (base, capacity) :: rest =>
      if String.prefix "BAT" base
      then match capacity with
           | Some v => Some ("{Battery:" +:+ pretty v +:+ "}")
           | None => None
           end
      else bat_loop rest
  end.

(** [p_bat()]; [supply] is [None] when [os.listdir] raises. *)
Definition p_bat (supply : option (list (string * option Z))) : string :=
  match supply with
  | Some entries =>
      match bat_loop entries with
      | Some txt => txt
      | None => "{Battery:177}"
      end
  | None => "{Battery:177}"
  end.

End Battery.

(** * Properties *)


(** ** Frame codec *)

Section CodecFacts.
Import Serial Codec.

Lemma read_supplies n bs rest :
  length bs = n -> read n (supplies bs rest) = (bs, rest).
Proof.
  revert bs; induction n as [|n IH]; intros [|b bs] Hlen; simplify_eq/=; [done|].
  unfold supplies in IH. by rewrite IH.
Qed.

Lemma read_enq_poll_frame seq rest :
  read_enq (supplies (poll_frame seq) rest) = (Some seq, rest).
Proof. reflexivity. Qed.

Lemma consumed_supplies bs rest k :
  (k <= length bs)%nat ->
  consumed (supplies bs rest) (drop k (supplies bs rest)) = k.
Proof.
  intros Hk. unfold consumed, supplies.
  rewrite length_drop, length_app, length_fmap. lia.
Qed.

(** C3.  A well-formed poll frame [AA 05 seq CC 33 C3 3C] at the head of the
    input makes [read_enq] return its third byte [seq] (and leave exactly
    what follows the frame); the same frame with any one of its six fixed
    bytes (positions 0, 1, 3, 4, 5, 6) replaced by a different value makes it
    return [None]. *)
Theorem read_enq_valid_or_corrupt (seq : Z) (rest : stream) :
  read_enq (supplies (poll_frame seq) rest) = (Some seq, rest) /\
  forall (i : nat) (b : Z),
    (i < 7)%nat -> i <> 2%nat -> poll_frame seq !! i <> Some b ->
    (read_enq (supplies (<[i := b]> (poll_frame seq)) rest)).1 = None.
Proof.
  split; [apply read_enq_poll_frame|].
  intros i b Hi H2 Hb.
  unfold poll_frame, TRAILER in *.
  do 7 (destruct i as [|i]; [try done; cbn in Hb; unfold read_enq, TRAILER; cbn;
        repeat case_bool_decide; simplify_eq/=; done|]).
  lia.
Qed.

Lemma read_enq_valid_or_corrupt_witness :
  (read_enq (supplies (<[4%nat := 0x34]> (poll_frame 0x31)) [])).1 = None.
Proof.
  apply (proj2 (read_enq_valid_or_corrupt 0x31 []) 4%nat 0x34); [lia | lia | discriminate].
Defined.

(** C4, as stated, fails: a frame whose first byte is not [AA] costs one
    byte, not seven. *)
Lemma read_enq_consumes_one_byte :
  let s := supplies [0x00; 0x05; 0x31; 0xCC; 0x33; 0xC3; 0x3C] [] in
  read_enq s = (None, supplies [0x05; 0x31; 0xCC; 0x33; 0xC3; 0x3C] []) /\
  consumed s (read_enq s).2 = 1%nat /\
  consumed s (read_enq s).2 <> 7%nat.
Proof. cbv zeta. split; [reflexivity|]. split; [reflexivity|]. vm_compute. lia. Qed.

(** C4, amended.  On an input that supplies seven bytes without a timeout,
    [read_enq] stops at the first header byte that is wrong: it takes one
    byte when the first is not [AA], two when the first is [AA] and the
    second is not [05], and all seven otherwise, whether or not the trailer
    then validates. *)
Theorem read_enq_consumption (b1 b2 b3 b4 b5 b6 b7 : Z) (rest : stream) :
  let s := supplies [b1; b2; b3; b4; b5; b6; b7] rest in
  let k := if bool_decide (b1 = 0xAA)
           then if bool_decide (b2 = 0x05) then 7%nat else 2%nat
           else 1%nat in
  (read_enq s).2 = drop k s /\ consumed s (read_enq s).2 = k.
Proof.
  cbv zeta.
  assert ((read_enq (supplies [b1; b2; b3; b4; b5; b6; b7] rest)).2
          = drop (if bool_decide (b1 = 0xAA)
                  then if bool_decide (b2 = 0x05) then 7%nat else 2%nat
                  else 1%nat) (supplies [b1; b2; b3; b4; b5; b6; b7] rest)) as ->.
  { unfold read_enq; cbn. repeat (case_bool_decide; simplify_eq/=; try done). }
  split; [done|]. apply consumed_supplies. cbn. repeat case_bool_decide; lia.
Qed.

End CodecFacts.

(** ** Steady state *)

Section SteadyFacts.
Import Py Serial Codec Tiles Proto.

Lemma rot_index_in_range (rot : list (Z * maker)) (idx : Z) :
  rot <> [] -> is_Some (rot !! Z.to_nat (idx `mod` Z.of_nat (length rot))).
Proof.
  intros Hne. apply lookup_lt_is_Some.
  assert (0 < Z.of_nat (length rot)) by (destruct rot; [done | cbn; lia]).
  pose proof (Z.mod_pos_bound idx (Z.of_nat (length rot))). lia.
Qed.

Lemma rot_at_lookup (rot : list (Z * maker)) (idx : Z) :
  rot <> [] -> rot !! Z.to_nat (idx `mod` Z.of_nat (length rot)) = Some (rot_at rot idx).
Proof.
  intros Hne. unfold rot_at.
  by destruct (rot_index_in_range rot idx Hne) as [x ->].
Qed.

Lemma rot_at_full_wrap (idx : Z) :
  rot_at FULL_ROT (idx `mod` 1000000) = rot_at FULL_ROT idx.
Proof.
  unfold rot_at. change (Z.of_nat (length FULL_ROT)) with 8.
  rewrite (Z.mod_mod_divide idx 1000000 8); [done|]. by exists 125000.
Qed.

Lemma rot_at_full_nat (k : nat) :
  FULL_ROT !! (k `mod` 8)%nat = Some (rot_at FULL_ROT (Z.of_nat k)).
Proof.
  rewrite <- (rot_at_lookup FULL_ROT (Z.of_nat k)) by done.
  f_equal. change (Z.of_nat (length FULL_ROT)) with (Z.of_nat 8).
  rewrite <- Nat2Z.inj_mod. by rewrite Nat2Z.id.
Qed.

Lemma poll_valid (seq : Z) (rest : stream) (st : state) :
  poll (with_ser (supplies (poll_frame seq) rest) st) = (Some seq, with_ser rest st).
Proof. reflexivity. Qed.

Lemma writes_app (tr1 tr2 : list event) : writes (tr1 ++ tr2) = writes tr1 ++ writes tr2.
Proof. apply omap_app. Qed.

Lemma out_send (c : config) (frm : list Z) (st : state) :
  out (send c frm st) = out st ++ [EvWrite frm; EvSleep (post_write_sleep c)].
Proof. unfold send, emit; cbn. by rewrite <- app_assoc. Qed.

Lemma writes_send (c : config) (frm : list Z) (st : state) :
  writes (out (send c frm st)) = writes (out st) ++ [frm].
Proof. rewrite out_send, writes_app. done. Qed.

(** The code of each tile of the rotation, as [seq_for] computes it. *)
Lemma seq_for_table :
  (fun tm : Z * maker => (tm.1, seq_for tm.1)) <$> FULL_ROT =
  [(0x53, ord "2"); (0x36, ord "3"); (0x49, ord "4"); (0x4F, ord "5");
   (0x6B, ord "6"); (0x27, ord "7"); (0x10, ord "9"); (0x1A, ord "2")].
Proof. vm_compute. reflexivity. Qed.

(** C1.  In the steady state a valid poll, whatever sequence byte [seq] it
    carries, is answered with the frame of the rotation's tile at
    [idx mod 8]; the frame's second byte is the tile id and its fourth byte
    is that tile's fixed code [seq_for tile], which for the eight tiles is
    CPU 0x53 -> '2', GPU 0x36 -> '3', MEM 0x49 -> '4', DSK 0x4F -> '5',
    DAT 0x6B -> '6', NET 0x27 -> '7', VOL 0x10 -> '9', BAT 0x1A -> '2'; the
    step does not depend on [seq]. *)
Theorem steady_reply_uses_fixed_seq (e : env) (c : config) (idx : Z) (st : state)
    (seq seq' : Z) (rest : stream) :
  let '(tile, mk) := rot_at FULL_ROT idx in
  let frm := build_reply tile (seq_for tile) (payload e mk (made st)) in
  FULL_ROT !! Z.to_nat (idx `mod` 8) = Some (tile, mk) /\
  steady_step e c idx (with_ser (supplies (poll_frame seq) rest) st)
    = ((idx + 1) `mod` 1000000, send c frm (make e mk (with_ser rest st)).2) /\
  frm !! 1%nat = Some tile /\ frm !! 3%nat = Some (seq_for tile) /\
  In (tile, seq_for tile)
     [(0x53, ord "2"); (0x36, ord "3"); (0x49, ord "4"); (0x4F, ord "5");
      (0x6B, ord "6"); (0x27, ord "7"); (0x10, ord "9"); (0x1A, ord "2")] /\
  steady_step e c idx (with_ser (supplies (poll_frame seq) rest) st)
    = steady_step e c idx (with_ser (supplies (poll_frame seq') rest) st).
Proof.
  pose proof (rot_at_lookup FULL_ROT idx ltac:(done)) as Hrot.
  change (Z.of_nat (length FULL_ROT)) with 8 in Hrot.
  destruct (rot_at FULL_ROT idx) as [tile mk] eqn:Hat.
  assert (forall s, steady_step e c idx (with_ser (supplies (poll_frame s) rest) st)
      = ((idx + 1) `mod` 1000000,
         send c (build_reply tile (seq_for tile) (payload e mk (made st)))
           (make e mk (with_ser rest st)).2)) as Hstep.
  { intros s. unfold steady_step. rewrite poll_valid, Hat. done. }
  split_and!; [done | apply Hstep | done | done | | by rewrite !Hstep].
  rewrite <- seq_for_table. apply list_elem_of_In.
  apply (list_elem_of_fmap_2 (fun tm : Z * maker => (tm.1, seq_for tm.1)) FULL_ROT (tile, mk)).
  by eapply list_elem_of_lookup_2.
Qed.

Lemma steady_loop_wrap_equiv (e : env) (c : config) (n : nat) :
  forall (idx idxu : Z) (st : state),
    idx = idxu `mod` 1000000 ->
    (steady_loop n e c idx st).2 = (steady_loop_unbounded n e c idxu st).2 /\
    (steady_loop n e c idx st).1 = (steady_loop_unbounded n e c idxu st).1 `mod` 1000000.
Proof.
  induction n as [|n IH]; intros idx idxu st Hidx; [done|].
  cbn [steady_loop steady_loop_unbounded].
  unfold steady_step, steady_step_unbounded.
  destruct (poll st) as [[b|] st1]; [|by apply IH].
  rewrite Hidx, rot_at_full_wrap.
  destruct (rot_at FULL_ROT idxu) as [tile mk]. cbn.
  apply IH. by rewrite Zplus_mod_idemp_l.
Qed.

Lemma steady_step_unbounded_cases (e : env) (c : config) (idx : Z) (st : state) :
  (exists st1, poll st = (None, st1) /\ steady_step_unbounded e c idx st = (idx, st1)) \/
  (exists b st1, poll st = (Some b, st1) /\
     steady_step_unbounded e c idx st =
       (idx + 1,
        send c (build_reply (rot_at FULL_ROT idx).1 (seq_for (rot_at FULL_ROT idx).1)
                  (payload e (rot_at FULL_ROT idx).2 (made st1)))
          (make e (rot_at FULL_ROT idx).2 st1).2)).
Proof.
  unfold steady_step_unbounded. destruct (poll st) as [[b|] st1]; [right | left; eauto].
  exists b, st1. split; [done|]. by destruct (rot_at FULL_ROT idx) as [tile mk].
Qed.

Lemma poll_out (st st1 : state) (r : option Z) : poll st = (r, st1) -> out st1 = out st.
Proof. unfold poll. destruct (read_enq (ser st)). by intros [= _ <-]. Qed.

(** The frames of the unwrapped scheduler: the [k]-th one written from
    index [idx] on is the frame of the tile at [idx + k]. *)
Lemma steady_unbounded_frames (e : env) (c : config) (n : nat) :
  forall (idx : Z) (st : state),
  exists frames : list (list Z),
    writes (out (steady_loop_unbounded n e c idx st).2) = writes (out st) ++ frames /\
    (steady_loop_unbounded n e c idx st).1 = idx + Z.of_nat (length frames) /\
    forall (k : nat) (frm : list Z), frames !! k = Some frm ->
      exists txt, frm = build_reply (rot_at FULL_ROT (idx + Z.of_nat k)).1
                          (seq_for (rot_at FULL_ROT (idx + Z.of_nat k)).1) txt.
Proof.
  induction n as [|n IH]; intros idx st.
  { exists []. cbn. split_and!; [by rewrite app_nil_r | lia | intros k frm Hk; by destruct k]. }
  cbn [steady_loop_unbounded].
  destruct (steady_step_unbounded_cases e c idx st)
    as [(st1 & Hp & ->) | (b & st1 & Hp & ->)]; apply poll_out in Hp.
  - destruct (IH idx st1) as (frames & Hw & Hi & Hk).
    exists frames. by rewrite Hw, Hp.
  - set (frm0 := build_reply _ _ _).
    destruct (IH (idx + 1) (send c frm0 (make e (rot_at FULL_ROT idx).2 st1).2))
      as (frames & Hw & Hi & Hk).
    exists (frm0 :: frames). split_and!.
    + rewrite Hw, writes_send. cbn [make snd out]. rewrite Hp, <- app_assoc. done.
    + rewrite Hi. cbn [length]. lia.
    + intros [|k] frm Hfrm.
      * injection Hfrm as <-. rewrite Z.add_0_r. eauto.
      * destruct (Hk k frm Hfrm) as [txt ->]. exists txt.
        by replace (idx + Z.of_nat (S k)) with (idx + 1 + Z.of_nat k) by lia.
Qed.

(** C10.  Each step of the steady-state loop that answers a poll moves the
    index to [(idx + 1) mod 1,000,000].  After any number of iterations the
    loop with the wrapped index has written what the loop with an unwrapped
    index has written; the unwrapped index is the number of polls answered
    so far and the wrapped one is that number modulo 1,000,000; and the
    frame answering the [k]-th valid poll of the steady state (counted from
    0) is the one of [FULL_ROT[k mod 8]] with that tile's code. *)
Theorem steady_wrap_preserves_round_robin (e : env) (c : config) (n : nat) (st : state) :
  (steady_loop n e c 0 st).2 = (steady_loop_unbounded n e c 0 st).2 /\
  (steady_loop n e c 0 st).1 = (steady_loop_unbounded n e c 0 st).1 `mod` 1000000 /\
  exists frames : list (list Z),
    writes (out (steady_loop n e c 0 st).2) = writes (out st) ++ frames /\
    (steady_loop_unbounded n e c 0 st).1 = Z.of_nat (length frames) /\
    (steady_loop n e c 0 st).1 = Z.of_nat (length frames) `mod` 1000000 /\
    forall (k : nat) (frm : list Z), frames !! k = Some frm ->
      exists tile mk txt,
        FULL_ROT !! (k `mod` 8)%nat = Some (tile, mk) /\
        frm = build_reply tile (seq_for tile) txt.
Proof.
  destruct (steady_loop_wrap_equiv e c n 0 0 st) as [Hst Hidx]; [done|].
  split; [done|]. split; [done|].
  destruct (steady_unbounded_frames e c n 0 st) as (frames & Hw & Hi & Hk).
  exists frames. rewrite Hst, Hidx, Hi, Z.add_0_l. split_and!; try done.
  intros k frm Hfrm. destruct (Hk k frm Hfrm) as [txt ->].
  rewrite Z.add_0_l.
  exists (rot_at FULL_ROT (Z.of_nat k)).1, (rot_at FULL_ROT (Z.of_nat k)).2, txt.
  split; [|done]. rewrite rot_at_full_nat. by destruct (rot_at FULL_ROT (Z.of_nat k)).
Qed.

End SteadyFacts.

(** ** Activation handshake *)

Section ActivationFacts.
Import Py Serial Codec Tiles Proto.

Lemma is_ascii_seq_spec (b : Z) :
  is_ascii_seq b = true <-> (0x30 <= b <= 0x39) \/ b = 0x3C.
Proof. unfold is_ascii_seq. lia. Qed.

Lemma keep_recent_recent (e : env) (ts : list Q) :
  forall st : state,
    (keep_recent e ts st).1 = recent e (tick st) ts /\
    tick (keep_recent e ts st).2 = (tick st + length ts)%nat /\
    out (keep_recent e ts st).2 = out st /\
    ser (keep_recent e ts st).2 = ser st /\
    made (keep_recent e ts st).2 = made st /\
    dtrs (keep_recent e ts st).2 = dtrs st.
Proof.
  induction ts as [|t ts IH]; intros st; cbn [keep_recent recent].
  { cbn. split_and!; try done; lia. }
  unfold now. specialize (IH {| ser := ser st; tick := S (tick st); made := made st;
                                dtrs := dtrs st; out := out st |}).
  destruct (keep_recent e ts _) as [kept st2]. cbn in *.
  destruct IH as (-> & -> & -> & -> & -> & ->).
  split_and!; try done; try lia; by destruct (Qle_bool _ _).
Qed.

(** Every time [recent] keeps passed the two-second test at the clock
    reading it was judged at. *)
Lemma recent_within (e : env) (ts : list Q) :
  forall (k : nat) (t : Q), t ∈ recent e k ts ->
    exists j : nat, ts !! j = Some t /\ (clock e (k + j) - t <= 2)%Q.
Proof.
  induction ts as [|t0 ts IH]; intros k t Hin; cbn [recent] in Hin.
  { by apply elem_of_nil in Hin. }
  destruct (Qle_bool (clock e k - t0) 2) eqn:Htest.
  - apply elem_of_cons in Hin as [-> | Hin].
    + exists O. split; [done|]. rewrite Nat.add_0_r. by apply Qle_bool_iff.
    + destruct (IH _ _ Hin) as (j & Hj & Hle). exists (S j). split; [done|].
      by replace (k + S j)%nat with (S k + j)%nat by lia.
  - destruct (IH _ _ Hin) as (j & Hj & Hle). exists (S j). split; [done|].
    by replace (k + S j)%nat with (S k + j)%nat by lia.
Qed.

(** And every time that passes the test at its reading is kept. *)
Lemma recent_keeps (e : env) (ts : list Q) :
  forall (k j : nat) (t : Q),
    ts !! j = Some t -> (clock e (k + j) - t <= 2)%Q -> t ∈ recent e k ts.
Proof.
  induction ts as [|t0 ts IH]; intros k j t Hj Hle; [done|].
  cbn [recent]. destruct j as [|j].
  - injection Hj as ->. rewrite Nat.add_0_r in Hle.
    apply Qle_bool_iff in Hle. rewrite Hle. by left.
  - cbn in Hj. replace (k + S j)%nat with (S k + j)%nat in Hle by lia.
    pose proof (IH (S k) j t Hj Hle) as Hin.
    destruct (Qle_bool (clock e k - t0) 2); [by right | done].
Qed.

Lemma build_reply_seq_byte (tile seq : Z) (txt : list Z) :
  seq_byte (build_reply tile seq txt) = Some seq.
Proof. reflexivity. Qed.

Lemma milestones_app (tr1 tr2 : list event) :
  milestones (tr1 ++ tr2) = milestones tr1 ++ milestones tr2.
Proof. apply List.filter_app. Qed.

Lemma pulses_app (tr1 tr2 : list event) : pulses (tr1 ++ tr2) = (pulses tr1 + pulses tr2)%nat.
Proof. unfold pulses. by rewrite List.filter_app, length_app. Qed.

Lemma pulses_milestones (tr : list event) : pulses (milestones tr) = pulses tr.
Proof.
  unfold pulses, milestones. f_equal.
  induction tr as [|ev tr IH]; [done|]. cbn.
  destruct ev as [| |[]|]; cbn; by rewrite ?IH.
Qed.

(** One reply of the unlock phase, spelled out. *)
Lemma unlock_reply_spec (e : env) (c : config) (i seq : Z) (l : locals) (st : state) :
  let r := unlock_reply e c i seq l st in
  let l' := r.1.1 in
  let frm := build_reply (rot_at UNLOCK_ROT (idx l)).1 seq
               (payload e (rot_at UNLOCK_ROT (idx l)).2 (made st)) in
  idx l' = idx l + 1 /\
  boot_replies l' = boot_replies l + (if is_ascii_seq seq then 1 else 0) /\
  enq_times l' = recent e (S (tick st)) (enq_times l ++ [clock e (tick st)]) /\
  (r.1.2 = true <-> dense l') /\
  writes (out r.2) = writes (out st) ++ [frm] /\
  milestones (out r.2)
    = milestones (out st) ++ (if r.1.2 then [EvPrint (MsgActivated i)] else []) /\
  ser r.2 = ser st /\
  (tick st < tick r.2)%nat.
Proof.
  cbv zeta. unfold unlock_reply, now.
  pose proof (keep_recent_recent e (enq_times l ++ [clock e (tick st)])
    {| ser := ser st; tick := S (tick st); made := made st; dtrs := dtrs st;
       out := out st |}) as Hk.
  destruct (keep_recent e _ _) as [times st2]. cbn in Hk.
  destruct Hk as (-> & Htick & Hout & Hser & Hmade & Hdtrs).
  destruct (rot_at UNLOCK_ROT (idx l)) as [tile mk]. cbn [make fst snd].
  set (boot' := if is_ascii_seq seq then boot_replies l + 1 else boot_replies l).
  assert (boot' = boot_replies l + (if is_ascii_seq seq then 1 else 0)) as Hboot
    by (unfold boot'; destruct (is_ascii_seq seq); lia).
  unfold dense.
  destruct ((3 <=? boot') && (5 <=? Z.of_nat (length (recent e _ _)))) eqn:Hc;
    cbn [fst snd idx boot_replies enq_times]; rewrite <- Hboot.
  - apply andb_true_iff in Hc as [H3 H5]. apply Z.leb_le in H3, H5.
    split_and!; try done.
    + unfold emit. cbn [out]. rewrite writes_app, writes_send. cbn [out].
      rewrite Hout, Hmade. cbn. by rewrite app_nil_r.
    + unfold emit. cbn [out]. rewrite out_send, !milestones_app. cbn [out].
      rewrite Hout. cbn. by rewrite app_nil_r.
    + cbn. lia.
  - apply andb_false_iff in Hc.
    split_and!; try done.
    + split; [done|]. intros [H3 H5]. apply Z.leb_le in H3, H5. destruct Hc; congruence.
    + rewrite writes_send. cbn [out]. by rewrite Hout, Hmade.
    + rewrite out_send, milestones_app. cbn [out]. rewrite Hout. cbn. by rewrite app_nil_r.
    + cbn. lia.
Qed.

Lemma poll_fields (st st1 : state) (r : option Z) :
  poll st = (r, st1) ->
  out st1 = out st /\ tick st1 = tick st /\ (r, ser st1) = read_enq (ser st).
Proof. unfold poll. destruct (read_enq (ser st)). by intros [= <- <-]. Qed.

Lemma boot_count_cons (frm : list Z) (frames : list (list Z)) :
  boot_count (frm :: frames) = (if boot_style frm then 1 else 0) + boot_count frames.
Proof. unfold boot_count. cbn. destruct (boot_style frm); cbn; lia. Qed.

(** What the [while] of [unlock_attempt] has done when it ends. *)
Lemma unlock_loop_spec (e : env) (c : config) (i : Z) (start : Q) (fuel : nat) :
  forall (l : locals) (st : state) (act : bool) (l' : locals) (st' : state),
    unlock_loop fuel e c i start l st = Some (act, l', st') ->
    ~ dense l ->
    (act = true <-> dense l') /\
    (exists frames : list (list Z),
        writes (out st') = writes (out st) ++ frames /\
        idx l' = idx l + Z.of_nat (length frames) /\
        boot_replies l' = boot_replies l + boot_count frames) /\
    milestones (out st')
      = milestones (out st) ++ (if act then [EvPrint (MsgActivated i)] else []) /\
    (act = false ->
       Qlt_bool (clock e (pred (tick st')) - start) (window c) = false) /\
    (tick st < tick st')%nat.
Proof.
  induction fuel as [|fuel IH]; intros l st act l' st' Hrun Hl; [done|].
  cbn [unlock_loop] in Hrun. unfold now in Hrun.
  destruct (Qlt_bool (clock e (tick st) - start) (window c)) eqn:Hhead; cbn [negb] in Hrun.
  - destruct (poll _) as [[b|] st2] eqn:Hpoll;
      apply poll_fields in Hpoll as (Hout & Htick & _); cbn in Hout, Htick.
    + pose proof (unlock_reply_spec e c i b l st2) as Hr. cbv zeta in Hr.
      destruct (unlock_reply e c i b l st2) as [[l1 a] st3]. cbn [fst snd] in Hr.
      destruct Hr as (Hidx & Hboot & Htimes & Hact & Hw & Hm & Hser & Ht).
      destruct a.
      * injection Hrun as <- <- <-.
        split_and!; [done | | by rewrite Hm, Hout | done | lia].
        eexists [_]. rewrite Hw, Hout. split; [done|].
        rewrite boot_count_cons. unfold boot_style. rewrite build_reply_seq_byte.
        split; [cbn; lia|]. unfold boot_count. cbn. lia.
      * assert (~ dense l1) as Hl1 by (intros Hd; apply Hact in Hd; done).
        destruct (IH _ _ _ _ _ Hrun Hl1) as (Ha & (frames & Hfw & Hfi & Hfb) & Hfm & Hto & Hft).
        split_and!; [done | | by rewrite Hfm, Hm, Hout, app_nil_r | done | lia].
        eexists (_ :: frames). rewrite Hfw, Hw, Hout, <- app_assoc. split; [done|].
        rewrite boot_count_cons. unfold boot_style. rewrite build_reply_seq_byte.
        split; [cbn [length]; lia | lia].
    + destruct (IH _ _ _ _ _ Hrun Hl) as (Ha & (frames & Hfw & Hfi & Hfb) & Hfm & Hto & Hft).
      split_and!; [done | | by rewrite Hfm, Hout | done | lia].
      exists frames. by rewrite Hfw, Hout.
  - injection Hrun as <- <- <-. cbn.
    split_and!; [done | | by rewrite app_nil_r | done | lia].
    exists []. rewrite app_nil_r. split; [done|]. unfold boot_count. cbn. lia.
Qed.

(** With a clock that lets the window run out, the [while] ends. *)
Lemma unlock_loop_total (e : env) (c : config) (i : Z) (H t0 : nat) :
  elapses e c H ->
  forall (fuel : nat) (l : locals) (st : state),
    (t0 <= tick st)%nat -> (t0 + H < tick st + fuel)%nat -> (1 <= fuel)%nat ->
    is_Some (unlock_loop fuel e c i (clock e t0) l st).
Proof.
  intros Hel. induction fuel as [|fuel IH]; intros l st Ht0 Hfuel H1; [lia|].
  cbn [unlock_loop]. unfold now.
  destruct (Qlt_bool (clock e (tick st) - clock e t0) (window c)) eqn:Hhead; cbn [negb];
    [|done].
  assert (tick st < t0 + H)%nat as Hlt.
  { destruct (decide (t0 + H <= tick st)%nat) as [Hge|]; [|lia].
    apply Hel in Hge. unfold Qlt_bool in Hhead.
    apply negb_true_iff in Hhead. apply Qle_bool_iff in Hge. congruence. }
  destruct (poll _) as [[b|] st2] eqn:Hpoll;
    apply poll_fields in Hpoll as (Hout & Htick & _); cbn in Hout, Htick.
  - pose proof (unlock_reply_spec e c i b l st2) as Hr. cbv zeta in Hr.
    destruct (unlock_reply e c i b l st2) as [[l1 a] st3]. cbn [fst snd] in Hr.
    destruct Hr as (_ & _ & _ & _ & _ & _ & _ & Ht).
    destruct a; [done|]. apply IH; lia.
  - apply IH; lia.
Qed.

(** An activating run of the [while] ends at a reply, sent while the window
    was still open at the last check of the clock. *)
Lemma unlock_loop_break (e : env) (c : config) (i : Z) (start : Q) (fuel : nat) :
  forall (l : locals) (st : state) (l' : locals) (st' : state),
    unlock_loop fuel e c i start l st = Some (true, l', st') ->
    exists (b : Z) (l0 : locals) (s0 : state),
      unlock_reply e c i b l0 s0 = (l', true, st') /\
      Qlt_bool (clock e (pred (tick s0)) - start) (window c) = true.
Proof.
  induction fuel as [|fuel IH]; intros l st l' st' Hrun; [done|].
  cbn [unlock_loop] in Hrun. unfold now in Hrun.
  destruct (Qlt_bool (clock e (tick st) - start) (window c)) eqn:Hhead; cbn [negb] in Hrun;
    [|done].
  destruct (poll _) as [[b|] st2] eqn:Hpoll;
    apply poll_fields in Hpoll as (Hout & Htick & _); cbn in Hout, Htick; [|by eapply IH].
  destruct (unlock_reply e c i b l st2) as [[l1 a] st3] eqn:Hr.
  destruct a; [|by eapply IH].
  injection Hrun as <- <-. exists b, l, st2. split; [done|]. by rewrite Htick.
Qed.

(** An attempt, under a clock that lets its window run out. *)
Lemma unlock_attempt_spec (e : env) (c : config) (H fuel : nat) (i : Z) (st : state) :
  elapses e c H -> (H < fuel)%nat ->
  exists (act : bool) (l' : locals) (st' : state),
    unlock_attempt_locals fuel e c i st = Some (act, l', st') /\
    (act = true <-> dense l') /\
    (exists frames : list (list Z),
        writes (out st') = writes (out st) ++ frames /\
        idx l' = Z.of_nat (length frames) /\
        boot_replies l' = boot_count frames) /\
    milestones (out st')
      = milestones (out st)
        ++ [EvPrint (MsgAttempt i);
            EvPrint (if act then MsgActivated i else MsgNoActivation i)] /\
    (act = false ->
       exists k : nat, (tick st < k)%nat /\
         Qlt_bool (clock e k - clock e (tick st)) (window c) = false) /\
    (act = true ->
       exists (b : Z) (l0 : locals) (s0 : state),
         unlock_reply e c i b l0 s0 = (l', true, st') /\
         Qlt_bool (clock e (pred (tick s0)) - clock e (tick st)) (window c) = true).
Proof.
  intros Hel Hfuel. unfold unlock_attempt_locals, now. cbn [emit tick].
  set (st1 := {| ser := _; tick := S (tick st) |}).
  assert (~ dense locals0) as Hl0 by (unfold dense, locals0; cbn; lia).
  destruct (unlock_loop_total e c i H (tick st) Hel fuel locals0 st1) as [[[act l'] st2] Hrun];
    [cbn; lia | cbn; lia | lia |].
  rewrite Hrun.
  destruct (unlock_loop_spec _ _ _ _ _ _ _ _ _ _ Hrun Hl0)
    as (Hact & (frames & Hw & Hidx & Hboot) & Hm & Hto & Ht).
  exists act, l', (if act then st2 else emit (EvPrint (MsgNoActivation i)) st2).
  split; [done|]. split; [done|].
  assert (out st1 = out st ++ [EvPrint (MsgAttempt i)]) as Hout1 by done.
  rewrite Hout1, writes_app, milestones_app in *. cbn in Hw, Hm.
  rewrite app_nil_r in Hw.
  split_and!.
  - exists frames. unfold locals0 in *. cbn in Hidx, Hboot.
    split_and!; [|lia|lia]. destruct act; [done|].
    unfold emit. cbn [out]. rewrite writes_app. cbn. by rewrite app_nil_r.
  - destruct act; [by rewrite Hm, <- app_assoc|].
    unfold emit. cbn [out]. rewrite milestones_app, Hm, app_nil_r, <- app_assoc. done.
  - intros ->. exists (pred (tick st2)). split; [cbn in Ht; lia | by apply Hto].
  - intros ->. by eapply unlock_loop_break.
Qed.

Lemma window_open (x y : Q) : Qlt_bool x y = true <-> (x < y)%Q.
Proof.
  unfold Qlt_bool. rewrite negb_true_iff. split.
  - intros Hf. apply Qnot_le_lt. intros Hle. apply Qle_bool_iff in Hle. congruence.
  - intros Hlt. destruct (Qle_bool y x) eqn:Hb; [|done].
    apply Qle_bool_iff in Hb. exfalso. by apply (Qlt_not_le x y).
Qed.

Lemma recent_all (e : env) (ts : list Q) :
  forall k : nat,
    (forall (j : nat) (t : Q), ts !! j = Some t -> (clock e (k + j) - t <= 2)%Q) ->
    recent e k ts = ts.
Proof.
  induction ts as [|t ts IH]; intros k Hall; [done|]. cbn [recent].
  pose proof (Hall O t eq_refl) as H0. rewrite Nat.add_0_r in H0.
  apply Qle_bool_iff in H0. rewrite H0. f_equal. apply IH. intros j u Hj.
  replace (S k + j)%nat with (k + S j)%nat by lia. by apply Hall.
Qed.

Lemma unlock_reply_state (e : env) (c : config) (i seq : Z) (l : locals) (st : state) :
  let ts := enq_times l ++ [clock e (tick st)] in
  let times := recent e (S (tick st)) ts in
  let boot' := if is_ascii_seq seq then boot_replies l + 1 else boot_replies l in
  let a := (3 <=? boot') && (5 <=? Z.of_nat (length times)) in
  let frm := build_reply (rot_at UNLOCK_ROT (idx l)).1 seq
               (payload e (rot_at UNLOCK_ROT (idx l)).2 (made st)) in
  unlock_reply e c i seq l st
  = ({| idx := idx l + 1; boot_replies := boot'; enq_times := times |}, a,
     {| ser := ser st; tick := (S (tick st) + length ts)%nat; made := S (made st);
        dtrs := dtrs st;
        out := out st ++ [EvWrite frm; EvSleep (post_write_sleep c)]
                 ++ (if a then [EvPrint (MsgActivated i)] else []) |}).
Proof.
  cbv zeta. unfold unlock_reply, now.
  pose proof (keep_recent_recent e (enq_times l ++ [clock e (tick st)])
    {| ser := ser st; tick := S (tick st); made := made st; dtrs := dtrs st;
       out := out st |}) as Hk.
  destruct (keep_recent e _ _) as [times [s2 t2 m2 d2 o2]]. cbn in Hk.
  destruct Hk as (-> & -> & -> & -> & -> & ->).
  destruct (rot_at UNLOCK_ROT (idx l)) as [tile mk]. cbn [make fst snd].
  destruct (_ && _); unfold send, emit; cbn; by rewrite <- ?app_assoc.
Qed.

Lemma unlock_loop_timeout (e : env) (c : config) (i : Z) (start : Q) (fuel : nat)
    (l : locals) (s : state) :
  Qlt_bool (clock e (tick s) - start) (window c) = false ->
  unlock_loop (S fuel) e c i start l s = Some (false, l, (now e s).2).
Proof. intros Hh. cbn [unlock_loop]. unfold now. by rewrite Hh. Qed.

Lemma unlock_loop_idle (e : env) (c : config) (i : Z) (start : Q) (fuel : nat)
    (l : locals) (s : state) :
  Qlt_bool (clock e (tick s) - start) (window c) = true ->
  (read_enq (ser s)).1 = None ->
  unlock_loop (S fuel) e c i start l s
  = unlock_loop fuel e c i start l (with_ser (read_enq (ser s)).2 (now e s).2).
Proof.
  intros Hh Hr. cbn [unlock_loop]. unfold now, poll. rewrite Hh. cbn [negb ser tick made dtrs out].
  destruct (read_enq (ser s)) as [r s']. cbn [fst snd] in Hr |- *. by subst r.
Qed.

Lemma unlock_loop_reply (e : env) (c : config) (i : Z) (start : Q) (fuel : nat)
    (l : locals) (s : state) (b : Z) :
  Qlt_bool (clock e (tick s) - start) (window c) = true ->
  (read_enq (ser s)).1 = Some b ->
  unlock_loop (S fuel) e c i start l s
  = let r := unlock_reply e c i b l (with_ser (read_enq (ser s)).2 (now e s).2) in
    if r.1.2 then Some (true, r.1.1, r.2) else unlock_loop fuel e c i start r.1.1 r.2.
Proof.
  intros Hh Hr. cbn [unlock_loop]. unfold now, poll. rewrite Hh. cbn [negb ser tick made dtrs out].
  destruct (read_enq (ser s)) as [r s']. cbn [fst snd] in Hr |- *. subst r.
  unfold with_ser. cbn [ser tick made dtrs out].
  destruct (unlock_reply e c i b l _) as [[l1 []] s3]; done.
Qed.

Lemma poll_burst_cons (b : Z) (seqs : list Z) (tail : stream) :
  poll_burst (b :: seqs) tail = supplies (poll_frame b) (poll_burst seqs tail).
Proof. unfold poll_burst, supplies. cbn [mbind list_bind]. by rewrite fmap_app, <- app_assoc. Qed.

Lemma poll_burst_app (pre post : list Z) (tail : stream) :
  poll_burst (pre ++ post) tail = poll_burst pre (poll_burst post tail).
Proof.
  induction pre as [|b pre IH]; [done|].
  by rewrite <- app_comm_cons, !poll_burst_cons, IH.
Qed.

Lemma boot_polls_cons (b : Z) (seqs : list Z) :
  boot_polls (b :: seqs) = (if is_ascii_seq b then 1 else 0) + boot_polls seqs.
Proof. unfold boot_polls. cbn. destruct (is_ascii_seq b); cbn; lia. Qed.

Lemma boot_polls_app (pre post : list Z) :
  boot_polls (pre ++ post) = boot_polls pre + boot_polls post.
Proof. unfold boot_polls. rewrite List.filter_app, length_app. lia. Qed.

Lemma burst_ticks_closed (n : nat) :
  forall len : nat, (2 * burst_ticks len n = n * (2 * len + n + 5))%nat.
Proof. induction n as [|n IH]; intros len; [done|]. cbn [burst_ticks]. specialize (IH (S len)). nia. Qed.

Lemma burst_ticks_app (n m : nat) :
  forall len : nat,
    burst_ticks len (n + m) = (burst_ticks len n + burst_ticks (len + n) m)%nat.
Proof.
  induction n as [|n IH]; intros len; cbn [burst_ticks Nat.add].
  - by rewrite Nat.add_0_r.
  - rewrite IH. replace (S len + n)%nat with (len + S n)%nat by lia. lia.
Qed.

Lemma burst_step (e : env) (c : config) (i : Z) (t0 span fuel : nat) (l : locals)
    (s : state) (b : Z) (seqs : list Z) (tail : stream) :
  quick e c t0 span ->
  (t0 <= tick s)%nat ->
  (tick s + length (enq_times l) + 3 <= t0 + span)%nat ->
  read_between e t0 (tick s) (enq_times l) ->
  ser s = poll_burst (b :: seqs) tail ->
  let l1 := {| idx := idx l + 1;
               boot_replies := if is_ascii_seq b then boot_replies l + 1 else boot_replies l;
               enq_times := enq_times l ++ [clock e (S (tick s))] |} in
  let a := (3 <=? boot_replies l1) && (5 <=? Z.of_nat (length (enq_times l1))) in
  let frm := build_reply (rot_at UNLOCK_ROT (idx l)).1 b
               (payload e (rot_at UNLOCK_ROT (idx l)).2 (made s)) in
  let s1 := {| ser := poll_burst seqs tail;
               tick := (tick s + length (enq_times l) + 3)%nat;
               made := S (made s); dtrs := dtrs s;
               out := out s ++ [EvWrite frm; EvSleep (post_write_sleep c)]
                        ++ (if a then [EvPrint (MsgActivated i)] else []) |} in
  unlock_loop (S fuel) e c i (clock e t0) l s
  = if a then Some (true, l1, s1) else unlock_loop fuel e c i (clock e t0) l1 s1.
Proof.
  intros Hq Ht0 Hspan Hread Hser. cbv zeta.
  assert ((read_enq (ser s)) = (Some b, poll_burst seqs tail)) as Hre.
  { rewrite Hser, poll_burst_cons. apply read_enq_poll_frame. }
  rewrite (unlock_loop_reply e c i _ fuel l s b).
  2:{ apply window_open. apply (Hq t0 (tick s)); lia. }
  2:{ by rewrite Hre. }
  rewrite Hre. cbv zeta. rewrite unlock_reply_state. unfold with_ser, now.
  cbn [fst snd ser tick made dtrs out].
  rewrite recent_all.
  2:{ intros j t Hj.
      assert (exists q : nat, (t0 <= q <= S (tick s))%nat /\ t = clock e q) as (q & Hqr & ->).
      { apply lookup_app_Some in Hj as [Hj | [_ Hj]].
        - eapply Forall_lookup_1 in Hread as (q & Hqr & ->); [|done]. exists q. split; [lia|done].
        - apply list_lookup_singleton_Some in Hj as [_ <-]. exists (S (tick s)). split; [lia|done]. }
      apply lookup_lt_Some in Hj. rewrite length_app in Hj. cbn in Hj.
      apply (Hq q (S (S (tick s)) + j)%nat); lia. }
  cbn [idx boot_replies enq_times]. rewrite !length_app. cbn [length].
  replace (S (S (tick s)) + (length (enq_times l) + 1))%nat
    with (tick s + length (enq_times l) + 3)%nat by lia.
  done.
Qed.

Lemma echo_frames_app (e : env) (pre post : list Z) :
  forall (k : Z) (m : nat),
    echo_frames e k m (pre ++ post)
    = echo_frames e k m pre
      ++ echo_frames e (k + Z.of_nat (length pre)) (m + length pre) post.
Proof.
  induction pre as [|b pre IH]; intros k m; cbn [echo_frames app length].
  - by rewrite Z.add_0_r, Nat.add_0_r.
  - rewrite IH. cbn [app]. do 3 f_equal; lia.
Qed.

Lemma length_echo_frames (e : env) (seqs : list Z) :
  forall (k : Z) (m : nat), length (echo_frames e k m seqs) = length seqs.
Proof. induction seqs as [|b seqs IH]; intros k m; cbn; [done|]. by rewrite IH. Qed.

Lemma reply_trace_app (c : config) (f1 f2 : list (list Z)) :
  reply_trace c (f1 ++ f2) = reply_trace c f1 ++ reply_trace c f2.
Proof. unfold reply_trace. apply bind_app. Qed.

Lemma writes_reply_trace (c : config) (frames : list (list Z)) :
  writes (reply_trace c frames) = frames.
Proof.
  induction frames as [|f frames IH]; [done|].
  change (reply_trace c (f :: frames))
    with ([EvWrite f; EvSleep (post_write_sleep c)] ++ reply_trace c frames).
  by rewrite writes_app, IH.
Qed.

Lemma milestones_reply_trace (c : config) (frames : list (list Z)) :
  milestones (reply_trace c frames) = [].
Proof.
  induction frames as [|f frames IH]; [done|].
  change (reply_trace c (f :: frames))
    with ([EvWrite f; EvSleep (post_write_sleep c)] ++ reply_trace c frames).
  by rewrite milestones_app, IH.
Qed.

Lemma read_between_mono (e : env) (t0 t1 t2 : nat) (ts : list Q) :
  (t1 <= t2)%nat -> read_between e t0 t1 ts -> read_between e t0 t2 ts.
Proof.
  intros Hle Hts. eapply Forall_impl; [exact Hts|].
  intros t (q & Hq & ->). exists q. split; [lia|done].
Qed.

(** A burst of polls none of which completes the activation condition:
    the [while] answers each one and goes on. *)
Lemma burst_replies (e : env) (c : config) (i : Z) (t0 span : nat) :
  quick e c t0 span ->
  forall (seqs : list Z) (l : locals) (s : state) (tail : stream),
    ser s = poll_burst seqs tail ->
    (t0 <= tick s)%nat ->
    (tick s + burst_ticks (length (enq_times l)) (length seqs) <= t0 + span)%nat ->
    read_between e t0 (tick s) (enq_times l) ->
    (forall j : nat, (1 <= j <= length seqs)%nat ->
       ~ (3 <= boot_replies l + boot_polls (take j seqs) /\
          5 <= Z.of_nat (length (enq_times l) + j))) ->
    exists (l' : locals) (s' : state),
      (forall fuel : nat,
         unlock_loop (length seqs + fuel) e c i (clock e t0) l s
         = unlock_loop fuel e c i (clock e t0) l' s') /\
      idx l' = idx l + Z.of_nat (length seqs) /\
      boot_replies l' = boot_replies l + boot_polls seqs /\
      length (enq_times l') = (length (enq_times l) + length seqs)%nat /\
      read_between e t0 (tick s') (enq_times l') /\
      ser s' = tail /\
      tick s' = (tick s + burst_ticks (length (enq_times l)) (length seqs))%nat /\
      made s' = (made s + length seqs)%nat /\
      dtrs s' = dtrs s /\
      out s' = out s ++ reply_trace c (echo_frames e (idx l) (made s) seqs).
Proof.
  intros Hq. induction seqs as [|b seqs IH]; intros l s tail Hser Ht0 Hspan Hread Hno.
  { exists l, s. cbn [length burst_ticks Nat.add echo_frames]. unfold boot_polls, reply_trace.
    cbn. rewrite app_nil_r. split_and!; first [done | lia]. }
  cbn [length burst_ticks] in Hspan.
  pose proof (burst_step e c i t0 span (length seqs + 0) l s b seqs tail Hq Ht0
                ltac:(lia) Hread Hser) as Hstep0.
  assert ((3 <=? (if is_ascii_seq b then boot_replies l + 1 else boot_replies l))
          && (5 <=? Z.of_nat (length (enq_times l ++ [clock e (S (tick s))]))) = false) as Ha.
  { apply andb_false_iff.
    destruct (Z.leb_spec 3 (if is_ascii_seq b then boot_replies l + 1 else boot_replies l))
      as [H3|]; [|by left].
    destruct (Z.leb_spec 5 (Z.of_nat (length (enq_times l ++ [clock e (S (tick s))]))))
      as [H5|]; [|by right].
    exfalso. apply (Hno 1%nat); [cbn [length]; lia|].
    cbn [take]. rewrite boot_polls_cons. unfold boot_polls at 1. cbn [List.filter length].
    rewrite length_app in H5. cbn [length] in H5.
    split; [destruct (is_ascii_seq b); lia | lia]. }
  clear Hstep0.
  set (l1 := {| idx := idx l + 1;
                boot_replies := if is_ascii_seq b then boot_replies l + 1 else boot_replies l;
                enq_times := enq_times l ++ [clock e (S (tick s))] |}).
  set (frm := build_reply (rot_at UNLOCK_ROT (idx l)).1 b
                (payload e (rot_at UNLOCK_ROT (idx l)).2 (made s))).
  set (s1 := {| ser := poll_burst seqs tail;
                tick := (tick s + length (enq_times l) + 3)%nat;
                made := S (made s); dtrs := dtrs s;
                out := out s ++ [EvWrite frm; EvSleep (post_write_sleep c)] ++ [] |}).
  assert (forall fuel : nat,
            unlock_loop (S (length seqs + fuel)) e c i (clock e t0) l s
            = unlock_loop (length seqs + fuel) e c i (clock e t0) l1 s1) as Hstep.
  { intros fuel.
    rewrite (burst_step e c i t0 span (length seqs + fuel) l s b seqs tail Hq Ht0
               ltac:(lia) Hread Hser).
    cbv zeta. cbn [boot_replies enq_times]. by rewrite Ha. }
  destruct (IH l1 s1 tail) as (l' & s' & Hrun & Hidx & Hboot & Hlen & Hrd & Hs & Ht & Hm & Hd & Ho).
  - done.
  - cbn. lia.
  - cbn [tick enq_times l1 s1]. rewrite length_app. cbn [length].
    replace (length (enq_times l) + 1)%nat with (S (length (enq_times l))) by lia. lia.
  - cbn [tick enq_times l1 s1]. apply Forall_app. split.
    + eapply read_between_mono; [|done]. lia.
    + apply Forall_singleton. exists (S (tick s)). split; [lia|done].
  - intros j Hj [H3 H5]. apply (Hno (S j)); [cbn [length]; lia|].
    cbn [take]. rewrite boot_polls_cons.
    cbn [boot_replies enq_times l1] in H3, H5. rewrite length_app in H5. cbn [length] in H5.
    split; [destruct (is_ascii_seq b); lia | lia].
  - exists l', s'. cbn [length echo_frames].
    cbn [idx boot_replies enq_times tick made dtrs out l1 s1] in *.
    rewrite length_app in Hlen, Ht. cbn [length] in Hlen, Ht.
    replace (length (enq_times l) + 1)%nat with (S (length (enq_times l))) in Ht by lia.
    split_and!; try done.
    + intros fuel. cbn [Nat.add]. by rewrite Hstep.
    + lia.
    + rewrite boot_polls_cons. destruct (is_ascii_seq b); lia.
    + lia.
    + cbn [burst_ticks]. lia.
    + lia.
    + rewrite Ho. fold frm. unfold reply_trace. cbn [mbind list_bind app].
      by rewrite <- app_assoc.
Qed.

(** A burst whose last poll is the first to complete the activation
    condition: the [while] answers every poll of it and breaks at the last
    reply. *)
Lemma burst_activation (e : env) (c : config) (i : Z) (t0 span : nat) :
  quick e c t0 span ->
  forall (pre : list Z) (b : Z) (l : locals) (s : state) (tail : stream) (fuel : nat),
    ser s = poll_burst (pre ++ [b]) tail ->
    (t0 <= tick s)%nat ->
    (tick s + burst_ticks (length (enq_times l)) (S (length pre)) <= t0 + span)%nat ->
    read_between e t0 (tick s) (enq_times l) ->
    (forall j : nat, (1 <= j <= length pre)%nat ->
       ~ (3 <= boot_replies l + boot_polls (take j pre) /\
          5 <= Z.of_nat (length (enq_times l) + j))) ->
    3 <= boot_replies l + boot_polls (pre ++ [b]) ->
    5 <= Z.of_nat (length (enq_times l) + S (length pre)) ->
    exists (l' : locals) (s' : state),
      unlock_loop (length pre + S fuel) e c i (clock e t0) l s = Some (true, l', s') /\
      idx l' = idx l + Z.of_nat (S (length pre)) /\
      boot_replies l' = boot_replies l + boot_polls (pre ++ [b]) /\
      length (enq_times l') = (length (enq_times l) + S (length pre))%nat /\
      ser s' = tail /\
      made s' = (made s + S (length pre))%nat /\
      dtrs s' = dtrs s /\
      out s' = out s ++ reply_trace c (echo_frames e (idx l) (made s) (pre ++ [b]))
                 ++ [EvPrint (MsgActivated i)].
Proof.
  intros Hq pre b l s tail fuel Hser Ht0 Hspan Hread Hno H3 H5.
  rewrite poll_burst_app in Hser.
  replace (S (length pre)) with (length pre + 1)%nat in Hspan by lia.
  rewrite burst_ticks_app in Hspan. cbn [burst_ticks] in Hspan.
  destruct (burst_replies e c i t0 span Hq pre l s (poll_burst [b] tail) Hser Ht0
              ltac:(lia) Hread Hno)
    as (l1 & s1 & Hrun & Hidx & Hboot & Hlen & Hrd & Hs & Ht & Hm & Hd & Ho).
  rewrite Hrun.
  rewrite (burst_step e c i t0 span fuel l1 s1 b [] tail Hq ltac:(lia) ltac:(lia) Hrd Hs).
  cbv zeta. cbn [boot_replies enq_times].
  rewrite boot_polls_app, boot_polls_cons in H3. unfold boot_polls at 2 in H3.
  cbn [List.filter length] in H3.
  assert ((3 <=? (if is_ascii_seq b then boot_replies l1 + 1 else boot_replies l1))
          && (5 <=? Z.of_nat (length (enq_times l1 ++ [clock e (S (tick s1))]))) = true) as ->.
  { apply andb_true_iff. rewrite length_app. cbn [length].
    split; apply Z.leb_le; [destruct (is_ascii_seq b); lia | lia]. }
  eexists _, _. split; [done|]. cbn [idx boot_replies enq_times ser made dtrs out].
  rewrite length_app. cbn [length].
  split_and!; try done; try lia.
  - rewrite boot_polls_app, boot_polls_cons. unfold boot_polls at 2. cbn [List.filter length].
    destruct (is_ascii_seq b); lia.
  - rewrite Ho, echo_frames_app, reply_trace_app, Hidx, Hm, <- !app_assoc. done.
Qed.

Lemma snoc_view {A : Type} (l : list A) :
  l <> [] -> exists (pre : list A) (x : A), l = pre ++ [x].
Proof.
  induction l as [|a l IH]; [done|]. intros _. destruct l as [|b l].
  - by exists [], a.
  - destruct IH as (pre & x & ->); [done|]. by exists (a :: pre), x.
Qed.

(** An attempt that hears a quick burst of polls activates at the first
    poll that completes the condition. *)
Lemma unlock_attempt_burst (e : env) (c : config) (i : Z) (st : state) (seqs : list Z)
    (tail : stream) (k span fuel : nat) :
  ser st = poll_burst seqs tail ->
  quick e c (tick st) span ->
  (k * (k + 5) < 2 * span)%nat ->
  (5 <= k <= length seqs)%nat ->
  (k <= fuel)%nat ->
  3 <= boot_polls (take k seqs) ->
  (forall j : nat, (5 <= j < k)%nat -> boot_polls (take j seqs) < 3) ->
  exists (l' : locals) (st' : state),
    unlock_attempt_locals fuel e c i st = Some (true, l', st') /\
    idx l' = Z.of_nat k /\
    boot_replies l' = boot_polls (take k seqs) /\
    length (enq_times l') = k /\
    ser st' = poll_burst (drop k seqs) tail /\
    made st' = (made st + k)%nat /\
    out st' = out st ++ [EvPrint (MsgAttempt i)]
                ++ reply_trace c (echo_frames e 0 (made st) (take k seqs))
                ++ [EvPrint (MsgActivated i)].
Proof.
  intros Hser Hq Hspan Hk Hfuel H3 Hno.
  destruct (snoc_view (take k seqs)) as (pre & b & Hpre).
  { intros Hnil. apply (f_equal length) in Hnil. rewrite length_take in Hnil. cbn in Hnil. lia. }
  assert (length pre + 1 = k)%nat as Hlen.
  { apply (f_equal length) in Hpre. rewrite length_take, length_app in Hpre. cbn in Hpre. lia. }
  rewrite <- (take_drop k seqs), poll_burst_app, Hpre in Hser.
  unfold unlock_attempt_locals, now. cbn [emit tick].
  set (st1 := {| ser := _; tick := S (tick st) |}).
  pose proof (burst_ticks_closed k 0) as Hbt.
  destruct (burst_activation e c i (tick st) span Hq pre b locals0 st1
              (poll_burst (drop k seqs) tail) (fuel - k))
    as (l' & s' & Hrun & Hidx & Hboot & Hl & Hs & Hm & _ & Ho).
  - done.
  - cbn. lia.
  - cbn [tick st1 enq_times locals0 length]. replace (S (length pre)) with k by lia. nia.
  - by apply Forall_nil.
  - intros j Hj [Hb H5]. cbn [boot_replies enq_times locals0 length] in Hb, H5.
    assert (take j pre = take j seqs) as Ht.
    { rewrite <- (take_app_le pre [b]) by lia. rewrite <- Hpre, take_take. f_equal. lia. }
    rewrite Ht in Hb. specialize (Hno j). lia.
  - cbn [boot_replies locals0]. rewrite <- Hpre. lia.
  - cbn [enq_times locals0 length]. lia.
  - replace (length pre + S (fuel - k))%nat with fuel in Hrun by lia.
    rewrite Hrun. exists l', s'. rewrite <- Hpre in *.
    cbn [idx boot_replies enq_times locals0 length made out st1] in *.
    unfold emit in Hm, Ho. cbn [made out] in Hm, Ho.
    split_and!; try done; try lia.
    rewrite Ho, <- !app_assoc. done.
Qed.

(** On a line that has gone silent the [while] only waits. *)
Lemma unlock_loop_silent (e : env) (c : config) (i : Z) (start : Q) (fuel : nat) :
  forall (l : locals) (st : state) (act : bool) (l' : locals) (st' : state),
    ser st = [] ->
    unlock_loop fuel e c i start l st = Some (act, l', st') ->
    act = false /\ l' = l /\ out st' = out st /\ ser st' = [] /\ made st' = made st.
Proof.
  induction fuel as [|fuel IH]; intros l st act l' st' Hser Hrun; [done|].
  cbn [unlock_loop] in Hrun. unfold now, poll in Hrun. cbn [ser tick made dtrs out] in Hrun.
  rewrite Hser in Hrun. cbn [read_enq Serial.read] in Hrun.
  destruct (Qlt_bool (clock e (tick st) - start) (window c)); cbn [negb] in Hrun.
  - apply IH in Hrun; done.
  - by injection Hrun as <- <- <-.
Qed.

Lemma fast_clock_elapses : elapses fast_clock_env default_config 500.
Proof.
  intros j k Hjk. cbn. unfold Qle, Qminus, Qplus, Qopp. cbn. lia.
Qed.

Lemma fast_clock_quick (t0 span : nat) :
  (span <= 200)%nat -> quick fast_clock_env default_config t0 span.
Proof.
  intros Hs j k Hj Hjk Hk. cbn. unfold Qle, Qlt, Qminus, Qplus, Qopp. cbn. lia.
Qed.

Lemma echo_frames_lookup (e : env) (seqs : list Z) :
  forall (k0 : Z) (m k : nat) (b : Z),
    seqs !! k = Some b ->
    echo_frames e k0 m seqs !! k
    = Some (build_reply (rot_at UNLOCK_ROT (k0 + Z.of_nat k)).1 b
              (payload e (rot_at UNLOCK_ROT (k0 + Z.of_nat k)).2 (m + k))).
Proof.
  induction seqs as [|b0 seqs IH]; intros k0 m k b Hk; [done|].
  destruct k as [|k]; cbn [echo_frames].
  - injection Hk as ->. by rewrite Z.add_0_r, Nat.add_0_r.
  - cbn in Hk. cbn [lookup list_lookup]. rewrite (IH _ _ _ _ Hk).
    replace (k0 + 1 + Z.of_nat k) with (k0 + Z.of_nat (S k)) by lia.
    by replace (S m + k)%nat with (m + S k)%nat by lia.
Qed.

Lemma quick_before_elapses (e : env) (c : config) (t0 span H : nat) :
  quick e c t0 span -> elapses e c H -> (span < H)%nat.
Proof.
  intros Hq Hel. destruct (decide (span < H)%nat) as [|Hge]; [done|]. exfalso.
  pose proof (Hel t0 (t0 + H)%nat ltac:(lia)) as Hw.
  destruct (Hq t0 (t0 + H)%nat ltac:(lia) ltac:(lia) ltac:(lia)) as [_ Hlt].
  by apply (Qlt_not_le _ _ Hlt).
Qed.

(** An attempt that hears a quick burst of polls which never completes the
    condition, and then nothing: it answers every poll and fails. *)
Lemma unlock_attempt_quiet_burst (e : env) (c : config) (H fuel : nat) (i : Z) (st : state)
    (seqs : list Z) (span : nat) :
  elapses e c H -> (H < fuel)%nat ->
  ser st = poll_burst seqs [] ->
  quick e c (tick st) span ->
  (length seqs * (length seqs + 5) < 2 * span)%nat ->
  (forall j : nat, (5 <= j <= length seqs)%nat -> boot_polls (take j seqs) < 3) ->
  exists (l' : locals) (st' : state),
    unlock_attempt_locals fuel e c i st = Some (false, l', st') /\
    idx l' = Z.of_nat (length seqs) /\
    boot_replies l' = boot_polls seqs /\
    ser st' = [] /\
    out st' = out st ++ [EvPrint (MsgAttempt i)]
                ++ reply_trace c (echo_frames e 0 (made st) seqs)
                ++ [EvPrint (MsgNoActivation i)].
Proof.
  intros Hel Hfuel Hser Hq Hspan Hno.
  pose proof (quick_before_elapses e c _ _ _ Hq Hel) as HspanH.
  destruct (unlock_attempt_spec e c H fuel i st Hel Hfuel)
    as (act & l' & st' & Hrun & _).
  rewrite Hrun. unfold unlock_attempt_locals, now in Hrun. cbn [emit tick] in Hrun.
  set (st1 := {| ser := _; tick := S (tick st) |}) in Hrun.
  pose proof (burst_ticks_closed (length seqs) 0) as Hbt.
  destruct (burst_replies e c i (tick st) span Hq seqs locals0 st1 [])
    as (l1 & s1 & Hgo & Hidx & Hboot & _ & _ & Hs & _ & _ & _ & Ho).
  - done.
  - cbn. lia.
  - cbn [tick st1 enq_times locals0 length]. nia.
  - by apply Forall_nil.
  - intros j Hj [Hb H5]. cbn [boot_replies enq_times locals0 length] in Hb, H5.
    specialize (Hno j). lia.
  - replace fuel with (length seqs + (fuel - length seqs))%nat in Hrun by nia.
    rewrite Hgo in Hrun.
    destruct (unlock_loop _ e c i _ l1 s1) as [[[a l2] s2]|] eqn:Hloop; [|done].
    destruct (unlock_loop_silent _ _ _ _ _ _ _ _ _ _ Hs Hloop) as (-> & -> & Ho2 & Hs2 & _).
    injection Hrun as <- <- <-. exists l1, (emit (EvPrint (MsgNoActivation i)) s2).
    cbn [idx boot_replies locals0 out st1 emit ser] in *.
    split_and!; [done | lia | lia | done |].
    rewrite Ho2, Ho, <- !app_assoc. done.
Qed.

(** C2.  An unlock attempt, run under a clock that lets its window run out,
    returns; it returns [activated = True] exactly when its final locals
    have [boot_replies >= 3] and at least 5 arrival times in [enq_times].
    [boot_replies] is the number of replies of the attempt whose echoed
    sequence byte is an ASCII digit (0x30..0x39) or '<' (0x3C): each reply
    adds one exactly for such a byte.  [enq_times] after a reply holds the
    arrivals, the new one included, that were at most 2 seconds old when
    the clock was read for them (those and no others), and the condition is
    evaluated on these values after each reply.  An activating attempt ends
    at that reply, although the window was still open at the last check of
    the clock.

    The attempt is the [while] started at the first clock reading with
    empty locals, and every iteration of the [while] does what the line
    and the clock make it do: with the window run out it ends with
    [False]; with the window open and no poll read it goes on with its
    locals unchanged; with the window open and a poll read it answers,
    and ends with [True] exactly when the condition holds after that
    reply, going on otherwise.

    On the polls received: when the line carries polls in quick
    succession (all within two seconds and within the window), the attempt
    answers them in order and activates at the [k]-th poll, where [k] is
    the first count that is at least 5 with at least 3 boot-style bytes
    among the first [k] polls; it has then written exactly the [k] replies
    and left the polls after the [k]-th unread.  When no such [k] exists
    among the polls and the line is silent after them, the attempt answers
    every poll and returns [False]. *)
Theorem activation_exactly_when_dense (e : env) (c : config) (H fuel : nat) (i : Z)
    (st : state) :
  elapses e c H -> (H < fuel)%nat ->
  exists (act : bool) (l' : locals) (st' : state),
    unlock_attempt_locals fuel e c i st = Some (act, l', st') /\
    (act = true <->
       3 <= boot_replies l' /\ 5 <= Z.of_nat (length (enq_times l'))) /\
    (exists frames : list (list Z),
        writes (out st') = writes (out st) ++ frames /\
        boot_replies l' = boot_count frames) /\
    (forall b : Z, is_ascii_seq b = true <-> (0x30 <= b <= 0x39) \/ b = 0x3C) /\
    (forall (seq : Z) (l : locals) (s : state),
        let r := unlock_reply e c i seq l s in
        boot_replies r.1.1 = boot_replies l + (if is_ascii_seq seq then 1 else 0) /\
        enq_times r.1.1 = recent e (S (tick s)) (enq_times l ++ [clock e (tick s)]) /\
        (forall t : Q, t ∈ enq_times r.1.1 ->
           exists k : nat, (tick s < k < tick r.2)%nat /\ (clock e k - t <= 2)%Q) /\
        (forall (j : nat) (t : Q),
           (enq_times l ++ [clock e (tick s)]) !! j = Some t ->
           (clock e (S (tick s) + j) - t <= 2)%Q -> t ∈ enq_times r.1.1) /\
        (r.1.2 = true <->
           3 <= boot_replies r.1.1 /\ 5 <= Z.of_nat (length (enq_times r.1.1)))) /\
    (act = true ->
       exists (b : Z) (l0 : locals) (s0 : state),
         unlock_reply e c i b l0 s0 = (l', true, st') /\
         Qlt_bool (clock e (pred (tick s0)) - clock e (tick st)) (window c) = true) /\
    (exists s2 : state,
        unlock_loop fuel e c i (clock e (tick st)) locals0
          (now e (emit (EvPrint (MsgAttempt i)) st)).2 = Some (act, l', s2) /\
        st' = if act then s2 else emit (EvPrint (MsgNoActivation i)) s2) /\
    (forall (n : nat) (start : Q) (l : locals) (s : state),
        let inside := Qlt_bool (clock e (tick s) - start) (window c) in
        let heard := read_enq (ser s) in
        let s1 := with_ser heard.2 (now e s).2 in
        (inside = false ->
           unlock_loop (S n) e c i start l s = Some (false, l, (now e s).2)) /\
        (inside = true -> heard.1 = None ->
           unlock_loop (S n) e c i start l s = unlock_loop n e c i start l s1) /\
        (forall b : Z, inside = true -> heard.1 = Some b ->
           let r := unlock_reply e c i b l s1 in
           unlock_loop (S n) e c i start l s
           = if r.1.2 then Some (true, r.1.1, r.2)
             else unlock_loop n e c i start r.1.1 r.2)) /\
    (forall (seqs : list Z) (tail : stream) (k span : nat),
        ser st = poll_burst seqs tail -> quick e c (tick st) span ->
        (k * (k + 5) < 2 * span)%nat -> (5 <= k <= length seqs)%nat -> (k <= fuel)%nat ->
        3 <= boot_polls (take k seqs) ->
        (forall j : nat, (5 <= j < k)%nat -> boot_polls (take j seqs) < 3) ->
        act = true /\
        boot_replies l' = boot_polls (take k seqs) /\
        length (enq_times l') = k /\
        writes (out st') = writes (out st) ++ echo_frames e 0 (made st) (take k seqs) /\
        ser st' = poll_burst (drop k seqs) tail) /\
    (forall (seqs : list Z) (span : nat),
        ser st = poll_burst seqs [] -> quick e c (tick st) span ->
        (length seqs * (length seqs + 5) < 2 * span)%nat ->
        (forall j : nat, (5 <= j <= length seqs)%nat -> boot_polls (take j seqs) < 3) ->
        act = false /\
        boot_replies l' = boot_polls seqs /\
        writes (out st') = writes (out st) ++ echo_frames e 0 (made st) seqs).
Proof.
  intros Hel Hfuel.
  destruct (unlock_attempt_spec e c H fuel i st Hel Hfuel)
    as (act & l' & st' & Hrun & Hact & (frames & Hw & _ & Hboot) & _ & _ & Hbreak).
  exists act, l', st'. split_and!; try done.
  - by exists frames.
  - apply is_ascii_seq_spec.
  - intros seq l s.
    pose proof (unlock_reply_spec e c i seq l s) as Hr. cbv zeta in Hr |- *.
    destruct Hr as (_ & Hb & Ht & Hd & _ & _ & _ & Htick).
    split_and!; try done;
      [|intros j t Hj Hle; rewrite Ht; by eapply recent_keeps].
    intros t Hin. rewrite Ht in Hin.
    destruct (recent_within e _ _ _ Hin) as (j & Hj & Hle).
    exists (S (tick s) + j)%nat. split; [|done].
    apply lookup_lt_Some in Hj. rewrite length_app in Hj. cbn in Hj.
    rewrite unlock_reply_state. cbn [snd tick]. rewrite length_app. cbn [length]. lia.
  - unfold unlock_attempt_locals in Hrun.
    destruct (now e (emit (EvPrint (MsgAttempt i)) st)) as [start st1] eqn:Hnow.
    unfold now in Hnow. cbn [emit tick] in Hnow. injection Hnow as <- <-.
    destruct (unlock_loop fuel e c i _ locals0 _) as [[[a l1] s2]|]; [|done].
    injection Hrun as <- <- <-. by exists s2.
  - intros n start l s. cbv zeta. split_and!.
    + apply unlock_loop_timeout.
    + apply unlock_loop_idle.
    + intros b. apply unlock_loop_reply.
  - intros seqs tail k span Hser Hq Hspan Hk Hkf H3 Hno.
    destruct (unlock_attempt_burst e c i st seqs tail k span fuel Hser Hq Hspan Hk Hkf H3 Hno)
      as (l2 & st2 & Hrun2 & _ & Hb2 & Hl2 & Hs2 & _ & Ho2).
    rewrite Hrun in Hrun2. injection Hrun2 as -> -> ->.
    split_and!; try done.
    rewrite Ho2, !writes_app, writes_reply_trace. cbn. by rewrite app_nil_r.
  - intros seqs span Hser Hq Hspan Hno.
    destruct (unlock_attempt_quiet_burst e c H fuel i st seqs span Hel Hfuel Hser Hq Hspan Hno)
      as (l2 & st2 & Hrun2 & _ & Hb2 & _ & Ho2).
    rewrite Hrun in Hrun2. injection Hrun2 as -> -> ->.
    split_and!; try done.
    rewrite Ho2, !writes_app, writes_reply_trace. cbn. by rewrite app_nil_r.
Qed.

Lemma unlock_attempt_milestones (e : env) (c : config) (H fuel : nat) (i : Z) (st : state) :
  elapses e c H -> (H < fuel)%nat ->
  exists (act : bool) (st' : state),
    unlock_attempt fuel e c i st = Some (act, st') /\
    milestones (out st')
      = milestones (out st)
        ++ [EvPrint (MsgAttempt i);
            EvPrint (if act then MsgActivated i else MsgNoActivation i)] /\
    (act = false ->
       exists k : nat, (tick st < k)%nat /\
         Qlt_bool (clock e k - clock e (tick st)) (window c) = false).
Proof.
  intros Hel Hfuel.
  destruct (unlock_attempt_spec e c H fuel i st Hel Hfuel)
    as (act & l' & st' & Hrun & _ & _ & Hm & Hto & _).
  exists act, st'. unfold unlock_attempt. by rewrite Hrun.
Qed.

(** The control-line pulse: one deasserting call, whatever raises. *)
Lemma pulse_milestones (e : env) (st : state) :
  milestones (out (pulse e st)) = milestones (out st) ++ [EvDTR false].
Proof.
  unfold pulse, setDTR, setDTR_raised, emit.
  destruct (dtr_raises e (dtrs st)); cbn [out dtrs].
  - rewrite !milestones_app. cbn. by rewrite app_nil_r.
  - destruct (dtr_raises e (S (dtrs st))); cbn [out];
      rewrite !milestones_app; cbn; by rewrite !app_nil_r.
Qed.

(** The pulse when no [setDTR] raises: deassert, settle 50 ms, reassert,
    then 300 ms. *)
Lemma pulse_trace (e : env) (st : state) :
  dtr_raises e (dtrs st) = false -> dtr_raises e (S (dtrs st)) = false ->
  out (pulse e st)
    = out st ++ [EvDTR false; EvSleep (1 # 20); EvDTR true; EvSleep (3 # 10)].
Proof.
  intros H1 H2. unfold pulse, setDTR, emit. cbn [out dtrs]. rewrite H1. cbn [out dtrs].
  rewrite H2. cbn [out]. by rewrite <- !app_assoc.
Qed.

(** The retry loop over the attempt numbers [m, m+1, ..., m+n-1]. *)
Lemma retry_milestones (e : env) (c : config) (H fuel : nat) :
  elapses e c H -> (H < fuel)%nat ->
  forall (n : nat) (m : Z) (st : state),
  exists (act : bool) (st' : state),
    retry fuel e c (seqZ m (Z.of_nat n)) st = Some (act, st') /\
    (act = false ->
       milestones (out st')
         = milestones (out st) ++ (seqZ m (Z.of_nat n) ≫= round_failed)) /\
    (act = true ->
       exists j : nat, (j < n)%nat /\
         milestones (out st')
           = milestones (out st) ++ (seqZ m (Z.of_nat j) ≫= round_failed)
             ++ [EvPrint (MsgAttempt (m + Z.of_nat j));
                 EvPrint (MsgActivated (m + Z.of_nat j))]).
Proof.
  intros Hel Hfuel. induction n as [|n IH]; intros m st.
  { exists false, st. rewrite seqZ_nil by lia. cbn. split_and!; [done | | done].
    intros _. by rewrite app_nil_r. }
  rewrite seqZ_cons by lia.
  replace (Z.pred (Z.of_nat (S n))) with (Z.of_nat n) by lia.
  cbn [retry].
  destruct (unlock_attempt_milestones e c H fuel m st Hel Hfuel)
    as (act & st1 & -> & Hm & _).
  destruct act.
  - exists true, st1. split_and!; [done | done |]. intros _.
    exists O. split; [lia|]. rewrite seqZ_nil by lia. cbn. by rewrite Hm, Z.add_0_r.
  - destruct (IH (Z.succ m) (pulse e st1)) as (act & st' & -> & Hf & Ht).
    exists act, st'. split_and!; [done | |].
    + intros Hact. rewrite (Hf Hact), pulse_milestones, Hm. cbn.
      by rewrite <- !app_assoc.
    + intros Hact. destruct (Ht Hact) as (j & Hj & Hmj).
      exists (S j). split; [lia|].
      rewrite Hmj, pulse_milestones, Hm.
      rewrite (seqZ_cons m (Z.of_nat (S j))) by lia.
      replace (Z.pred (Z.of_nat (S j))) with (Z.of_nat j) by lia.
      replace (Z.succ m + Z.of_nat j) with (m + Z.of_nat (S j)) by lia.
      cbn. by rewrite <- !app_assoc.
Qed.

Lemma pulses_rounds_failed (ks : list Z) : pulses (ks ≫= round_failed) = length ks.
Proof. induction ks as [|k ks IH]; [done|]. cbn. unfold pulses in IH. cbn. by rewrite IH. Qed.

Lemma slow_clock_elapses : elapses slow_clock_env default_config 5.
Proof.
  intros j k Hjk. cbn. unfold Qminus. rewrite <- inject_Z_opp, <- inject_Z_plus.
  change 5%Q with (inject_Z 5). rewrite <- Zle_Qle. lia.
Qed.

Lemma activation_exactly_when_dense_witness :
  let s := poll_burst [0x31; 0x53; 0x32; 0x41; 0x33; 0x34] [Some 0xAA] in
  exists (l' : locals) (st' : state),
    unlock_attempt_locals 501 fast_clock_env default_config 1 (init s) = Some (true, l', st') /\
    boot_replies l' = 3 /\
    length (enq_times l') = 5%nat /\
    writes (out st') = echo_frames fast_clock_env 0 0 [0x31; 0x53; 0x32; 0x41; 0x33] /\
    ser st' = poll_burst [0x34] [Some 0xAA].
Proof.
  cbv zeta.
  destruct (activation_exactly_when_dense fast_clock_env default_config 500 501 1
              (init (poll_burst [0x31; 0x53; 0x32; 0x41; 0x33; 0x34] [Some 0xAA]))
              fast_clock_elapses ltac:(lia))
    as (act & l' & st' & Hrun & _ & _ & _ & _ & _ & _ & _ & Hburst & _).
  destruct (Hburst [0x31; 0x53; 0x32; 0x41; 0x33; 0x34] [Some 0xAA] 5%nat 26%nat)
    as (-> & Hb & Hl & Hw & Hs).
  - reflexivity.
  - apply fast_clock_quick. lia.
  - lia.
  - cbn. lia.
  - lia.
  - vm_compute. discriminate.
  - intros j Hj. lia.
  - exists l', st'. split_and!; [exact Hrun | exact Hb | exact Hl | exact Hw | exact Hs].
Defined.

(** Five polls carrying '1'..'5' in quick succession activate the first
    attempt at the fifth reply, with the rest of the input left unread. *)
Example five_quick_polls_activate :
  let s := Serial.supplies (poll_frame 0x31 ++ poll_frame 0x32 ++ poll_frame 0x33
                            ++ poll_frame 0x34 ++ poll_frame 0x35) [Some 0xAA] in
  exists l' st',
    unlock_attempt_locals 10 fast_clock_env default_config 1 (init s) = Some (true, l', st') /\
    boot_replies l' = 5 /\ length (enq_times l') = 5%nat /\ ser st' = [Some 0xAA] /\
    length (writes (out st')) = 5%nat.
Proof. cbv zeta. do 2 eexists. split; [vm_compute; reflexivity|]. done. Qed.

(** Three boot-style polls are not enough while fewer than five arrivals
    are recent: four polls leave the attempt to its timeout. *)
Example four_polls_do_not_activate :
  let s := Serial.supplies (poll_frame 0x31 ++ poll_frame 0x32 ++ poll_frame 0x33
                            ++ poll_frame 0x34) [] in
  exists l' st',
    unlock_attempt_locals 600 fast_clock_env default_config 1 (init s) = Some (false, l', st') /\
    boot_replies l' = 4 /\ length (writes (out st')) = 4%nat.
Proof. cbv zeta. do 2 eexists. split; [vm_compute; reflexivity|]. done. Qed.

(** Three digit polls and two polls carrying other bytes, five arrivals in
    all within two seconds: activation at the fifth reply. *)
Example three_digits_five_arrivals_activate :
  let s := Serial.supplies (poll_frame 0x31 ++ poll_frame 0x53 ++ poll_frame 0x32
                            ++ poll_frame 0x41 ++ poll_frame 0x33) [] in
  exists l' st',
    unlock_attempt_locals 10 fast_clock_env default_config 1 (init s) = Some (true, l', st') /\
    boot_replies l' = 3 /\ length (enq_times l') = 5%nat /\
    (seq_byte <$> writes (out st')) = Some <$> [0x31; 0x53; 0x32; 0x41; 0x33] /\
    ((fun frm : list Z => frm !! 1%nat) <$> writes (out st'))
      = Some <$> [CPU; GPU; MEM; CPU; GPU].
Proof. cbv zeta. do 2 eexists. split; [vm_compute; reflexivity|]. done. Qed.

(** Polls that arrive more than two seconds apart never activate: under the
    clock that advances a second per reading every attempt times out, and
    the handshake ends FAILED after three attempts and three pulses. *)
Example sparse_polls_fail :
  let s := Serial.supplies (poll_frame 0x31 ++ poll_frame 0x32 ++ poll_frame 0x33
                            ++ poll_frame 0x34 ++ poll_frame 0x35 ++ poll_frame 0x36
                            ++ poll_frame 0x37 ++ poll_frame 0x38) [] in
  exists st',
    handshake 6 slow_clock_env default_config (init s) = Some (false, st') /\
    pulses (out st') = 3%nat /\
    milestones (out st')
      = round_failed 1 ++ round_failed 2 ++ round_failed 3 ++ [EvPrint MsgWarn].
Proof. cbv zeta. eexists. split; [vm_compute; reflexivity|]. done. Qed.

(** C8, as stated, fails: with a single attempt allowed ([N = 1]) on a
    silent line, the attempt fails, the state is FAILED, and the control
    line is pulsed all the same, although [k < N] does not hold. *)
Lemma pulse_after_last_attempt :
  let e := slow_clock_env in
  let c := {| attempts := 1; window := 5; post_write_sleep := 6 # 1000 |} in
  exists st' : state,
    handshake 8 e c (init []) = Some (false, st') /\
    out st' = [EvPrint (MsgAttempt 1); EvPrint (MsgNoActivation 1);
               EvDTR false; EvSleep (1 # 20); EvDTR true; EvSleep (3 # 10);
               EvPrint MsgWarn] /\
    pulses (out st') = 1%nat /\
    pulses (out st') <> (Z.to_nat (attempts c) - 1)%nat.
Proof. cbv zeta. eexists. split; [vm_compute; reflexivity|]. cbn. split_and!; [done|done|lia]. Qed.

(** C8, amended.  Under a clock that lets every window run out, the
    handshake returns and [main] goes on into the steady state whether or
    not it activated.  When all [N] attempts fail, the skeleton of the trace
    is, for [k = 1, ..., N], the banner of attempt [k], its failure line and
    a control-line pulse (after the last attempt too), then the warning:
    [N] pulses, one after each failed attempt, and a new attempt only while
    [k < N].  When attempt [k] activates, it follows [k - 1] failed rounds
    and is followed by the confirmation line.  An attempt fails only once a
    clock reading shows its window run out; the pulse, when no [setDTR]
    raises, is deassert, 50 ms, reassert, 300 ms. *)
Theorem handshake_pulses_after_every_failure (e : env) (c : config) (H fuel n : nat)
    (s : Serial.stream) :
  elapses e c H -> (H < fuel)%nat ->
  exists (act : bool) (st' : state),
    handshake fuel e c (init s) = Some (act, st') /\
    main fuel n e c s = Some (steady_loop n e c 0 st').2 /\
    (act = false ->
       milestones (out st')
         = (seqZ 1 (attempts c) ≫= round_failed) ++ [EvPrint MsgWarn] /\
       pulses (out st') = Z.to_nat (attempts c)) /\
    (act = true ->
       exists k : Z, 1 <= k <= attempts c /\
         milestones (out st')
           = (seqZ 1 (k - 1) ≫= round_failed)
             ++ [EvPrint (MsgAttempt k); EvPrint (MsgActivated k); EvPrint MsgOk] /\
         pulses (out st') = Z.to_nat (k - 1)) /\
    (forall (i : Z) (st : state),
        exists (a : bool) (st1 : state),
          unlock_attempt fuel e c i st = Some (a, st1) /\
          (a = false ->
             exists k : nat, (tick st < k)%nat /\
               Qlt_bool (clock e k - clock e (tick st)) (window c) = false)) /\
    (forall st : state,
        dtr_raises e (dtrs st) = false -> dtr_raises e (S (dtrs st)) = false ->
        out (pulse e st)
          = out st ++ [EvDTR false; EvSleep (1 # 20); EvDTR true; EvSleep (3 # 10)]).
Proof.
  intros Hel Hfuel.
  assert (seqZ 1 (attempts c) = seqZ 1 (Z.of_nat (Z.to_nat (attempts c)))) as Hks.
  { destruct (decide (0 <= attempts c)); [by rewrite Z2Nat.id|].
    by rewrite !seqZ_nil by lia. }
  destruct (retry_milestones e c H fuel Hel Hfuel (Z.to_nat (attempts c)) 1 (init s))
    as (act & st1 & Hrun & Hf & Ht).
  rewrite <- Hks in Hrun, Hf.
  exists act, (emit (EvPrint (if act then MsgOk else MsgWarn)) st1).
  unfold main, handshake. rewrite Hrun. split_and!; [done | done | | | |].
  - intros ->. unfold emit. cbn [out]. rewrite milestones_app, (Hf eq_refl). cbn.
    split; [done|].
    rewrite <- pulses_milestones, milestones_app, (Hf eq_refl), !pulses_app,
      pulses_rounds_failed, length_seqZ. cbn. lia.
  - intros ->. destruct (Ht eq_refl) as (j & Hj & Hm).
    exists (1 + Z.of_nat j). split; [lia|].
    replace (1 + Z.of_nat j - 1) with (Z.of_nat j) by lia.
    unfold emit. cbn [out]. rewrite milestones_app, Hm. cbn.
    split; [by rewrite <- app_assoc|].
    rewrite <- pulses_milestones, milestones_app, Hm, !pulses_app,
      pulses_rounds_failed, length_seqZ. cbn. lia.
  - intros i st.
    destruct (unlock_attempt_milestones e c H fuel i st Hel Hfuel) as (a & st2 & Hr & _ & Hto).
    by exists a, st2.
  - apply pulse_trace.
Qed.

Lemma handshake_pulses_after_every_failure_witness :
  exists (act : bool) (st' : state),
    handshake 6 slow_clock_env default_config (init []) = Some (act, st') /\
    main 6 0 slow_clock_env default_config [] = Some (steady_loop 0 slow_clock_env default_config 0 st').2.
Proof.
  destruct (handshake_pulses_after_every_failure slow_clock_env default_config 5 6 0 []
              slow_clock_elapses ltac:(lia))
    as (act & st' & Hrun & Hmain & _).
  exists act, st'. split; [exact Hrun | exact Hmain].
Defined.

(** Three failed attempts on a silent line: three pulses, then the warning. *)
Example silent_line_three_pulses :
  exists st',
    handshake 6 slow_clock_env default_config (init []) = Some (false, st') /\
    milestones (out st')
      = round_failed 1 ++ round_failed 2 ++ round_failed 3 ++ [EvPrint MsgWarn].
Proof. eexists. split; [vm_compute; reflexivity|]. reflexivity. Qed.

End ActivationFacts.

(** ** Fan speed *)

Section FanFacts.
Import Py Fan.

Lemma round_comp (x y : Q) : (x == y)%Q -> round x = round y.
Proof.
  intros Hxy. unfold round.
  assert (Qfloor x = Qfloor y) as -> by (by apply Qfloor_comp).
  assert ((x - inject_Z (Qfloor y) ?= 1 # 2)%Q = (y - inject_Z (Qfloor y) ?= 1 # 2)%Q) as ->;
    [|done].
  apply Qcompare_comp; [by rewrite Hxy | reflexivity].
Qed.

Lemma round_nonneg (x : Q) : (0 <= x)%Q -> 0 <= round x.
Proof.
  intros Hx. unfold round.
  assert (0 <= Qfloor x) by (change 0 with (Qfloor 0); by apply Qfloor_resp_le).
  destruct (_ ?= _)%Q; [destruct (Z.even _)| |]; lia.
Qed.

Lemma hwmon_visit_pos (best reading : option Z) :
  (forall b, best = Some b -> 0 < b) ->
  forall v, hwmon_visit best reading = Some v -> 0 < v.
Proof.
  intros Hb v. unfold hwmon_visit. destruct reading as [r|]; [|apply Hb].
  destruct (0 <? r) eqn:Hr; [|apply Hb]. apply Z.ltb_lt in Hr.
  destruct best as [b|]; intros [= <-]; [|done]. lia.
Qed.

Lemma hwmon_dir_pos (dir : list (option Z)) :
  forall best : option Z,
    (forall b, best = Some b -> 0 < b) ->
    forall v, foldl hwmon_visit best dir = Some v -> 0 < v.
Proof.
  induction dir as [|r dir IH]; intros best Hb v; cbn; [apply Hb|].
  apply IH. by apply hwmon_visit_pos.
Qed.

(** A reading taken from hwmon is a positive RPM. *)
Lemma hwmon_reading_pos (s : sensors) (v : Z) : _fan_rpm_from_hwmon s = Some v -> 0 < v.
Proof.
  unfold _fan_rpm_from_hwmon.
  assert (forall b : Z, (None : option Z) = Some b -> 0 < b) as Hnone by done.
  revert Hnone. generalize (None : option Z) as best. revert v.
  induction (hwmon s) as [|dir dirs IH]; intros v best Hb; cbn; [apply Hb|].
  apply IH. intros b. by apply hwmon_dir_pos.
Qed.

(** A reading taken from a non-negative NVIDIA duty is a non-negative RPM;
    a duty of 0 gives 0 RPM. *)
Lemma nvidia_reading_nonneg (s : sensors) (max_rpm v : Z) :
  duty_nonneg s -> _fan_rpm_from_nvidia s max_rpm = Some v -> 0 <= v.
Proof.
  unfold duty_nonneg, _fan_rpm_from_nvidia. destruct (smi s) as [| | |p]; try done.
  intros Hp [= <-]. apply round_nonneg.
  apply Qmult_le_0_compat.
  - by apply Qle_shift_div_l; [|rewrite Qmult_0_l].
  - change 0%Q with (inject_Z 0). rewrite <- Zle_Qle. lia.
Qed.

Lemma nvidia_zero_duty (s : sensors) (max_rpm : Z) (p : Q) :
  smi s = SmiPercent p -> (p == 0)%Q -> _fan_rpm_from_nvidia s max_rpm = Some 0.
Proof.
  intros Hs Hp. unfold _fan_rpm_from_nvidia. rewrite Hs. f_equal.
  change 0 with (round 0). apply round_comp. rewrite Hp. field.
Qed.

(** C5.  For a preference among auto, hwmon and nvidia and any state of the
    two sources, [fan_rpm] is the reading of the preferred source (hwmon for
    auto) when it has one, else the reading of the other source when that
    has one, else -1; an NVIDIA duty of 0% is a reading (0 RPM); and, duties
    being non-negative, the result is -1 exactly when neither source has a
    reading.  (The function is total: no input makes it raise.) *)
Theorem fan_rpm_fallback_chain (s : sensors) (prefer : string) (max_rpm : Z) :
  prefer ∈ ["auto"; "hwmon"; "nvidia"]%string ->
  duty_nonneg s ->
  let hw := _fan_rpm_from_hwmon s in
  let nv := _fan_rpm_from_nvidia s max_rpm in
  let first := if bool_decide (prefer = "nvidia"%string) then nv else hw in
  let second := if bool_decide (prefer = "nvidia"%string) then hw else nv in
  fan_rpm s prefer max_rpm
    = match first with
      | Some v => v
      | None => match second with Some v => v | None => -1 end
      end /\
  (forall p : Q, smi s = SmiPercent p -> (p == 0)%Q -> nv = Some 0) /\
  (fan_rpm s prefer max_rpm = -1 <-> hw = None /\ nv = None).
Proof.
  intros Hpref Hduty. cbv zeta.
  assert (fan_rpm s prefer max_rpm
    = match (if bool_decide (prefer = "nvidia"%string)
             then _fan_rpm_from_nvidia s max_rpm else _fan_rpm_from_hwmon s) with
      | Some v => v
      | None =>
          match (if bool_decide (prefer = "nvidia"%string)
                 then _fan_rpm_from_hwmon s else _fan_rpm_from_nvidia s max_rpm) with
          | Some v => v
          | None => -1
          end
      end) as Hfan.
  { repeat (apply elem_of_cons in Hpref as [-> | Hpref]; [reflexivity|]).
    by apply elem_of_nil in Hpref. }
  split; [exact Hfan|]. split; [apply nvidia_zero_duty|].
  rewrite Hfan.
  pose proof (hwmon_reading_pos s) as Hhw.
  pose proof (fun v => nvidia_reading_nonneg s max_rpm v Hduty) as Hnv.
  destruct (_fan_rpm_from_hwmon s) as [h|], (_fan_rpm_from_nvidia s max_rpm) as [r|];
    case_bool_decide; split; try done; try (intros [? ?]; done);
    intros ->; try (specialize (Hhw _ eq_refl)); try (specialize (Hnv _ eq_refl)); lia.
Qed.

Lemma fan_rpm_fallback_chain_witness :
  fan_rpm {| hwmon := [[Some 0]]; smi := SmiPercent 50 |} "auto" 4000 = 2000.
Proof.
  destruct (fan_rpm_fallback_chain {| hwmon := [[Some 0]]; smi := SmiPercent 50 |}
              "auto"%string 4000) as (Hfan & _ & _).
  - apply elem_of_cons. by left.
  - cbn. discriminate.
  - rewrite Hfan. reflexivity.
Defined.

(** The cases of the specification: a lone hwmon reading of 0 with a duty
    of 50% and a maximum of 4000; both sources absent; hwmon preferred but
    absent. *)
Example fan_rpm_examples :
  fan_rpm {| hwmon := [[Some 0]]; smi := SmiPercent 50 |} "auto" 4000 = 2000 /\
  fan_rpm {| hwmon := []; smi := SmiNothing |} "auto" 4000 = -1 /\
  fan_rpm {| hwmon := [[None]]; smi := SmiPercent 50 |} "hwmon" 4000 = 2000 /\
  fan_rpm {| hwmon := [[None]]; smi := SmiPercent 0 |} "nvidia" 5000 = 0 /\
  fan_rpm {| hwmon := [[Some 900; Some 1200]; [Some 1100]]; smi := SmiPercent 50 |}
    "AUTO" 4000 = 1200.
Proof. vm_compute. done. Qed.

End FanFacts.

(** ** Interface picker *)

Section PickerFacts.
Import Py Net.

(** The order of the tuples, spelled out. *)
Lemma key_le_spec (s1 s2 : Z) (w1 w2 : bool) (n1 n2 : string) :
  key_le (s1, w1, n1) (s2, w2, n2) <->
  s1 < s2 \/
  (s1 = s2 /\ ((w1 = false /\ w2 = true) \/ (w1 = w2 /\ String.le n1 n2))).
Proof.
  unfold key_le, key_leb, String.le.
  destruct (Z.compare_spec s1 s2) as [-> | Hlt | Hgt].
  - destruct w1, w2; split.
    + intros Hle. right. split; [done|]. right. split; [done|]. by apply Is_true_true.
    + intros [? | [_ [[? ?] | [_ Hle]]]]; [lia | done | by apply Is_true_true].
    + done.
    + intros [? | [_ [[? ?] | [? _]]]]; [lia | done | done].
    + intros _. right. split; [done|]. by left.
    + done.
    + intros Hle. right. split; [done|]. right. split; [done|]. by apply Is_true_true.
    + intros [? | [_ [[? ?] | [_ Hle]]]]; [lia | done | by apply Is_true_true].
  - split; [by left | done].
  - split; [done|]. intros [? | [? _]]; lia.
Qed.

#[local] Instance key_le_total : Total key_le.
Proof.
  intros [[s1 w1] n1] [[s2 w2] n2]. rewrite !key_le_spec.
  destruct (Z.lt_total s1 s2) as [? | [-> | ?]]; [by left; left | | by right; left].
  destruct w1, w2.
  - destruct (total String.le n1 n2); [left | right]; right; eauto.
  - right. right. eauto.
  - left. right. eauto.
  - destruct (total String.le n1 n2); [left | right]; right; eauto.
Qed.

#[local] Instance key_le_trans : Transitive key_le.
Proof.
  intros [[s1 w1] n1] [[s2 w2] n2] [[s3 w3] n3]. rewrite !key_le_spec.
  intros [? | [-> [[-> ->] | [-> H12]]]] [? | [? [[? ?] | [? H23]]]]; simplify_eq;
    try (left; lia); right; (split; [done|]); eauto.
  right. split; [done|]. by etrans.
Qed.

#[local] Instance flip_key_le_total : Total (flip key_le).
Proof. intros a b. unfold flip. destruct (total key_le a b); eauto. Qed.

#[local] Instance flip_key_le_trans : Transitive (flip key_le).
Proof. intros a b c Hab Hbc. unfold flip in *. by etrans. Qed.

Lemma key_le_score (a b : key) : key_le a b -> a.1.1 <= b.1.1.
Proof.
  destruct a as [[s1 w1] n1], b as [[s2 w2] n2]. rewrite key_le_spec. cbn. lia.
Qed.

Lemma first_positive_none (l : list key) :
  Forall (fun k : key => k.1.1 <= 0) l -> first_positive l = None.
Proof.
  induction 1 as [|[[s wd] n] l Hs _ IH]; [done|]. cbn in *.
  destruct (0 <? s) eqn:Hpos; [apply Z.ltb_lt in Hpos; lia | done].
Qed.

Lemma key_of_name (w : sysfs) (i : string) : (key_of w i).2 = i.
Proof. reflexivity. Qed.

(** The score of an interface, from the files of sysfs. *)
Lemma key_of_score (w : sysfs) (i : string) :
  (key_of w i).1.1 =
    (if up (_iface_info w i) && carrier (_iface_info w i) then 2
     else if up (_iface_info w i) then 1 else 0)
    + (if wireless (_iface_info w i) then 0 else 1) /\
  (key_of w i).1.2 = negb (wireless (_iface_info w i)).
Proof.
  unfold key_of, score. cbn [fst snd]. split; [|done].
  by destruct (wireless (_iface_info w i)).
Qed.

(** One ranking pass of [_pick_iface] over the interfaces [l]. *)
Lemma ranking_pass (w : sysfs) (l : list string) :
  ((exists m, m ∈ l /\ 0 < (key_of w m).1.1) ->
     exists n, first_positive (sort_reverse (key_of w <$> l)) = Some n /\
       n ∈ l /\ 0 < (key_of w n).1.1 /\
       forall m, m ∈ l -> key_le (key_of w m) (key_of w n)) /\
  ((forall m, m ∈ l -> (key_of w m).1.1 <= 0) ->
     first_positive (sort_reverse (key_of w <$> l)) = None).
Proof.
  pose proof (StronglySorted_merge_sort (flip key_le) (key_of w <$> l)) as Hsorted.
  pose proof (merge_sort_Permutation (flip key_le) (key_of w <$> l)) as Hperm.
  fold (sort_reverse (key_of w <$> l)) in Hsorted, Hperm.
  split.
  - intros (m0 & Hm0 & Hpos).
    destruct (sort_reverse (key_of w <$> l)) as [|h sorted] eqn:Hs.
    { apply Permutation_nil_l in Hperm. by destruct l; [apply elem_of_nil in Hm0|]. }
    assert (h ∈ key_of w <$> l) as Hh by (rewrite <- Hperm; left).
    apply list_elem_of_fmap in Hh as (n & -> & Hn).
    assert (forall m, m ∈ l -> key_le (key_of w m) (key_of w n)) as Hmax.
    { intros m Hm.
      assert (key_of w m ∈ key_of w n :: sorted) as Hin
        by (rewrite Hperm; by apply list_elem_of_fmap_2).
      apply elem_of_cons in Hin as [-> | Hin]; [by destruct (total key_le (key_of w n) (key_of w n))|].
      apply StronglySorted_inv in Hsorted as [_ Hall].
      rewrite Forall_forall in Hall. by apply Hall. }
    assert (0 < (key_of w n).1.1) as Hnpos.
    { pose proof (key_le_score _ _ (Hmax m0 Hm0)). lia. }
    exists n. split_and!; try done.
    destruct (key_of w n) as [[s wd] nm] eqn:Hk. cbn in Hnpos |- *.
    apply Z.ltb_lt in Hnpos. rewrite Hnpos.
    by rewrite <- (key_of_name w n), Hk.
  - intros Hall. apply first_positive_none. rewrite Forall_forall.
    intros k Hk. rewrite Hperm in Hk.
    apply list_elem_of_fmap in Hk as (m & -> & Hm). by apply Hall.
Qed.

Lemma StronglySorted_filter_keeps {A} (R : relation A) (P : A -> Prop)
    `{forall x, Decision (P x)} (l : list A) :
  StronglySorted R l -> StronglySorted R (filter P l).
Proof.
  induction 1 as [|x l Hl IH Hx]; [constructor|].
  rewrite filter_cons. destruct (decide (P x)); [|done].
  constructor; [done|]. rewrite Forall_forall in Hx |- *.
  intros y Hy. apply Hx. by apply list_elem_of_filter in Hy as [_ ?].
Qed.

(** The candidates: the names of [/sys/class/net] other than [lo], in
    alphabetical order. *)
Lemma candidates_sorted (w : sysfs) :
  StronglySorted String.le (_list_candidate_ifaces w) /\
  forall i, i ∈ _list_candidate_ifaces w <->
            i <> "lo"%string /\ exists l, listdir w = Some l /\ i ∈ l.
Proof.
  unfold _list_candidate_ifaces. destruct (listdir w) as [l|].
  - split.
    + apply StronglySorted_filter_keeps, StronglySorted_merge_sort; apply _.
    + intros i. rewrite list_elem_of_filter, merge_sort_Permutation.
      split; [intros [? ?]; eauto | by intros [? (? & [= <-] & ?)]].
  - split; [constructor|]. intros i.
    split; [by intros ?%elem_of_nil | by intros [_ (? & ? & _)]].
Qed.

(** C6, as stated, fails: two wired default-route interfaces, both up with
    carrier, tie at score 3; the routing table lists [eth0] first, the
    picker returns [eth1]. *)
Lemma pick_iface_tie_not_route_order :
  let w := {| route_devs := ["eth0"; "eth1"]%string;
              listdir := Some ["eth0"; "eth1"; "lo"]%string;
              is_wireless := fun _ => false;
              operstate := fun _ => Some "up"%string;
              carrier_file := fun _ => Some "1"%string |} in
  _default_route_ifaces w = ["eth0"; "eth1"]%string /\
  (key_of w "eth0").1.1 = 3 /\ (key_of w "eth1").1.1 = 3 /\
  _pick_iface w None = Some "eth1"%string /\
  _pick_iface w None <> head (_default_route_ifaces w).
Proof. cbv zeta. split_and!; [done | done | done | by vm_compute | by vm_compute]. Qed.

(** C6, amended.  Without an override, the picker scores an interface 2
    when up with carrier, 1 when up only, 0 when down, plus 1 when wired.
    If some default-route interface scores above 0 it returns the
    default-route interface whose tuple (score, wired, name) is greatest:
    the highest score, a tie going to the wired one and then to the greater
    name in string order.  If none does and some interface of
    [/sys/class/net] other than [lo] scores above 0, it returns the one
    with the greatest tuple among those.  Otherwise it returns the first of
    these interfaces in alphabetical order, or nothing when there is none.
    (An override, when one is configured, is returned as it is.) *)
Theorem pick_iface_greatest_tuple (w : sysfs) :
  let routed := _default_route_ifaces w in
  let cands := _list_candidate_ifaces w in
  let greatest (l : list string) (n : string) :=
    n ∈ l /\ 0 < (key_of w n).1.1 /\
    forall m, m ∈ l ->
      (key_of w m).1.1 < (key_of w n).1.1 \/
      ((key_of w m).1.1 = (key_of w n).1.1 /\
       (((key_of w m).1.2 = false /\ (key_of w n).1.2 = true) \/
        ((key_of w m).1.2 = (key_of w n).1.2 /\ String.le m n))) in
  (forall i,
     (key_of w i).1.1 =
       (if up (_iface_info w i) && carrier (_iface_info w i) then 2
        else if up (_iface_info w i) then 1 else 0)
       + (if wireless (_iface_info w i) then 0 else 1) /\
     (key_of w i).1.2 = negb (wireless (_iface_info w i))) /\
  ((exists m, m ∈ routed /\ 0 < (key_of w m).1.1) ->
     exists n, _pick_iface w None = Some n /\ greatest routed n) /\
  ((forall m, m ∈ routed -> (key_of w m).1.1 <= 0) ->
   (exists m, m ∈ cands /\ 0 < (key_of w m).1.1) ->
     exists n, _pick_iface w None = Some n /\ greatest cands n) /\
  ((forall m, m ∈ routed -> (key_of w m).1.1 <= 0) ->
   (forall m, m ∈ cands -> (key_of w m).1.1 <= 0) ->
     _pick_iface w None = head cands) /\
  StronglySorted String.le cands /\
  (forall i, i ∈ cands <-> i <> "lo"%string /\ exists l, listdir w = Some l /\ i ∈ l) /\
  (forall p : string, p <> ""%string -> _pick_iface w (Some p) = Some p).
Proof.
  cbv zeta.
  assert (forall (l : list string) (n : string),
    (forall m, m ∈ l -> key_le (key_of w m) (key_of w n)) ->
    forall m, m ∈ l ->
      (key_of w m).1.1 < (key_of w n).1.1 \/
      ((key_of w m).1.1 = (key_of w n).1.1 /\
       (((key_of w m).1.2 = false /\ (key_of w n).1.2 = true) \/
        ((key_of w m).1.2 = (key_of w n).1.2 /\ String.le m n)))) as Hexplicit.
  { intros l n Hmax m Hm. specialize (Hmax m Hm).
    change (String.le m n) with (String.le (key_of w m).2 (key_of w n).2).
    destruct (key_of w m) as [[s1 w1] n1], (key_of w n) as [[s2 w2] n2].
    by apply key_le_spec in Hmax. }
  destruct (ranking_pass w (_default_route_ifaces w)) as [Hr1 Hr0].
  destruct (ranking_pass w (_list_candidate_ifaces w)) as [Hc1 Hc0].
  split_and!.
  - apply key_of_score.
  - intros Hex. destruct (Hr1 Hex) as (n & Hfp & Hn & Hpos & Hmax).
    exists n. unfold _pick_iface. cbn [live]. rewrite Hfp. eauto 10.
  - intros Hall Hex. destruct (Hc1 Hex) as (n & Hfp & Hn & Hpos & Hmax).
    exists n. unfold _pick_iface. cbn [live]. rewrite (Hr0 Hall), Hfp. eauto 10.
  - intros Hall1 Hall2. unfold _pick_iface. cbn [live].
    by rewrite (Hr0 Hall1), (Hc0 Hall2).
  - apply candidates_sorted.
  - apply candidates_sorted.
  - intros p Hp. unfold _pick_iface, live. by rewrite bool_decide_false.
Qed.

Lemma pick_iface_greatest_tuple_witness :
  let w := {| route_devs := ["wlan0"; "eth0"; "eth1"]%string;
              listdir := Some ["wlan0"; "eth0"; "eth1"; "lo"]%string;
              is_wireless := fun i => bool_decide (i = "wlan0"%string);
              operstate := fun _ => Some "up"%string;
              carrier_file := fun _ => Some "1"%string |} in
  exists n, _pick_iface w None = Some n /\ n ∈ _default_route_ifaces w /\
            0 < (key_of w n).1.1.
Proof.
  cbv zeta.
  destruct (pick_iface_greatest_tuple
    {| route_devs := ["wlan0"; "eth0"; "eth1"]%string;
       listdir := Some ["wlan0"; "eth0"; "eth1"; "lo"]%string;
       is_wireless := fun i => bool_decide (i = "wlan0"%string);
       operstate := fun _ => Some "up"%string;
       carrier_file := fun _ => Some "1"%string |})
    as (_ & Hfirst & _).
  destruct Hfirst as (n & Hpick & Hin & Hpos & _).
  - exists "eth0"%string. split; [vm_compute; by right; left | vm_compute; reflexivity].
  - exists n. split; [exact Hpick|]. split; [exact Hin | exact Hpos].
Defined.

End PickerFacts.

(** ** Rate meter *)

Section MeterFacts.
Import Py Net.

Lemma live_Some (o : option string) (i : string) : live o = Some i -> o = Some i.
Proof.
  unfold live. destruct o as [s|]; [|done].
  case_bool_decide; [done | by intros [= <-]].
Qed.

(** [_prime] on a live interface whose counters can be read. *)
Lemma prime_readable (w : sysfs) (p : procfs) (m : meter) (i : string) (c : Z * Z) :
  live (iface m) = Some i ->
  _parse_netdev (netdev p (reads m)) i = Some c ->
  _prime w p m = {| iface := iface m; base := Some (c.1, c.2, clock p (ticks m));
                    reads := S (reads m); ticks := S (ticks m) |}.
Proof. intros Hi Hc. unfold _prime, sample. by rewrite Hi, Hc. Qed.

(** The switch of [maybe_repick] to a new interface with readable counters. *)
Lemma repick_switches (w : sysfs) (p : procfs) (m : meter) (i new : string) (c0 : Z * Z) :
  live (iface m) = Some i -> gone (_iface_info w i) = true ->
  live (_pick_iface w None) = Some new -> new <> i ->
  _parse_netdev (netdev p (reads m)) new = Some c0 ->
  maybe_repick w p m
    = {| iface := Some new; base := Some (c0.1, c0.2, clock p (ticks m));
         reads := S (reads m); ticks := S (ticks m) |}.
Proof.
  intros Hi Hgone Hnew Hne Hc0. unfold maybe_repick. rewrite Hi, Hgone, Hnew.
  rewrite bool_decide_true by done.
  assert (live (Some new) = Some new) as Hlive.
  { pose proof (live_Some _ _ Hnew) as Hpick. by rewrite Hpick in Hnew. }
  by rewrite (prime_readable w p _ new c0).
Qed.

(** What a call of [rates_ks] returns.  When the current interface is
    down, or wireless without carrier, the call asks the picker again; if
    the picker names another interface whose counters can be read, the
    meter switches to it, takes a baseline from it, and the same call goes
    on to return the rate between that baseline and a second sample taken
    right after it.  A call returns [(None, None)] exactly when, after the
    re-selection, no interface is chosen, the counters of the chosen one
    cannot be read, or no baseline is stored; a call that finds readable
    counters but no baseline only stores one.  Every rate returned is
    computed from the stored baseline, whichever interface it was taken
    from, and the sample of the current interface. *)
Lemma rates_ks_outcomes (w : sysfs) (p : procfs) (m : meter) :
  let m1 := maybe_repick w p m in
  (forall (i new : string) (c0 c1 : Z * Z),
      live (iface m) = Some i -> gone (_iface_info w i) = true ->
      live (_pick_iface w None) = Some new -> new <> i ->
      _parse_netdev (netdev p (reads m)) new = Some c0 ->
      _parse_netdev (netdev p (S (reads m))) new = Some c1 ->
      let t0 := clock p (ticks m) in
      let t1 := clock p (S (ticks m)) in
      rates_ks w p m
        = (Some (rate_of c0.1 c1.1 t0 t1, rate_of c0.2 c1.2 t0 t1),
           {| iface := Some new; base := Some (c1.1, c1.2, t1);
              reads := S (S (reads m)); ticks := S (S (ticks m)) |})) /\
  ((rates_ks w p m).1 = None <->
     match live (iface m1) with
     | None => True
     | Some j => _parse_netdev (netdev p (reads m1)) j = None \/ base m1 = None
     end) /\
  (forall (j : string) (c c' : Z * Z),
      live (iface m1) = Some j -> base m1 = None ->
      _parse_netdev (netdev p (reads m1)) j = Some c ->
      _parse_netdev (netdev p (S (reads m1))) j = Some c' ->
      rates_ks w p m
        = (None,
           {| iface := iface m1; base := Some (c'.1, c'.2, clock p (ticks m1));
              reads := S (S (reads m1)); ticks := S (ticks m1) |})) /\
  (forall rx tx : Q,
      (rates_ks w p m).1 = Some (rx, tx) ->
      exists (j : string) (c0 c1 : Z * Z) (t0 : Q),
        live (iface m1) = Some j /\
        base m1 = Some (c0.1, c0.2, t0) /\
        _parse_netdev (netdev p (reads m1)) j = Some c1 /\
        rx = rate_of c0.1 c1.1 t0 (clock p (ticks m1)) /\
        tx = rate_of c0.2 c1.2 t0 (clock p (ticks m1)) /\
        (0 <= rx)%Q /\ (0 <= tx)%Q).
Proof.
  cbv zeta. split_and!.
  - intros i new c0 [rx1 tx1] Hi Hgone Hnew Hne Hc0 Hc1.
    unfold rates_ks. rewrite (repick_switches w p m i new c0) by done.
    cbn [iface]. assert (live (Some new) = Some new) as ->.
    { pose proof (live_Some _ _ Hnew) as Hpick. by rewrite Hpick in Hnew. }
    unfold sample. cbn [reads iface base ticks]. by rewrite Hc1.
  - unfold rates_ks. destruct (live (iface (maybe_repick w p m))) as [j|]; [|done].
    unfold sample. cbn [base].
    destruct (_parse_netdev _ j) as [[rx1 tx1]|]; [|by split; eauto].
    destruct (base (maybe_repick w p m)) as [[[rx0 tx0] t0]|]; cbn.
    + split; [done | by intros [? | ?]].
    + split; eauto.
  - intros j [rx tx] [rx' tx'] Hj Hbase Hc Hc'.
    unfold rates_ks. rewrite Hj. unfold sample. rewrite Hc. cbn [base]. rewrite Hbase.
    f_equal. by rewrite (prime_readable w p _ j (rx', tx')).
  - intros rx tx. unfold rates_ks.
    destruct (live (iface (maybe_repick w p m))) as [j|]; [|done].
    unfold sample. cbn [base ticks].
    destruct (_parse_netdev _ j) as [[rx1 tx1]|] eqn:Hc1; [|done].
    destruct (base (maybe_repick w p m)) as [[[rx0 tx0] t0]|] eqn:Hbase; [|done].
    cbn. intros [= <- <-].
    exists j, (rx0, tx0), (rx1, tx1), t0. split_and!; try done; apply Q.le_max_l.
Qed.

(** C7.  The code at two inputs on which it does not do what the claim
    says.

    First input: the meter starts on [eth0] and reports a rate; [eth0]
    then goes down.  The next call re-selects [wlan0], and instead of
    returning [(None, None)] it already returns a rate: [maybe_repick]
    primes the new interface and [rates_ks] goes on to sample it again,
    whereas the sibling path of [rates_ks] for a missing baseline primes
    and returns [(None, None)].

    Second input: the same, but the counters of [wlan0] cannot be read
    while the meter switches to it.  The call returns [(None, None)], and
    the baseline taken from [eth0] (1024 bytes received, at time 1) stays
    stored beside the new interface name.  The next call reads [wlan0]
    (12168 bytes received) and returns a rate computed from that sample
    and the baseline of [eth0]: 11144 bytes over one second, 10.8828125
    KB/s, a rate from samples of two different interfaces. *)
Theorem rates_ks_mixes_interfaces_after_repick :
  (let m0 := NetMeter (sysfs_example "up") procfs_example None in
   let '(r1, m1) := rates_ks (sysfs_example "up") procfs_example m0 in
   let '(r2, m2) := rates_ks (sysfs_example "down") procfs_example m1 in
   iface m0 = Some "eth0"%string /\
   iface m1 = Some "eth0"%string /\ r1 <> None /\
   gone (_iface_info (sysfs_example "down") "eth0") = true /\
   iface m2 = Some "wlan0"%string /\
   r2 <> None /\
   match r2 with
   | Some (rx, tx) => (rx == 1)%Q /\ (tx == 0)%Q
   | None => False
   end) /\
  (let m0 := NetMeter (sysfs_example "up") procfs_late_wlan0 None in
   let '(r1, m1) := rates_ks (sysfs_example "up") procfs_late_wlan0 m0 in
   let '(r2, m2) := rates_ks (sysfs_example "down") procfs_late_wlan0 m1 in
   let '(r3, m3) := rates_ks (sysfs_example "down") procfs_late_wlan0 m2 in
   iface m1 = Some "eth0"%string /\ base m1 = Some (1024, 0, 1%Q) /\
   _parse_netdev (netdev procfs_late_wlan0 (reads m1)) "eth0" = Some (2048, 0) /\
   gone (_iface_info (sysfs_example "down") "eth0") = true /\
   r2 = None /\
   iface m2 = Some "wlan0"%string /\ base m2 = Some (1024, 0, 1%Q) /\
   gone (_iface_info (sysfs_example "down") "wlan0") = false /\
   _parse_netdev (netdev procfs_late_wlan0 (reads m2)) "wlan0" = Some (12168, 7) /\
   iface m3 = Some "wlan0"%string /\
   match r3 with
   | Some (rx, tx) =>
       rx = rate_of 1024 12168 1 2 /\ (rx == 10.8828125)%Q /\
       tx = rate_of 0 7 1 2
   | None => False
   end).
Proof. vm_compute. split_and!; done. Qed.

End MeterFacts.

(** ** Rate formatting *)

Section FmtFacts.
Import Py Fmt.

Lemma Qlt_bool_iff (x y : Q) : Qlt_bool x y = true <-> (x < y)%Q.
Proof.
  unfold Qlt_bool. rewrite negb_true_iff. split.
  - intros Hb. apply Qnot_le_lt. intros Hle%Qle_bool_iff. congruence.
  - intros Hlt. destruct (Qle_bool y x) eqn:Hb; [|done].
    apply Qle_bool_iff in Hb. by apply Qlt_not_le in Hlt.
Qed.

Lemma Qlt_bool_false (x y : Q) : Qlt_bool x y = false <-> (y <= x)%Q.
Proof. unfold Qlt_bool. rewrite negb_false_iff. apply Qle_bool_iff. Qed.

(** [round] is within a half of its argument. *)
Lemma round_close (y : Q) :
  (inject_Z (round y) - (1 # 2) <= y)%Q /\ (y <= inject_Z (round y) + (1 # 2))%Q.
Proof.
  unfold round. pose proof (Qfloor_le y) as Hlo. pose proof (Qlt_floor y) as Hhi.
  rewrite inject_Z_plus in Hhi. change (inject_Z 1) with 1%Q in Hhi.
  destruct (Qcompare_spec (y - inject_Z (Qfloor y)) (1 # 2)) as [He | Hl | Hg];
    [destruct (Z.even (Qfloor y))|..];
    rewrite ?inject_Z_plus; change (inject_Z 1) with 1%Q; split; lra.
Qed.

Lemma append_assoc (s1 s2 s3 : string) : (s1 +:+ s2) +:+ s3 = s1 +:+ (s2 +:+ s3).
Proof.
  induction s1 as [|c s1 IH]; [done|].
  change (String c ((s1 +:+ s2) +:+ s3) = String c (s1 +:+ s2 +:+ s3)). by f_equal.
Qed.

Lemma pretty_digit (d : N) : (d < 10)%N -> String.length (pretty d) = 1%nat.
Proof.
  intros Hd.
  assert (d ∈ [0; 1; 2; 3; 4; 5; 6; 7; 8; 9]%N) as Hin.
  { rewrite !elem_of_cons. lia. }
  repeat (apply elem_of_cons in Hin as [-> | Hin]; [reflexivity|]).
  by apply elem_of_nil in Hin.
Qed.

(** [fmt1] of a non-negative number: an integer part, a point, one digit,
    together the number rounded to tenths. *)
Lemma fmt1_one_decimal (x : Q) :
  (0 <= x)%Q ->
  exists ip d : N,
    (d < 10)%N /\ fmt1 x = pretty ip +:+ "." +:+ pretty d /\
    String.length (pretty d) = 1%nat /\
    (inject_Z (Z.of_N (10 * ip + d)) - (1 # 2) <= x * 10)%Q /\
    (x * 10 <= inject_Z (Z.of_N (10 * ip + d)) + (1 # 2))%Q.
Proof.
  intros Hx. unfold fmt1.
  assert (Qlt_bool x 0 = false) as -> by (by apply Qlt_bool_false).
  assert (round (Qabs x * 10) = round (x * 10)) as ->.
  { apply round_comp. by rewrite Qabs_pos. }
  set (n := round (x * 10)).
  assert (0 <= n) as Hn by (apply round_nonneg; lra).
  pose proof (Z.mod_pos_bound n 10 ltac:(lia)) as Hmod.
  pose proof (Z.div_pos n 10 Hn ltac:(lia)) as Hdiv.
  exists (Z.to_N (n `div` 10)), (Z.to_N (n `mod` 10)).
  assert (Z.of_N (10 * Z.to_N (n `div` 10) + Z.to_N (n `mod` 10)) = n) as ->.
  { rewrite N2Z.inj_add, N2Z.inj_mul, !Z2N.id by lia. symmetry. apply Z.div_mod. lia. }
  split_and!; [lia | done | apply pretty_digit; lia | apply round_close | apply round_close].
Qed.

(** C9.  A non-negative rate is printed with one decimal place and a unit
    chosen by its size: below 1024 the value itself with " K/s"; from 1024
    up to, not including, 1024 * 1024 the value divided by 1024 with
    " M/s"; from there on the value divided by 1024 twice with " G/s".  The
    number printed is an integer part, a point and one digit, the value
    rounded to tenths.  In particular 512 gives "512.0 K/s", 2048 gives
    "2.0 M/s", 2097152 gives "2.0 G/s" and 1024 gives "1.0 M/s". *)
Theorem fmt_rate_auto_scales (r : Q) :
  (0 <= r)%Q ->
  ((r < 1024)%Q -> _fmt_rate (Some r) = fmt1 r +:+ " K/s") /\
  ((1024 <= r)%Q -> (r < 1024 * 1024)%Q ->
     _fmt_rate (Some r) = fmt1 (r / 1024) +:+ " M/s") /\
  ((1024 * 1024 <= r)%Q -> _fmt_rate (Some r) = fmt1 (r / 1024 / 1024) +:+ " G/s") /\
  (exists (scaled : Q) (unit : string) (ip d : N),
      _fmt_rate (Some r) = pretty ip +:+ "." +:+ pretty d +:+ unit /\
      (d < 10)%N /\ String.length (pretty d) = 1%nat /\
      (inject_Z (Z.of_N (10 * ip + d)) - (1 # 2) <= scaled * 10)%Q /\
      (scaled * 10 <= inject_Z (Z.of_N (10 * ip + d)) + (1 # 2))%Q /\
      ((scaled = r /\ unit = " K/s") \/ (scaled = (r / 1024)%Q /\ unit = " M/s") \/
       (scaled = (r / 1024 / 1024)%Q /\ unit = " G/s"))) /\
  _fmt_rate (Some 512%Q) = "512.0 K/s" /\
  _fmt_rate (Some 2048%Q) = "2.0 M/s" /\
  _fmt_rate (Some 2097152%Q) = "2.0 G/s" /\
  _fmt_rate (Some 1024%Q) = "1.0 M/s".
Proof.
  intros Hr.
  assert ((r < 1024)%Q -> _fmt_rate (Some r) = fmt1 r +:+ " K/s") as HK.
  { intros Hlt. unfold _fmt_rate. by rewrite (proj2 (Qlt_bool_iff r 1024) Hlt). }
  assert ((1024 <= r)%Q -> (r < 1024 * 1024)%Q ->
          _fmt_rate (Some r) = fmt1 (r / 1024) +:+ " M/s") as HM.
  { intros Hge Hlt. unfold _fmt_rate.
    rewrite (proj2 (Qlt_bool_false r 1024) Hge).
    assert (r / 1024 < 1024)%Q as Hm by (apply Qlt_shift_div_r; [done | lra]).
    by rewrite (proj2 (Qlt_bool_iff _ _) Hm). }
  assert ((1024 * 1024 <= r)%Q ->
          _fmt_rate (Some r) = fmt1 (r / 1024 / 1024) +:+ " G/s") as HG.
  { intros Hge. unfold _fmt_rate.
    assert (1024 <= r)%Q as Hge1 by lra.
    rewrite (proj2 (Qlt_bool_false r 1024) Hge1).
    assert (1024 <= r / 1024)%Q as Hm by (apply Qle_shift_div_l; [done | lra]).
    by rewrite (proj2 (Qlt_bool_false _ _) Hm). }
  split_and!; try done; try (vm_compute; reflexivity).
  assert (forall (x : Q) (u : string), (0 <= x)%Q ->
    exists ip d : N,
      fmt1 x +:+ u = pretty ip +:+ "." +:+ pretty d +:+ u /\
      (d < 10)%N /\ String.length (pretty d) = 1%nat /\
      (inject_Z (Z.of_N (10 * ip + d)) - (1 # 2) <= x * 10)%Q /\
      (x * 10 <= inject_Z (Z.of_N (10 * ip + d)) + (1 # 2))%Q) as Hshape.
  { intros x u Hx. destruct (fmt1_one_decimal x Hx) as (ip & d & Hd & -> & Hlen & Hlo & Hhi).
    exists ip, d. split_and!; try done.
    by rewrite !append_assoc. }
  destruct (Qlt_le_dec r 1024) as [Hlt | Hge].
  - destruct (Hshape r " K/s"%string Hr) as (ip & d & Heq & Hrest).
    exists r, " K/s"%string, ip, d. rewrite (HK Hlt). split_and!; try tauto; auto.
  - destruct (Qlt_le_dec r (1024 * 1024)) as [Hlt | Hge2].
    + assert (0 <= r / 1024)%Q as Hpos by (apply Qle_shift_div_l; [done | lra]).
      destruct (Hshape (r / 1024)%Q " M/s"%string Hpos) as (ip & d & Heq & Hrest).
      exists (r / 1024)%Q, " M/s"%string, ip, d. rewrite (HM Hge Hlt).
      split_and!; try tauto; auto.
    + assert (0 <= r / 1024 / 1024)%Q as Hpos.
      { apply Qle_shift_div_l; [done|]. apply Qle_shift_div_l; [done | lra]. }
      destruct (Hshape (r / 1024 / 1024)%Q " G/s"%string Hpos) as (ip & d & Heq & Hrest).
      exists (r / 1024 / 1024)%Q, " G/s"%string, ip, d. rewrite (HG Hge2).
      split_and!; try tauto; auto.
Qed.

Lemma fmt_rate_auto_scales_witness :
  _fmt_rate (Some 1536%Q) = fmt1 (1536 / 1024) +:+ " M/s".
Proof.
  destruct (fmt_rate_auto_scales 1536) as (_ & HM & _); [discriminate|].
  apply HM; [discriminate | reflexivity].
Defined.

End FmtFacts.

(** * Further properties of the code *)

(** ** Frame codec and serial line *)

Section CodecMore.
Import Py Serial Codec Tiles Proto.

Lemma read_lengths (n : nat) :
  forall s : stream,
    (length (read n s).2 <= length s)%nat /\
    (length s <= length (read n s).2 + n)%nat /\
    (length (read n s).1 <= n)%nat /\
    ((0 < n)%nat -> s <> [] -> (length (read n s).2 < length s)%nat).
Proof.
  induction n as [|n IH]; intros s; cbn [read].
  { cbn [fst snd length]. split_and!; try lia. }
  destruct s as [|[b|] s].
  - cbn [fst snd length]. split_and!; try lia; by intros _ ?.
  - destruct (IH s) as (Ha & Hb & Hc & _). destruct (read n s) as [bs s'].
    cbn [fst snd length] in *. split_and!; try lia; intros _ _; lia.
  - cbn [fst snd length]. split_and!; try lia; intros _ _; lia.
Qed.

(** X1.  A call of [read_enq] takes at least one and at most seven items
    off a line that has any, whatever they are, so a loop that keeps
    calling it always advances; on a silent line it returns [None] and
    takes nothing. *)
Theorem read_enq_advances (s : stream) :
  (length (read_enq s).2 <= length s)%nat /\
  (length s <= length (read_enq s).2 + 7)%nat /\
  (s <> [] -> (length (read_enq s).2 < length s)%nat) /\
  read_enq [] = (None, []).
Proof.
  cut ((length (read_enq s).2 <= length s)%nat /\
       (length s <= length (read_enq s).2 + 7)%nat /\
       (s <> [] -> (length (read_enq s).2 < length s)%nat));
    [intros (? & ? & ?); by split_and!|].
  unfold read_enq.
  destruct (read_lengths 1 s) as (A1 & B1 & _ & D1).
  destruct (read 1 s) as [h1 s1]. cbn [fst snd] in *.
  assert (s <> [] -> (length s1 < length s)%nat) as Hs by (intros ?; apply D1; [lia | done]).
  clear D1.
  destruct (negb (bool_decide (h1 = [170]))); cbn [snd]; [split_and!; [lia | lia | done]|].
  destruct (read_lengths 1 s1) as (A2 & B2 & _ & _).
  destruct (read 1 s1) as [h2 s2]. cbn [fst snd] in *.
  destruct (negb (bool_decide (h2 = [5]))); cbn [snd];
    [split_and!; [lia | lia | intros Hne; specialize (Hs Hne); lia]|].
  destruct (read_lengths 1 s2) as (A3 & B3 & _ & _).
  destruct (read 1 s2) as [b3 s3]. cbn [fst snd] in *.
  destruct b3 as [|b b3]; cbn [snd];
    [split_and!; [lia | lia | intros Hne; specialize (Hs Hne); lia]|].
  destruct (read_lengths 4 s3) as (A4 & B4 & _ & _).
  destruct (read 4 s3) as [tr s4]. cbn [fst snd] in *.
  destruct (negb (bool_decide (tr = TRAILER))); cbn [snd];
    split_and!; try lia; intros Hne; specialize (Hs Hne); lia.
Qed.

Lemma read_enq_garbage_byte (b : Z) (s : stream) :
  b <> 0xAA -> read_enq (Some b :: s) = (None, s).
Proof.
  intros Hb. unfold read_enq. cbn [read].
  rewrite bool_decide_false by (intros [= ?]; done). done.
Qed.

Lemma steady_loop_add (e : env) (c : config) (n m : nat) :
  forall (idx : Z) (st : state),
    steady_loop (n + m) e c idx st
      = steady_loop m e c (steady_loop n e c idx st).1 (steady_loop n e c idx st).2.
Proof.
  induction n as [|n IH]; intros idx st; [done|].
  cbn [Nat.add steady_loop]. destruct (steady_step e c idx st) as [idx' st']. apply IH.
Qed.

Lemma steady_loop_skips_garbage (e : env) (c : config) (idx : Z) (g : list Z) :
  Forall (fun b => b <> 0xAA) g ->
  forall (tail : stream) (st : state),
    steady_loop (length g) e c idx (with_ser (supplies g tail) st) = (idx, with_ser tail st).
Proof.
  induction 1 as [|b g Hb _ IH]; intros tail st; [done|].
  cbn [length steady_loop]. unfold steady_step, poll. cbn [ser with_ser supplies fmap list_fmap app].
  change ((Some <$> (b :: g)) ++ tail) with (Some b :: supplies g tail).
  rewrite read_enq_garbage_byte by done. exact (IH tail st).
Qed.

(** X2.  Bytes other than [AA] in front of a poll frame cost the steady
    state one iteration each and no reply; the iteration after them answers
    the poll exactly as if it had come first. *)
Theorem steady_loop_resynchronises (e : env) (c : config) (idx seq : Z) (g : list Z)
    (rest : stream) (st : state) :
  Forall (fun b => b <> 0xAA) g ->
  steady_loop (length g + 1) e c idx (with_ser (supplies (g ++ poll_frame seq) rest) st)
    = steady_step e c idx (with_ser (supplies (poll_frame seq) rest) st).
Proof.
  intros Hg. rewrite steady_loop_add.
  assert (supplies (g ++ poll_frame seq) rest = supplies g (supplies (poll_frame seq) rest))
    as -> by (unfold supplies; by rewrite fmap_app, <- app_assoc).
  rewrite steady_loop_skips_garbage by done. cbn [fst snd steady_loop].
  by destruct (steady_step e c idx _).
Qed.

Lemma steady_loop_resynchronises_witness :
  writes (out (steady_loop 4 slow_clock_env default_config 0
                 (with_ser (supplies ([0x00; 0x05; 0xCC] ++ poll_frame 0x37) [])
                    (init []))).2)
    = [build_reply CPU (seq_for CPU) []].
Proof.
  assert (Forall (fun b => b <> 0xAA) [0x00; 0x05; 0xCC]) as Hg
    by (repeat constructor; discriminate).
  exact (f_equal (fun r : Z * state => writes (out r.2))
           (steady_loop_resynchronises slow_clock_env default_config 0 0x37
              [0x00; 0x05; 0xCC] [] (init []) Hg)).
Defined.

(** X3.  A timeout anywhere inside a poll frame, before its first byte or
    after any of its first six, makes [read_enq] return [None]; the bytes
    read so far are dropped and reading resumes after the timeout. *)
Theorem read_enq_timeout_inside_frame (seq : Z) (i : nat) (rest : stream) :
  (i < 7)%nat ->
  read_enq (supplies (take i (poll_frame seq)) (None :: rest)) = (None, rest).
Proof.
  intros Hi. do 7 (destruct i as [|i]; [reflexivity|]). lia.
Qed.

Lemma read_enq_timeout_inside_frame_witness :
  read_enq (supplies (take 5 (poll_frame 0x31)) [None; Some 0xAA]) = (None, [Some 0xAA]).
Proof. apply (read_enq_timeout_inside_frame 0x31 5 [Some 0xAA]). lia. Defined.

(** X4.  [read_enq] accepts nothing but a poll frame: when it returns a
    byte [b], the input began with [AA 05 b CC 33 C3 3C], all seven bytes
    in time, and what is left is what followed the frame. *)
Theorem read_enq_accepts_only_frames (s s' : stream) (b : Z) :
  read_enq s = (Some b, s') -> s = supplies (poll_frame b) s'.
Proof.
  unfold read_enq, TRAILER, poll_frame, supplies.
  destruct s as [|[x1|] s]; cbn [read]; [done| |done].
  case_bool_decide as E1; cbn [negb]; [|done].
  destruct s as [|[x2|] s]; cbn [read]; [done| |done].
  case_bool_decide as E2; cbn [negb]; [|done].
  destruct s as [|[x3|] s]; cbn [read]; [done| |done].
  destruct s as [|[x4|] s]; cbn [read];
    [by case_bool_decide | | by case_bool_decide].
  destruct s as [|[x5|] s]; cbn [read];
    [by case_bool_decide | | by case_bool_decide].
  destruct s as [|[x6|] s]; cbn [read];
    [by case_bool_decide | | by case_bool_decide].
  destruct s as [|[x7|] s]; cbn [read];
    [by case_bool_decide | | by case_bool_decide].
  case_bool_decide as E3; cbn [negb]; [|done].
  intros [= <- <-]. by simplify_eq/=.
Qed.

Lemma read_enq_accepts_only_frames_witness :
  supplies [0xAA; 0x05; 0x39; 0xCC; 0x33; 0xC3; 0x3C; 0x01] []
    = supplies (poll_frame 0x39) [Some 0x01].
Proof.
  apply (read_enq_accepts_only_frames
           (supplies [0xAA; 0x05; 0x39; 0xCC; 0x33; 0xC3; 0x3C; 0x01] []) [Some 0x01] 0x39).
  reflexivity.
Defined.

Lemma encode_latin1_app (a b : list Z) :
  encode_latin1 (a ++ b) = encode_latin1 a ++ encode_latin1 b.
Proof. apply filter_app. Qed.

Lemma encode_latin1_id (txt : list Z) :
  Forall (fun ch => ch < 256) txt -> encode_latin1 txt = txt.
Proof.
  unfold encode_latin1. induction 1 as [|ch l Hch _ IH]; [done|].
  rewrite filter_cons_True by done. by rewrite IH.
Qed.

Lemma encode_latin1_drops (a b : list Z) (ch : Z) :
  256 <= ch -> encode_latin1 (a ++ ch :: b) = encode_latin1 (a ++ b).
Proof.
  intros Hch. rewrite !encode_latin1_app. f_equal. unfold encode_latin1.
  by rewrite filter_cons_False by lia.
Qed.

(** X5.  A reply frame is made of bytes: with a tile id and a sequence
    value in 0..255 and a payload of code points, every element of
    [build_reply] is in 0..255.  The payload sits between the four header
    bytes and the trailer; its characters up to 255 are kept in order, a
    character above 255 is dropped without touching its neighbours, and a
    payload with none above 255 is embedded unchanged. *)
Theorem build_reply_is_bytes (id_byte seq_ascii : Z) (txt : list Z) :
  0 <= id_byte <= 255 -> 0 <= seq_ascii <= 255 -> Forall (fun ch => 0 <= ch) txt ->
  Forall (fun b => 0 <= b <= 255) (build_reply id_byte seq_ascii txt) /\
  (Forall (fun ch => ch < 256) txt ->
     build_reply id_byte seq_ascii txt = [0xAA; id_byte; 0x00; seq_ascii] ++ txt ++ TRAILER) /\
  (forall (a b : list Z) (ch : Z), txt = a ++ ch :: b -> 256 <= ch ->
     build_reply id_byte seq_ascii txt = build_reply id_byte seq_ascii (a ++ b)) /\
  length (build_reply id_byte seq_ascii txt) = (8 + length (encode_latin1 txt))%nat.
Proof.
  intros Hid Hseq Htxt. unfold build_reply. split_and!.
  - repeat (apply Forall_cons; split; [lia|]). apply Forall_app. split.
    + unfold encode_latin1. rewrite Forall_forall in Htxt |- *.
      intros ch [Hlt Hin]%list_elem_of_filter. specialize (Htxt ch Hin). lia.
    + unfold TRAILER. repeat (apply Forall_cons; split; [lia|]). constructor.
  - intros Hlat. by rewrite encode_latin1_id.
  - intros a b ch -> Hch. by rewrite encode_latin1_drops.
  - cbn [app length]. rewrite length_app. cbn. lia.
Qed.

Lemma build_reply_is_bytes_witness :
  Forall (fun b => 0 <= b <= 255) (build_reply CPU 0x32 [0x7B; 0x20AC; 0x7D]).
Proof.
  apply (build_reply_is_bytes CPU 0x32 [0x7B; 0x20AC; 0x7D]).
  - unfold CPU. lia.
  - lia.
  - repeat constructor; lia.
Defined.

(** X6.  [seq_for] answers every tile id, known or not, with the code of a
    digit from '2' to '9' (an unknown id gets '2'): the value is a byte, it
    is boot-style in the sense of [is_ascii_seq], and the ['<'] branch is
    never taken. *)
Theorem seq_for_is_digit (tile_id : Z) :
  0x32 <= seq_for tile_id <= 0x39 /\
  is_ascii_seq (seq_for tile_id) = true /\
  seq_for tile_id <> ord "<" /\
  (SEQ_FOR !! tile_id = None -> seq_for tile_id = ord "2").
Proof.
  assert (0x32 <= seq_for tile_id <= 0x39) as Hrange.
  { unfold seq_for, SEQ_FOR.
    repeat (rewrite lookup_insert; case_decide; [vm_compute; split; discriminate|]).
    rewrite lookup_empty. vm_compute. split; discriminate. }
  split_and!; [lia | lia | unfold is_ascii_seq; lia | | ].
  - change (ord "<") with 60. lia.
  - intros Hnone. unfold seq_for. by rewrite Hnone.
Qed.

End CodecMore.

(** ** Unlock attempts *)

Section ActivationMore.
Import Py Serial Codec Tiles Proto.

Lemma recent_length (e : env) (ts : list Q) :
  forall k : nat, (length (recent e k ts) <= length ts)%nat.
Proof.
  induction ts as [|t ts IH]; intros k; cbn [recent length]; [lia|].
  specialize (IH (S k)). destruct (Qle_bool _ _); cbn [length]; lia.
Qed.

Lemma rot_at_unlock_nat (k : nat) :
  UNLOCK_ROT !! (k `mod` 3)%nat = Some (rot_at UNLOCK_ROT (Z.of_nat k)).
Proof.
  rewrite <- (rot_at_lookup UNLOCK_ROT (Z.of_nat k)) by done.
  f_equal. change (Z.of_nat (length UNLOCK_ROT)) with (Z.of_nat 3).
  rewrite <- Nat2Z.inj_mod. by rewrite Nat2Z.id.
Qed.

(** The frames of the [while] of [unlock_attempt]: one per reply, for the
    tiles of the unlock rotation in turn, and no more arrival times kept
    than replies sent. *)
Lemma unlock_loop_frames (e : env) (c : config) (i : Z) (start : Q) (fuel : nat) :
  forall (l : locals) (st : state) (act : bool) (l' : locals) (st' : state),
    unlock_loop fuel e c i start l st = Some (act, l', st') ->
    exists frames : list (list Z),
      writes (out st') = writes (out st) ++ frames /\
      (length (enq_times l') <= length (enq_times l) + length frames)%nat /\
      forall (k : nat) (frm : list Z), frames !! k = Some frm ->
        exists b txt,
          frm = build_reply (rot_at UNLOCK_ROT (idx l + Z.of_nat k)).1 b txt.
Proof.
  induction fuel as [|fuel IH]; intros l st act l' st' Hrun; [done|].
  cbn [unlock_loop] in Hrun. unfold now in Hrun.
  destruct (Qlt_bool (clock e (tick st) - start) (window c)); cbn [negb] in Hrun.
  - destruct (poll _) as [[b|] st2] eqn:Hpoll;
      apply poll_fields in Hpoll as (Hout & _ & _); cbn in Hout.
    + pose proof (unlock_reply_spec e c i b l st2) as Hr. cbv zeta in Hr.
      destruct (unlock_reply e c i b l st2) as [[l1 a] st3]. cbn [fst snd] in Hr.
      destruct Hr as (Hidx & _ & Htimes & _ & Hw & _).
      assert (length (enq_times l1) <= length (enq_times l) + 1)%nat as Hlen.
      { rewrite Htimes. etrans; [apply recent_length|]. rewrite length_app. cbn. lia. }
      assert (exists frames : list (list Z),
        writes (out st') = writes (out st3) ++ frames /\
        (length (enq_times l') <= length (enq_times l1) + length frames)%nat /\
        forall (k : nat) (frm : list Z), frames !! k = Some frm ->
          exists b' txt,
            frm = build_reply (rot_at UNLOCK_ROT (idx l1 + Z.of_nat k)).1 b' txt)
        as (frames & Hfw & Hfl & Hfk).
      { destruct a; [|by eapply IH]. injection Hrun as <- <- <-.
        exists []. rewrite app_nil_r. split_and!; [done | lia | by intros []]. }
      eexists (_ :: frames). rewrite Hfw, Hw, Hout, <- app_assoc. split_and!; [done | cbn; lia |].
      intros [|k] frm Hfrm.
      * injection Hfrm as <-. rewrite Z.add_0_r. eauto.
      * destruct (Hfk k frm Hfrm) as (b' & txt & ->). exists b', txt.
        by replace (idx l + Z.of_nat (S k)) with (idx l1 + Z.of_nat k) by lia.
    + destruct (IH _ _ _ _ _ Hrun) as (frames & Hfw & Hfl & Hfk).
      exists frames. by rewrite Hfw, Hout.
  - injection Hrun as <- <- <-. exists []. cbn. rewrite app_nil_r.
    split_and!; [done | lia | by intros []].
Qed.

(** An attempt with its frames, under a clock that lets the window run out. *)
Lemma unlock_attempt_frames (e : env) (c : config) (H fuel : nat) (i : Z) (st : state) :
  elapses e c H -> (H < fuel)%nat ->
  exists (act : bool) (l' : locals) (st' : state) (frames : list (list Z)),
    unlock_attempt_locals fuel e c i st = Some (act, l', st') /\
    writes (out st') = writes (out st) ++ frames /\
    (act = true <-> dense l') /\
    boot_replies l' = boot_count frames /\
    (length (enq_times l') <= length frames)%nat /\
    forall (k : nat) (frm : list Z), frames !! k = Some frm ->
      exists b txt, frm = build_reply (rot_at UNLOCK_ROT (Z.of_nat k)).1 b txt.
Proof.
  intros Hel Hfuel.
  destruct (unlock_attempt_spec e c H fuel i st Hel Hfuel)
    as (act & l' & st' & Hrun & Hact & (frames & Hw & _ & Hboot) & _).
  exists act, l', st', frames.
  pose proof Hrun as Hrun'. unfold unlock_attempt_locals, now in Hrun'.
  cbn [emit tick] in Hrun'.
  destruct (unlock_loop _ _ _ _ _ _ _) as [[[a l1] st2]|] eqn:Hloop; [|done].
  injection Hrun' as -> -> Hst'.
  destruct (unlock_loop_frames _ _ _ _ _ _ _ _ _ _ Hloop) as (frames2 & Hw2 & Hlen & Hk).
  unfold emit, locals0 in Hw2, Hlen, Hk. cbn [out enq_times length idx] in Hw2, Hlen, Hk.
  rewrite writes_app in Hw2. cbn in Hw2. rewrite app_nil_r in Hw2.
  assert (writes (out st') = writes (out st2)) as Hsame.
  { rewrite <- Hst'. destruct act; [done|]. unfold emit. cbn [out].
    rewrite writes_app. cbn. by rewrite app_nil_r. }
  assert (frames2 = frames) as ->.
  { apply (app_inv_head (writes (out st))). by rewrite <- Hw, <- Hw2. }
  split_and!; try done; try lia;
    intros k frm Hfrm; destruct (Hk k frm Hfrm) as (b & txt & ->); by exists b, txt.
Qed.

(** X7.  The replies of an unlock attempt go round the three-tile rotation
    from its start: the [k]-th frame the attempt writes (counted from 0)
    is for CPU, GPU or MEM according to [k mod 3], with the header
    [AA <tile> 00], whatever the attempt number and whatever was written
    before.  On polls received in quick succession (all within two seconds
    and within the window) the [k]-th frame answers the [k]-th poll: it
    carries the tile of the rotation at [k], the sequence byte of that poll
    echoed, and the text generated for the tile at that moment.  This holds
    for every poll when the polls never complete the activation condition
    and the line is silent after them (the attempt then fails), and for the
    polls up to the activating one otherwise. *)
Theorem unlock_replies_cycle_three_tiles (e : env) (c : config) (H fuel : nat) (i : Z)
    (st : state) :
  elapses e c H -> (H < fuel)%nat ->
  exists (act : bool) (l' : locals) (st' : state) (frames : list (list Z)),
    unlock_attempt_locals fuel e c i st = Some (act, l', st') /\
    writes (out st') = writes (out st) ++ frames /\
    idx l' = Z.of_nat (length frames) /\
    (forall (k : nat) (frm : list Z), frames !! k = Some frm ->
      exists tile mk,
        UNLOCK_ROT !! (k `mod` 3)%nat = Some (tile, mk) /\
        tile ∈ [CPU; GPU; MEM] /\
        take 3 frm = [0xAA; tile; 0x00] /\
        is_Some (seq_byte frm)) /\
    (forall (seqs : list Z) (span : nat),
        ser st = poll_burst seqs [] -> quick e c (tick st) span ->
        (length seqs * (length seqs + 5) < 2 * span)%nat ->
        (forall j : nat, (5 <= j <= length seqs)%nat -> boot_polls (take j seqs) < 3) ->
        act = false /\ length frames = length seqs /\
        forall (k : nat) (b : Z), seqs !! k = Some b ->
          frames !! k
          = Some (build_reply (rot_at UNLOCK_ROT (Z.of_nat k)).1 b
                    (payload e (rot_at UNLOCK_ROT (Z.of_nat k)).2 (made st + k)))) /\
    (forall (seqs : list Z) (tail : stream) (n span : nat),
        ser st = poll_burst seqs tail -> quick e c (tick st) span ->
        (n * (n + 5) < 2 * span)%nat -> (5 <= n <= length seqs)%nat -> (n <= fuel)%nat ->
        3 <= boot_polls (take n seqs) ->
        (forall j : nat, (5 <= j < n)%nat -> boot_polls (take j seqs) < 3) ->
        act = true /\ length frames = n /\
        forall (k : nat) (b : Z), (k < n)%nat -> seqs !! k = Some b ->
          frames !! k
          = Some (build_reply (rot_at UNLOCK_ROT (Z.of_nat k)).1 b
                    (payload e (rot_at UNLOCK_ROT (Z.of_nat k)).2 (made st + k)))).
Proof.
  intros Hel Hfuel.
  destruct (unlock_attempt_frames e c H fuel i st Hel Hfuel)
    as (act & l' & st' & frames & Hrun & Hw & _ & _ & _ & Hk).
  exists act, l', st', frames. split_and!; [done | done | | | |].
  - destruct (unlock_attempt_spec e c H fuel i st Hel Hfuel)
      as (act2 & l2 & st2 & Hrun2 & _ & (frames2 & Hw2 & Hidx & _) & _).
    rewrite Hrun in Hrun2. injection Hrun2 as <- <- <-.
    rewrite Hw in Hw2. apply app_inv_head in Hw2 as <-. done.
  - intros k frm Hfrm. destruct (Hk k frm Hfrm) as (b & txt & ->).
    pose proof (rot_at_unlock_nat k) as Hrot.
    destruct (rot_at UNLOCK_ROT (Z.of_nat k)) as [tile mk].
    exists tile, mk. split_and!; [done | | done | by eexists].
    rewrite !elem_of_cons.
    destruct (k `mod` 3)%nat as [|[|[|?]]]; cbn in Hrot; [| | |done];
      injection Hrot as <- _; auto.
  - intros seqs span Hser Hq Hspan Hno.
    destruct (unlock_attempt_quiet_burst e c H fuel i st seqs span Hel Hfuel Hser Hq Hspan Hno)
      as (l2 & st2 & Hrun2 & _ & _ & _ & Ho2).
    rewrite Hrun in Hrun2. injection Hrun2 as -> -> ->.
    assert (frames = echo_frames e 0 (made st) seqs) as ->.
    { apply (app_inv_head (writes (out st))). rewrite <- Hw, Ho2.
      rewrite !writes_app, writes_reply_trace. cbn. by rewrite app_nil_r. }
    split_and!; [done | apply length_echo_frames |].
    intros k b Hb. by rewrite (echo_frames_lookup e seqs 0 (made st) k b Hb).
  - intros seqs tail n span Hser Hq Hspan Hn Hnf H3 Hno.
    destruct (unlock_attempt_burst e c i st seqs tail n span fuel Hser Hq Hspan Hn Hnf H3 Hno)
      as (l2 & st2 & Hrun2 & _ & _ & _ & _ & _ & Ho2).
    rewrite Hrun in Hrun2. injection Hrun2 as -> -> ->.
    assert (frames = echo_frames e 0 (made st) (take n seqs)) as ->.
    { apply (app_inv_head (writes (out st))). rewrite <- Hw, Ho2.
      rewrite !writes_app, writes_reply_trace. cbn. by rewrite app_nil_r. }
    split_and!; [done | rewrite length_echo_frames, length_take; lia |].
    intros k b Hkn Hb.
    apply (echo_frames_lookup e (take n seqs) 0 (made st) k b).
    by rewrite lookup_take_lt.
Qed.

Lemma unlock_replies_cycle_three_tiles_witness :
  let s := poll_burst [0x31; 0x32; 0x33; 0x34] [] in
  exists (l' : locals) (st' : state),
    unlock_attempt_locals 501 fast_clock_env default_config 2 (init s) = Some (false, l', st') /\
    length (writes (out st')) = 4%nat /\
    writes (out st') !! 0%nat = Some (build_reply CPU 0x31 []) /\
    writes (out st') !! 1%nat = Some (build_reply GPU 0x32 []) /\
    writes (out st') !! 2%nat = Some (build_reply MEM 0x33 []) /\
    writes (out st') !! 3%nat = Some (build_reply CPU 0x34 []).
Proof.
  cbv zeta.
  destruct (unlock_replies_cycle_three_tiles fast_clock_env default_config 500 501 2
              (init (poll_burst [0x31; 0x32; 0x33; 0x34] []))
              fast_clock_elapses ltac:(lia))
    as (act & l' & st' & frames & Hrun & Hw & _ & _ & Hquiet & _).
  destruct (Hquiet [0x31; 0x32; 0x33; 0x34] 19%nat) as (-> & Hlen & Hk).
  - reflexivity.
  - apply fast_clock_quick. lia.
  - cbn. lia.
  - intros j Hj. cbn in Hj. lia.
  - exists l', st'. cbn in Hw. rewrite Hw.
    split_and!; [exact Hrun | exact Hlen | exact (Hk 0%nat 0x31 eq_refl)
                | exact (Hk 1%nat 0x32 eq_refl) | exact (Hk 2%nat 0x33 eq_refl)
                | exact (Hk 3%nat 0x34 eq_refl)].
Defined.

(** X8.  An attempt never activates before its fifth reply: it keeps at
    most one arrival time per reply sent, so an attempt that returns
    [True] has written at least five frames, at least three of them
    echoing a digit or ['<']. *)
Theorem no_activation_before_fifth_reply (e : env) (c : config) (H fuel : nat) (i : Z)
    (st : state) :
  elapses e c H -> (H < fuel)%nat ->
  exists (act : bool) (l' : locals) (st' : state) (frames : list (list Z)),
    unlock_attempt_locals fuel e c i st = Some (act, l', st') /\
    writes (out st') = writes (out st) ++ frames /\
    (length (enq_times l') <= length frames)%nat /\
    (act = true -> (5 <= length frames)%nat /\ 3 <= boot_count frames) /\
    ((length frames < 5)%nat -> act = false).
Proof.
  intros Hel Hfuel.
  destruct (unlock_attempt_frames e c H fuel i st Hel Hfuel)
    as (act & l' & st' & frames & Hrun & Hw & Hact & Hboot & Hlen & _).
  exists act, l', st', frames. split_and!; try done.
  - intros [H3 H5]%Hact. split; lia.
  - intros Hfew. destruct act; [|done]. destruct Hact as [Hact _].
    destruct (Hact eq_refl) as [_ H5]. lia.
Qed.

Lemma no_activation_before_fifth_reply_witness :
  let s := poll_burst [0x31; 0x53; 0x32; 0x41; 0x33] [] in
  exists (l' : locals) (st' : state) (frames : list (list Z)),
    unlock_attempt_locals 501 fast_clock_env default_config 1 (init s) = Some (true, l', st') /\
    writes (out st') = frames /\
    (5 <= length frames)%nat /\ 3 <= boot_count frames.
Proof.
  cbv zeta.
  destruct (no_activation_before_fifth_reply fast_clock_env default_config 500 501 1
              (init (poll_burst [0x31; 0x53; 0x32; 0x41; 0x33] []))
              fast_clock_elapses ltac:(lia))
    as (act & l' & st' & frames & Hrun & Hw & _ & Hact & _).
  assert (act = true) as ->.
  { pose proof Hrun as Hrun2. vm_compute in Hrun2. congruence. }
  destruct (Hact eq_refl) as [H5 H3].
  exists l', st', frames. split_and!; [exact Hrun | exact Hw | exact H5 | exact H3].
Defined.

(** X9.  With [--attempts] at zero or below, [main] makes no unlock attempt
    and no pulse: it prints the warning and goes straight to the steady
    state, without reading the line or the clock. *)
Theorem handshake_without_attempts (e : env) (c : config) (fuel n : nat) (s : stream) :
  attempts c <= 0 ->
  handshake fuel e c (init s) = Some (false, emit (EvPrint MsgWarn) (init s)) /\
  main fuel n e c s = Some (steady_loop n e c 0 (emit (EvPrint MsgWarn) (init s))).2 /\
  out (emit (EvPrint MsgWarn) (init s)) = [EvPrint MsgWarn] /\
  ser (emit (EvPrint MsgWarn) (init s)) = s.
Proof.
  intros Hn. unfold main, handshake. by rewrite seqZ_nil.
Qed.

Lemma handshake_without_attempts_witness :
  handshake 0 slow_clock_env {| attempts := 0; window := 5; post_write_sleep := 0 |} (init [])
    = Some (false, emit (EvPrint MsgWarn) (init [])).
Proof.
  apply (handshake_without_attempts slow_clock_env
           {| attempts := 0; window := 5; post_write_sleep := 0 |} 0 0 []).
  cbn. lia.
Defined.

End ActivationMore.

(** ** Fan sources *)

Section FanMore.
Import Py Fan.

Lemma round_bounds (x : Q) : Qfloor x <= round x <= Qfloor x + 1.
Proof. unfold round. destruct (_ ?= _)%Q; [destruct (Z.even _)| |]; lia. Qed.

(** [round] is monotone. *)
Lemma round_mono (x y : Q) : (x <= y)%Q -> round x <= round y.
Proof.
  intros Hxy. pose proof (Qfloor_resp_le x y Hxy) as Hf.
  destruct (decide (Qfloor x < Qfloor y)) as [Hlt | Hge].
  { pose proof (round_bounds x). pose proof (round_bounds y). lia. }
  assert (Qfloor x = Qfloor y) as Heq by lia.
  unfold round. rewrite Heq.
  destruct (Qcompare_spec (x - inject_Z (Qfloor y)) (1 # 2)) as [Hx | Hx | Hx];
    destruct (Qcompare_spec (y - inject_Z (Qfloor y)) (1 # 2)) as [Hy | Hy | Hy];
    try destruct (Z.even (Qfloor y)); try lia; exfalso; lra.
Qed.

Lemma round_inject_Z (n : Z) : round (inject_Z n) = n.
Proof.
  unfold round. rewrite Qfloor_Z.
  destruct (Qcompare_spec (inject_Z n - inject_Z n) (1 # 2)) as [Hx | Hx | Hx];
    [exfalso; lra | done | exfalso; lra].
Qed.

Lemma foldl_hwmon_flat (dirs : list (list (option Z))) :
  forall best : option Z,
    foldl (fun b dir => foldl hwmon_visit b dir) best dirs
      = foldl hwmon_visit best (mjoin dirs).
Proof.
  induction dirs as [|dir dirs IH]; intros best; [done|].
  cbn [foldl mjoin list_join]. rewrite IH. by rewrite foldl_app.
Qed.

(** The scan of a flat list of readings from a current best. *)
Lemma hwmon_scan (l : list (option Z)) :
  forall best : option Z,
    (forall b, best = Some b -> 0 < b) ->
    (foldl hwmon_visit best l = None <->
       best = None /\ forall v, Some v ∈ l -> v <= 0) /\
    (forall v, foldl hwmon_visit best l = Some v ->
       0 < v /\ (best = Some v \/ Some v ∈ l) /\
       (forall b, best = Some b -> b <= v) /\
       (forall r, Some r ∈ l -> r <= v)).
Proof.
  induction l as [|x l IH]; intros best Hbest; cbn [foldl].
  { split.
    - split; [intros ->; split; [done | by intros v ?%elem_of_nil] | by intros [-> _]].
    - intros v ->. split_and!; [by apply Hbest | by left | by intros b [= ->]
                               | by intros r ?%elem_of_nil]. }
  assert (forall b, hwmon_visit best x = Some b -> 0 < b) as Hnext
    by (by apply hwmon_visit_pos).
  destruct (IH (hwmon_visit best x) Hnext) as [Hnone Hsome]. split.
  - rewrite Hnone. unfold hwmon_visit. destruct x as [r|].
    + destruct (0 <? r) eqn:Hr.
      * apply Z.ltb_lt in Hr. split; [by intros [? _]; destruct best|].
        intros [_ Hall]. specialize (Hall r ltac:(by left)). lia.
      * apply Z.ltb_ge in Hr. split.
        -- intros [-> Hall]. split; [done|]. intros v [[= ->] | ?]%elem_of_cons; auto.
        -- intros [-> Hall]. split; [done|]. intros v Hv. apply Hall. by right.
    + split.
      * intros [-> Hall]. split; [done|]. intros v [? | ?]%elem_of_cons; [done | auto].
      * intros [-> Hall]. split; [done|]. intros v Hv. apply Hall. by right.
  - intros v Hv. destruct (Hsome v Hv) as (Hpos & Hfrom & Hb & Hl).
    split; [done|]. unfold hwmon_visit in Hfrom, Hb. destruct x as [r|].
    + destruct (0 <? r) eqn:Hr.
      * apply Z.ltb_lt in Hr. destruct best as [b0|].
        -- specialize (Hb _ eq_refl). split_and!.
           ++ destruct Hfrom as [[= Hmax] | Hin]; [|by right; right].
              destruct (Z.max_spec b0 r) as [[_ Hm] | [_ Hm]]; rewrite Hm in Hmax; subst;
                [right; by left | by left].
           ++ intros b [= <-]. lia.
           ++ intros x [[= ->] | Hin]%elem_of_cons; [lia | by apply Hl].
        -- specialize (Hb _ eq_refl). split_and!.
           ++ destruct Hfrom as [[= ->] | Hin]; right; [by left | by right].
           ++ done.
           ++ intros x [[= ->] | Hin]%elem_of_cons; [lia | by apply Hl].
      * apply Z.ltb_ge in Hr. split_and!.
        -- destruct Hfrom as [? | Hin]; [by left | by right; right].
        -- done.
        -- intros x [[= ->] | Hin]%elem_of_cons; [lia | by apply Hl].
    + split_and!.
      * destruct Hfrom as [? | Hin]; [by left | by right; right].
      * done.
      * intros x [? | Hin]%elem_of_cons; [done | by apply Hl].
Qed.

(** X10.  The hwmon source reports the largest positive reading among all
    [fan*_input] files of all hwmon directories, and reports nothing
    exactly when no file gives a positive reading: unreadable files and
    readings of zero or less are passed over. *)
Theorem hwmon_reports_largest_positive (s : sensors) :
  (_fan_rpm_from_hwmon s = None <-> forall v, Some v ∈ mjoin (hwmon s) -> v <= 0) /\
  (forall v, _fan_rpm_from_hwmon s = Some v ->
     0 < v /\ Some v ∈ mjoin (hwmon s) /\
     forall r, Some r ∈ mjoin (hwmon s) -> r <= v).
Proof.
  unfold _fan_rpm_from_hwmon. rewrite foldl_hwmon_flat.
  destruct (hwmon_scan (mjoin (hwmon s)) None ltac:(done)) as [Hnone Hsome]. split.
  - rewrite Hnone. split; [by intros [_ ?] | done].
  - intros v Hv. destruct (Hsome v Hv) as (Hpos & [? | Hin] & _ & Hmax); done.
Qed.

(** X11.  For a maximum that a float holds exactly ([max_rpm] up to 2^53),
    a duty between 0% and 100% maps to an RPM between 0 and the maximum in
    force, which is [max_rpm] or 1 when [max_rpm] is below 1; 100% maps to
    that maximum exactly. *)
Theorem nvidia_rpm_within_maximum (s : sensors) (max_rpm : Z) (percent : Q) :
  max_rpm <= 2 ^ 53 ->
  smi s = SmiPercent percent -> (0 <= percent)%Q -> (percent <= 100)%Q ->
  exists v : Z,
    _fan_rpm_from_nvidia s max_rpm = Some v /\
    0 <= v <= Z.max 1 max_rpm /\
    ((percent == 100)%Q -> v = Z.max 1 max_rpm) /\
    (max_rpm <= 1 -> v <= 1).
Proof.
  intros _ Hs H0 H100. unfold _fan_rpm_from_nvidia. rewrite Hs.
  eexists. split; [done|].
  assert (0 <= inject_Z (Z.max 1 max_rpm))%Q as HM
    by (change 0%Q with (inject_Z 0); rewrite <- Zle_Qle; lia).
  assert (round (percent / 100 * inject_Z (Z.max 1 max_rpm)) <= Z.max 1 max_rpm) as Hup.
  { rewrite <- (round_inject_Z (Z.max 1 max_rpm)) at 2. apply round_mono.
    assert (percent / 100 <= 1)%Q by (apply Qle_shift_div_r; lra). nra. }
  split_and!.
  - apply round_nonneg.
    assert (0 <= percent / 100)%Q by (apply Qle_shift_div_l; lra). nra.
  - done.
  - intros Heq. rewrite <- (round_inject_Z (Z.max 1 max_rpm)) at 2. apply round_comp.
    rewrite Heq. field.
  - intros Hsmall. lia.
Qed.

Lemma nvidia_rpm_within_maximum_witness :
  exists v : Z,
    _fan_rpm_from_nvidia {| hwmon := []; smi := SmiPercent 35 |} 5000 = Some v /\
    0 <= v <= Z.max 1 5000.
Proof.
  destruct (nvidia_rpm_within_maximum {| hwmon := []; smi := SmiPercent 35 |} 5000 35)
    as (v & Hv & Hrange & _); [lia | reflexivity | discriminate | discriminate |].
  exists v. split; [exact Hv | exact Hrange].
Defined.

Lemma lower_char_idem (c : ascii) : lower_char (lower_char c) = lower_char c.
Proof. destruct c as [[] [] [] [] [] [] [] []]; reflexivity. Qed.

Lemma lower_idem (s : string) : lower (lower s) = lower s.
Proof. induction s as [|c s IH]; [done|]. cbn. by rewrite lower_char_idem, IH. Qed.

Lemma lower_empty (s : string) : lower s = ""%string <-> s = ""%string.
Proof. by destruct s. Qed.

(** X12.  The preference of [fan_rpm] is read without regard to case, the
    empty preference and any word other than hwmon and nvidia mean auto,
    and, duties being non-negative, the result is never below -1. *)
Theorem fan_rpm_reads_preference_loosely (s : sensors) (prefer : string) (max_rpm : Z) :
  duty_nonneg s ->
  fan_rpm s prefer max_rpm = fan_rpm s (lower prefer) max_rpm /\
  (lower prefer <> "hwmon"%string -> lower prefer <> "nvidia"%string ->
     fan_rpm s prefer max_rpm = fan_rpm s "auto" max_rpm) /\
  fan_rpm s "" max_rpm = fan_rpm s "auto" max_rpm /\
  -1 <= fan_rpm s prefer max_rpm.
Proof.
  intros Hduty.
  assert (lower (if bool_decide (lower prefer = ""%string) then "auto"%string else lower prefer)
          = lower (if bool_decide (prefer = ""%string) then "auto"%string else prefer)) as Hlow.
  { destruct prefer as [|ch prefer]; [done|].
    rewrite !bool_decide_false by (by rewrite ?lower_empty). apply lower_idem. }
  split_and!.
  - unfold fan_rpm. by rewrite Hlow.
  - intros Hh Hn. unfold fan_rpm.
    destruct prefer as [|ch prefer]; [done|].
    rewrite (bool_decide_false (String ch prefer = ""%string)) by done.
    rewrite (bool_decide_false (lower (String ch prefer) = "hwmon"%string)) by done.
    rewrite (bool_decide_false (lower (String ch prefer) = "nvidia"%string)) by done.
    done.
  - done.
  - pose proof (hwmon_reading_pos s) as Hhw.
    pose proof (fun v => nvidia_reading_nonneg s max_rpm v Hduty) as Hnv.
    unfold fan_rpm.
    destruct (_fan_rpm_from_hwmon s) as [h|], (_fan_rpm_from_nvidia s max_rpm) as [r|];
      repeat case_bool_decide;
      try (specialize (Hhw _ eq_refl)); try (specialize (Hnv _ eq_refl)); lia.
Qed.

Lemma fan_rpm_reads_preference_loosely_witness :
  fan_rpm {| hwmon := [[Some 1200]]; smi := SmiPercent 50 |} "NVIDIA" 4000
    = fan_rpm {| hwmon := [[Some 1200]]; smi := SmiPercent 50 |} (lower "NVIDIA") 4000.
Proof.
  apply (fan_rpm_reads_preference_loosely
           {| hwmon := [[Some 1200]]; smi := SmiPercent 50 |} "NVIDIA"%string 4000).
  cbn. discriminate.
Defined.

End FanMore.

(** ** Interfaces and the rate meter *)

Section NetMore.
Import Py Net.

Lemma fromkeys_acc (l : list string) :
  forall acc : list string,
    NoDup acc ->
    let r := foldl (fun acc x => if bool_decide (x ∈ acc) then acc else acc ++ [x]) acc l in
    NoDup r /\
    (forall x, x ∈ r <-> x ∈ acc \/ x ∈ l) /\
    (exists tl, r = acc ++ tl /\ sublist tl l) /\
    (NoDup l -> (forall x, x ∈ l -> x ∉ acc) -> r = acc ++ l).
Proof.
  induction l as [|y l IH]; intros acc Hacc; cbn [foldl].
  { split_and!; [done | | exists []; by rewrite app_nil_r | by rewrite app_nil_r].
    intros x. split; [by left | by intros [? | ?%elem_of_nil]]. }
  case_bool_decide as Hy.
  - destruct (IH acc Hacc) as (Hnd & Hin & (tl & Heq & Hsub) & Hid). split_and!.
    + done.
    + intros x. rewrite Hin, elem_of_cons. split; [tauto|].
      intros [? | [-> | ?]]; auto.
    + exists tl. split; [done | by apply sublist_cons].
    + intros _ Hfresh. exfalso. apply (Hfresh y); [by left | done].
  - assert (NoDup (acc ++ [y])) as Hacc'.
    { apply NoDup_app. split_and!; [done | | apply NoDup_singleton].
      intros x Hx ->%list_elem_of_singleton. done. }
    destruct (IH (acc ++ [y]) Hacc') as (Hnd & Hin & (tl & Heq & Hsub) & Hid). split_and!.
    + done.
    + intros x. rewrite Hin, elem_of_app, list_elem_of_singleton, elem_of_cons. tauto.
    + exists (y :: tl). split; [by rewrite Heq, <- app_assoc | by apply sublist_skip].
    + intros [Hyl Hl]%NoDup_cons Hfresh. rewrite Hid, <- app_assoc; [done | done |].
      intros x Hx [Hxa | ->%list_elem_of_singleton]%elem_of_app; [|done].
      apply (Hfresh x); [by right | done].
Qed.

(** [list(dict.fromkeys(l))], as [_default_route_ifaces] uses it on the
    devices of the default routes: no repetition, the elements of [l], in
    an order of [l] that starts with its first element; a list without
    repetition is left as it is. *)
Lemma fromkeys_first_occurrences (l : list string) :
  NoDup (fromkeys l) /\
  (forall x, x ∈ fromkeys l <-> x ∈ l) /\
  sublist (fromkeys l) l /\
  head (fromkeys l) = head l /\
  (NoDup l -> fromkeys l = l).
Proof.
  destruct (fromkeys_acc l [] (NoDup_nil_2)) as (Hnd & Hin & (tl & Heq & Hsub) & Hid).
  fold (fromkeys l) in Hnd, Hin, Heq, Hid. cbn in Heq. split_and!.
  - done.
  - intros x. rewrite Hin. split; [by intros [?%elem_of_nil | ?] | by right].
  - by rewrite Heq.
  - destruct l as [|y l]; [done|]. unfold fromkeys. cbn [foldl].
    rewrite bool_decide_false by (by intros ?%elem_of_nil). cbn [app].
    destruct (fromkeys_acc l [y] (NoDup_singleton y)) as (_ & _ & (tl' & -> & _) & _). done.
  - intros Hl. apply Hid; [done|]. by intros x _ ?%elem_of_nil.
Qed.

Lemma first_positive_Some (l : list key) (n : string) :
  first_positive l = Some n -> exists s wd, (s, wd, n) ∈ l /\ 0 < s.
Proof.
  induction l as [|[[s wd] m] l IH]; [done|]. cbn [first_positive].
  destruct (0 <? s) eqn:Hs.
  - intros [= ->]. apply Z.ltb_lt in Hs. exists s, wd. split; [by left | done].
  - intros (s' & wd' & Hin & Hpos)%IH. exists s', wd'. split; [by right | done].
Qed.

Lemma first_positive_None (l : list key) :
  first_positive l = None -> forall k, k ∈ l -> k.1.1 <= 0.
Proof.
  induction l as [|[[s wd] m] l IH]; [by intros _ k ?%elem_of_nil|]. cbn [first_positive].
  destruct (0 <? s) eqn:Hs; [done|]. apply Z.ltb_ge in Hs.
  intros Hnone k [-> | Hin]%elem_of_cons; [done | by apply IH].
Qed.

(** What one ranking pass returns, read off its result. *)
Lemma ranking_result (w : sysfs) (l : list string) :
  (forall n, first_positive (sort_reverse (key_of w <$> l)) = Some n ->
     n ∈ l /\ 0 < (key_of w n).1.1) /\
  (first_positive (sort_reverse (key_of w <$> l)) = None ->
     forall m, m ∈ l -> (key_of w m).1.1 <= 0).
Proof.
  pose proof (merge_sort_Permutation (flip key_le) (key_of w <$> l)) as Hperm.
  fold (sort_reverse (key_of w <$> l)) in Hperm. split.
  - intros n (s & wd & Hin & Hpos)%first_positive_Some.
    rewrite Hperm in Hin. apply list_elem_of_fmap in Hin as (m & Hk & Hm).
    assert (m = n) as -> by (by rewrite <- (key_of_name w m), <- Hk).
    split; [done|]. by rewrite <- Hk.
  - intros Hnone m Hm. apply (first_positive_None _ Hnone).
    rewrite Hperm. by apply list_elem_of_fmap_2.
Qed.

(** X14.  Without an override the picker never invents a name: what it
    returns is a default-route device or an entry of [/sys/class/net]
    other than [lo].  It returns nothing exactly when there is no such
    entry and no default-route device scores above 0. *)
Theorem pick_iface_result_is_known (w : sysfs) :
  (forall n, _pick_iface w None = Some n ->
     n ∈ _default_route_ifaces w \/ n ∈ _list_candidate_ifaces w) /\
  (_pick_iface w None = None <->
     _list_candidate_ifaces w = [] /\
     forall m, m ∈ _default_route_ifaces w -> (key_of w m).1.1 <= 0) /\
  (forall n, _pick_iface w None = Some n -> n ∈ _list_candidate_ifaces w -> n <> "lo"%string).
Proof.
  destruct (ranking_result w (_default_route_ifaces w)) as [Hr1 Hr0].
  destruct (ranking_result w (_list_candidate_ifaces w)) as [Hc1 Hc0].
  unfold _pick_iface. cbn [live].
  destruct (first_positive (sort_reverse (key_of w <$> _default_route_ifaces w)))
    as [n1|] eqn:H1.
  { split_and!.
    - intros n [= <-]. left. by apply Hr1.
    - split; [done|]. intros [_ Hall]. destruct (Hr1 n1 eq_refl) as [Hin Hpos].
      specialize (Hall n1 Hin). lia.
    - intros n _ Hin. by apply candidates_sorted in Hin as [? _]. }
  destruct (first_positive (sort_reverse (key_of w <$> _list_candidate_ifaces w)))
    as [n2|] eqn:H2.
  { split_and!.
    - intros n [= <-]. right. by apply Hc1.
    - split; [done|]. intros [Hnil _]. destruct (Hc1 n2 eq_refl) as [Hin _].
      rewrite Hnil in Hin. by apply elem_of_nil in Hin.
    - intros n _ Hin. by apply candidates_sorted in Hin as [? _]. }
  split_and!.
  - intros n Hn. right. destruct (_list_candidate_ifaces w); [done|].
    injection Hn as ->. by left.
  - split.
    + intros Hnone. split; [by destruct (_list_candidate_ifaces w) | by apply Hr0].
    + by intros [-> _].
  - intros n _ Hin. by apply candidates_sorted in Hin as [? _].
Qed.

(** X15.  The picker prefers the LAN: when some default-route interface is
    wired and up with carrier, the interface returned is a default-route
    interface that is itself wired and up with carrier, never a wireless
    one. *)
Theorem pick_iface_prefers_wired_link (w : sysfs) (m : string) :
  m ∈ _default_route_ifaces w ->
  wireless (_iface_info w m) = false ->
  up (_iface_info w m) = true -> carrier (_iface_info w m) = true ->
  exists n, _pick_iface w None = Some n /\
    n ∈ _default_route_ifaces w /\
    wireless (_iface_info w n) = false /\
    up (_iface_info w n) = true /\ carrier (_iface_info w n) = true.
Proof.
  intros Hm Hwired Hup Hcar.
  assert ((key_of w m).1.1 = 3) as Hscore
    by (unfold key_of, score; cbn [fst]; by rewrite Hwired, Hup, Hcar).
  destruct (ranking_pass w (_default_route_ifaces w)) as [Hpass _].
  destruct Hpass as (n & Hfp & Hn & Hpos & Hmax); [exists m; split; [done | lia]|].
  exists n. unfold _pick_iface. cbn [live]. rewrite Hfp. split; [done|]. split; [done|].
  pose proof (key_le_score _ _ (Hmax m Hm)) as Hle. rewrite Hscore in Hle.
  unfold key_of, score in Hle. cbn [fst] in Hle.
  destruct (wireless (_iface_info w n)), (up (_iface_info w n)), (carrier (_iface_info w n));
    cbn in Hle; try lia; done.
Qed.

Lemma pick_iface_prefers_wired_link_witness :
  exists n, _pick_iface (sysfs_example "up") None = Some n /\
    wireless (_iface_info (sysfs_example "up") n) = false.
Proof.
  destruct (pick_iface_prefers_wired_link (sysfs_example "up") "eth0"%string)
    as (n & Hpick & _ & Hwired & _).
  - vm_compute. by left.
  - reflexivity.
  - reflexivity.
  - reflexivity.
  - exists n. split; [exact Hpick | exact Hwired].
Defined.

(** X16.  [_parse_netdev] returns the first and ninth columns of the first
    line for the interface that has at least sixteen columns, skipping
    shorter lines of that name; it returns nothing exactly when no line of
    that name is long enough. *)
Theorem parse_netdev_first_full_line (lines : list (string * list Z)) (i : string) :
  (_parse_netdev lines i = None <->
     forall cols, (i, cols) ∈ lines -> (length cols < 16)%nat) /\
  (forall rx tx, _parse_netdev lines i = Some (rx, tx) ->
     exists pre cols post,
       lines = pre ++ (i, cols) :: post /\
       (16 <= length cols)%nat /\
       cols !! 0%nat = Some rx /\ cols !! 8%nat = Some tx /\
       forall cols', (i, cols') ∈ pre -> (length cols' < 16)%nat).
Proof.
  induction lines as [|[n cols] lines [IHnone IHsome]]; cbn [_parse_netdev].
  { split; [split; [by intros _ cols ?%elem_of_nil | done] | done]. }
  destruct (bool_decide (n = i) && (16 <=? length cols)%nat) eqn:Hhit.
  - apply andb_true_iff in Hhit as [Hn%bool_decide_eq_true Hlen%Nat.leb_le]. subst n.
    destruct (lookup_lt_is_Some_2 cols 0%nat ltac:(lia)) as [rx0 Hrx].
    destruct (lookup_lt_is_Some_2 cols 8%nat ltac:(lia)) as [tx0 Htx].
    rewrite Hrx, Htx. split.
    + split; [done|]. intros Hall. specialize (Hall cols ltac:(by left)). lia.
    + intros rx tx [= <- <-]. exists [], cols, lines.
      split_and!; try done. by intros cols' ?%elem_of_nil.
  - apply andb_false_iff in Hhit. split.
    + rewrite IHnone. split.
      * intros Hall cols' [[= <- <-] | Hin]%elem_of_cons; [|by apply Hall].
        destruct Hhit as [Hn%bool_decide_eq_false | Hlen%Nat.leb_gt]; [done | lia].
      * intros Hall cols' Hin. apply Hall. by right.
    + intros rx tx (pre & cols0 & post & -> & Hlen & Hrx & Htx & Hpre)%IHsome.
      exists ((n, cols) :: pre), cols0, post. split_and!; try done.
      intros cols' [[= <- <-] | Hin]%elem_of_cons; [|by apply Hpre].
      destruct Hhit as [Hn%bool_decide_eq_false | Hl%Nat.leb_gt]; [done | lia].
Qed.

End NetMore.

Section MeterMore.
Import Py Net.

Lemma rate_of_floor (old new : Z) (t0 t1 : Q) :
  new <= old -> (rate_of old new t0 t1 == 0)%Q.
Proof.
  intros Hle. unfold rate_of. apply Q.max_l.
  pose proof (Q.le_max_l (1 # 1000) (t1 - t0)) as Hdt.
  assert (inject_Z (new - old) <= 0)%Q as Hd
    by (change 0%Q with (inject_Z 0); rewrite <- Zle_Qle; lia).
  apply Qle_shift_div_r; [reflexivity|]. apply Qle_shift_div_r; [lra|]. lra.
Qed.

(** X17.  With counters in the range of the kernel's (64 bits, unsigned),
    a counter that went backwards between the baseline and the sample (a
    reset or a wrap) is reported as a rate of 0, and no rate is ever
    negative, whatever the two clock readings are. *)
Theorem rates_ks_never_negative (w : sysfs) (p : procfs) (m : meter)
    (j : string) (rx0 tx0 rx1 tx1 : Z) (t0 : Q) :
  0 <= rx0 < 2 ^ 64 -> 0 <= tx0 < 2 ^ 64 -> 0 <= rx1 < 2 ^ 64 -> 0 <= tx1 < 2 ^ 64 ->
  live (iface (maybe_repick w p m)) = Some j ->
  base (maybe_repick w p m) = Some (rx0, tx0, t0) ->
  _parse_netdev (netdev p (reads (maybe_repick w p m))) j = Some (rx1, tx1) ->
  exists rx tx : Q,
    (rates_ks w p m).1 = Some (rx, tx) /\
    (0 <= rx)%Q /\ (0 <= tx)%Q /\
    (rx1 <= rx0 -> (rx == 0)%Q) /\ (tx1 <= tx0 -> (tx == 0)%Q).
Proof.
  intros _ _ _ _ Hj Hbase Hparse. unfold rates_ks. rewrite Hj. unfold sample. rewrite Hparse.
  cbn [base ticks]. rewrite Hbase.
  exists (rate_of rx0 rx1 t0 (clock p (ticks (maybe_repick w p m)))),
         (rate_of tx0 tx1 t0 (clock p (ticks (maybe_repick w p m)))).
  split_and!; [done | apply Q.le_max_l | apply Q.le_max_l
              | apply rate_of_floor | apply rate_of_floor].
Qed.

Lemma rates_ks_never_negative_witness :
  let m := {| iface := Some "eth0"%string; base := Some (9000, 500, 1%Q);
              reads := 0; ticks := 2 |} in
  exists rx tx : Q,
    (rates_ks (sysfs_example "up") procfs_example m).1 = Some (rx, tx) /\ (rx == 0)%Q.
Proof.
  cbv zeta.
  destruct (rates_ks_never_negative (sysfs_example "up") procfs_example
              {| iface := Some "eth0"%string; base := Some (9000, 500, 1%Q);
                 reads := 0; ticks := 2 |} "eth0"%string 9000 500 0 0 1%Q)
    as (rx & tx & Hr & _ & _ & Hfloor & _);
    [lia | lia | lia | lia | reflexivity | reflexivity | reflexivity |].
  exists rx, tx. split; [exact Hr | apply Hfloor; lia].
Defined.

Lemma maybe_repick_healthy (w : sysfs) (p : procfs) (m : meter) (i : string) :
  live (iface m) = Some i -> gone (_iface_info w i) = false -> maybe_repick w p m = m.
Proof. intros Hi Hg. unfold maybe_repick. by rewrite Hi, Hg. Qed.

(** X18.  On an interface that stays up and readable, each sample becomes
    the baseline of the next call: two calls in a row return the rate
    from the stored baseline to the first sample, then the rate from the
    first sample to the second, and leave the meter on the same interface
    with the second sample as its baseline. *)
Theorem rates_ks_chains_samples (w1 w2 : sysfs) (p : procfs) (m : meter) (i : string)
    (rx0 tx0 : Z) (t0 : Q) (c1 c2 : Z * Z) :
  live (iface m) = Some i ->
  gone (_iface_info w1 i) = false -> gone (_iface_info w2 i) = false ->
  base m = Some (rx0, tx0, t0) ->
  _parse_netdev (netdev p (reads m)) i = Some c1 ->
  _parse_netdev (netdev p (S (reads m))) i = Some c2 ->
  let t1 := clock p (ticks m) in
  let t2 := clock p (S (ticks m)) in
  let first := rates_ks w1 p m in
  let second := rates_ks w2 p first.2 in
  first.1 = Some (rate_of rx0 c1.1 t0 t1, rate_of tx0 c1.2 t0 t1) /\
  second.1 = Some (rate_of c1.1 c2.1 t1 t2, rate_of c1.2 c2.2 t1 t2) /\
  second.2 = {| iface := iface m; base := Some (c2.1, c2.2, t2);
                reads := S (S (reads m)); ticks := S (S (ticks m)) |}.
Proof.
  intros Hi Hg1 Hg2 Hbase Hc1 Hc2. destruct c1 as [rx1 tx1], c2 as [rx2 tx2]. cbv zeta.
  assert (rates_ks w1 p m
    = (Some (rate_of rx0 rx1 t0 (clock p (ticks m)), rate_of tx0 tx1 t0 (clock p (ticks m))),
       {| iface := iface m; base := Some (rx1, tx1, clock p (ticks m));
          reads := S (reads m); ticks := S (ticks m) |})) as ->.
  { unfold rates_ks. rewrite (maybe_repick_healthy w1 p m i) by done.
    rewrite Hi. unfold sample. rewrite Hc1. cbn [base]. by rewrite Hbase. }
  cbn [fst snd]. split; [done|].
  unfold rates_ks. rewrite (maybe_repick_healthy w2 p _ i) by done.
  cbn [iface]. rewrite Hi. unfold sample. cbn [reads base ticks iface]. by rewrite Hc2.
Qed.

Lemma rates_ks_chains_samples_witness :
  let m := NetMeter (sysfs_example "up") procfs_example None in
  (rates_ks (sysfs_example "up") procfs_example
     (rates_ks (sysfs_example "up") procfs_example m).2).1
    = Some (rate_of 1024 2048 (inject_Z 1) (inject_Z 2), rate_of 0 0 (inject_Z 1) (inject_Z 2)).
Proof.
  cbv zeta.
  destruct (rates_ks_chains_samples (sysfs_example "up") (sysfs_example "up") procfs_example
              (NetMeter (sysfs_example "up") procfs_example None) "eth0"%string
              0 0 (inject_Z 0) (1024, 0) (2048, 0))
    as (_ & Hsecond & _);
    [reflexivity | reflexivity | reflexivity | reflexivity | reflexivity | reflexivity |].
  exact Hsecond.
Defined.

(** X19.  [_prime] stores as baseline only a sample of the interface it
    leaves the meter on: either the baseline and the clock count are
    untouched, or the new baseline holds the counters just read for the
    final interface, stamped with the clock read at that moment; and the
    interface is changed only when its counters could not be read. *)
Theorem prime_baseline_belongs_to_iface (w : sysfs) (p : procfs) (m : meter) :
  let m' := _prime w p m in
  ((base m' = base m /\ ticks m' = ticks m) \/
   (exists (j : string) (c : Z * Z) (k : nat),
       live (iface m') = Some j /\
       (k = reads m \/ k = S (reads m)) /\ reads m' = S k /\
       _parse_netdev (netdev p k) j = Some c /\
       base m' = Some (c.1, c.2, clock p (ticks m)) /\
       ticks m' = S (ticks m))) /\
  (iface m' <> iface m ->
     exists i, live (iface m) = Some i /\ _parse_netdev (netdev p (reads m)) i = None) /\
  (live (iface m) = None -> m' = m).
Proof.
  cbv zeta. unfold _prime.
  destruct (live (iface m)) as [i|] eqn:Hi; [|by split_and!; [left | |]].
  unfold sample.
  destruct (_parse_netdev (netdev p (reads m)) i) as [c|] eqn:Hc.
  { cbn. split_and!; [|done|done]. right. exists i, c, (reads m). by split_and!; [|left| | | |]. }
  cbn [set_iface iface base reads ticks].
  destruct (live (_pick_iface w None)) as [j|] eqn:Hj.
  - destruct (_parse_netdev (netdev p (S (reads m))) j) as [c|] eqn:Hc2.
    + cbn. split_and!; [|by eauto|done]. right. exists j, c, (S (reads m)).
      by split_and!; [|right| | | |].
    + cbn. split_and!; [by left | by eauto | done].
  - cbn. split_and!; [by left | by eauto | done].
Qed.

(** X20.  On a machine with no default route and no interface besides
    [lo], the meter is created without interface and without baseline,
    and every call of [rates_ks] returns [(None, None)] and leaves it as
    it is, without reading [/proc/net/dev] or the clock. *)
Theorem meter_without_interfaces (w : sysfs) (p : procfs) :
  route_devs w = [] -> _list_candidate_ifaces w = [] ->
  let m0 := {| iface := None; base := None; reads := 0; ticks := 0 |} in
  NetMeter w p None = m0 /\
  forall m, iface m = None -> rates_ks w p m = (None, m).
Proof.
  intros Hroute Hcands.
  assert (_pick_iface w None = None) as Hpick
    by (unfold _pick_iface, _default_route_ifaces; rewrite Hroute, Hcands; reflexivity).
  cbv zeta. split.
  - unfold NetMeter. cbn [live]. rewrite Hpick. reflexivity.
  - intros [i b r t] Hm. cbn in Hm. subst i.
    unfold rates_ks, maybe_repick. cbn [iface live]. rewrite Hpick. reflexivity.
Qed.

Lemma meter_without_interfaces_witness :
  NetMeter {| route_devs := []; listdir := Some ["lo"%string];
              is_wireless := fun _ => false; operstate := fun _ => None;
              carrier_file := fun _ => None |} procfs_example None
    = {| iface := None; base := None; reads := 0; ticks := 0 |}.
Proof.
  apply (meter_without_interfaces
           {| route_devs := []; listdir := Some ["lo"%string];
              is_wireless := fun _ => false; operstate := fun _ => None;
              carrier_file := fun _ => None |} procfs_example); reflexivity.
Defined.

End MeterMore.

(** ** CPU, memory and disk figures *)

Section FiguresMore.
Import Py Figures.

Lemma snap_is_Some (n : list Z) : is_Some (snap n) <-> (5 <= length n)%nat.
Proof.
  unfold snap. split.
  - destruct (n !! 3%nat) eqn:H3, (n !! 4%nat) eqn:H4; intros [? ?]; try done.
    apply lookup_lt_Some in H4. lia.
  - intros Hlen.
    destruct (lookup_lt_is_Some_2 n 3%nat ltac:(lia)) as [a ->].
    destruct (lookup_lt_is_Some_2 n 4%nat ltac:(lia)) as [b ->]. by eexists.
Qed.

(** X21.  [cpu_usage_pct] raises exactly when a snapshot of [/proc/stat]
    has fewer than five fields; otherwise its result is between 0 and
    100.  Two identical snapshots (no tick elapsed) give 100, since the
    zero difference is replaced by 1; an interval spent wholly idle gives
    0 and an interval with no idle time gives 100. *)
Theorem cpu_usage_pct_range (n1 n2 : list Z) :
  (is_Some (cpu_usage_pct n1 n2) <-> (5 <= length n1)%nat /\ (5 <= length n2)%nat) /\
  (forall v, cpu_usage_pct n1 n2 = Some v -> 0 <= v <= 100) /\
  (forall v, cpu_usage_pct n1 n1 = Some v -> v = 100) /\
  (forall i1 t1 i2 t2, snap n1 = Some (i1, t1) -> snap n2 = Some (i2, t2) ->
     t2 - t1 <> 0 ->
     (i2 - i1 = t2 - t1 -> cpu_usage_pct n1 n2 = Some 0) /\
     (i2 = i1 -> cpu_usage_pct n1 n2 = Some 100)).
Proof.
  split_and!.
  - rewrite <- !snap_is_Some. unfold cpu_usage_pct.
    destruct (snap n1) as [[i1 t1]|], (snap n2) as [[i2 t2]|]; split;
      try (intros [? ?]; done); try (intros [[? ?] [? ?]]; done); eauto.
  - unfold cpu_usage_pct.
    destruct (snap n1) as [[i1 t1]|], (snap n2) as [[i2 t2]|]; try done.
    intros v [= <-]. lia.
  - unfold cpu_usage_pct. destruct (snap n1) as [[i1 t1]|]; [|done].
    intros v [= <-]. rewrite !Z.sub_diag. reflexivity.
  - intros i1 t1 i2 t2 H1 H2 Hdt. unfold cpu_usage_pct. rewrite H1, H2.
    unfold or_one. rewrite (proj2 (Z.eqb_neq _ _) Hdt). split.
    + intros ->.
      assert (round (100 * (1 - inject_Z (t2 - t1) / inject_Z (t2 - t1))) = 0) as ->; [|done].
      transitivity (round 0); [|reflexivity]. apply round_comp.
      field. change 0%Q with (inject_Z 0). rewrite inject_Z_injective. done.
    + intros ->. rewrite Z.sub_diag.
      assert (round (100 * (1 - inject_Z 0 / inject_Z (t2 - t1))) = 100) as ->; [|done].
      transitivity (round 100); [|reflexivity]. apply round_comp.
      field. change 0%Q with (inject_Z 0). rewrite inject_Z_injective. done.
Qed.

Lemma int_digits_nonneg (s : string) : forall acc, 0 <= acc -> 0 <= int_digits acc s.
Proof.
  induction s as [|c s IH]; intros acc Hacc; [done|]. cbn [int_digits].
  apply IH. destruct (Ascii.is_nat c); lia.
Qed.

Lemma mem_line_nonneg (d : gmap string Z) (ln : string) :
  map_Forall (fun _ v => 0 <= v) d -> map_Forall (fun _ v => 0 <= v) (mem_line d ln).
Proof.
  intros Hd. unfold mem_line. destruct (split _) as [|k [|v ws]]; try done.
  destruct (isdigit v); [|done]. apply map_Forall_insert_2; [|done].
  by apply int_digits_nonneg.
Qed.

Lemma meminfo_dict_nonneg (lines : list string) :
  map_Forall (fun _ v => 0 <= v) (meminfo_dict lines).
Proof.
  unfold meminfo_dict.
  assert (map_Forall (fun (_ : string) (v : Z) => 0 <= v) (∅ : gmap string Z)) as H0
    by apply map_Forall_empty.
  revert H0. generalize (∅ : gmap string Z).
  induction lines as [|ln lines IH]; intros d Hd; [done|]. cbn [foldl].
  apply IH. by apply mem_line_nonneg.
Qed.

Lemma usage_range (used total : Z) :
  0 <= used <= total ->
  0 <= round (100 * (inject_Z used / inject_Z (or_one total)))%Q <= 100.
Proof.
  intros Hut. unfold or_one. destruct (total =? 0) eqn:Ht.
  - apply Z.eqb_eq in Ht. assert (used = 0) as -> by lia.
    replace (round (100 * (inject_Z 0 / inject_Z 1))) with 0 by reflexivity. lia.
  - apply Z.eqb_neq in Ht.
    assert (0 < inject_Z total)%Q as Htot
      by (change 0%Q with (inject_Z 0); rewrite <- Zlt_Qlt; lia).
    assert (0 <= inject_Z used)%Q as Hu0
      by (change 0%Q with (inject_Z 0); rewrite <- Zle_Qle; lia).
    assert (inject_Z used <= inject_Z total)%Q as Hu1 by (rewrite <- Zle_Qle; lia).
    assert (0 <= inject_Z used / inject_Z total)%Q as Hq0
      by (apply Qle_shift_div_l; [done | lra]).
    assert (inject_Z used / inject_Z total <= 1)%Q as Hq1
      by (apply Qle_shift_div_r; [done | lra]).
    split.
    + apply round_nonneg. lra.
    + transitivity (round 100); [|done]. apply round_mono. lra.
Qed.

(** X22.  On lines of ASCII text of at most 300 characters, whatever they
    say ([plain_line]), the usage that [mem_info] reports is between 0 and 100: the values
    it stores are read from digits and so are not negative, a missing
    [MemAvailable] counts as 0 (usage 100 when there is memory) and a
    missing [MemTotal] as 0, in which case used and usage are 0. *)
Theorem mem_info_usage_range (lines : list string) :
  Forall (fun ln => plain_line ln = true) lines ->
  let '(used_gb, avail_gb, total_gb, usage) := mem_info lines in
  0 <= usage <= 100 /\
  (meminfo_dict lines !! "MemTotal"%string = None ->
     usage = 0 /\ (used_gb == 0)%Q /\ (total_gb == 0)%Q) /\
  (forall total, meminfo_dict lines !! "MemTotal"%string = Some total -> 0 < total ->
     meminfo_dict lines !! "MemAvailable"%string = None -> usage = 100).
Proof.
  intros _. unfold mem_info. pose proof (meminfo_dict_nonneg lines) as Hd.
  set (d := meminfo_dict lines) in *.
  assert (0 <= default 0 (d !! "MemTotal"%string)) as Htot
    by (destruct (d !! "MemTotal"%string) eqn:E; [by apply (Hd _ _ E) | done]).
  assert (0 <= default 0 (d !! "MemAvailable"%string)) as Hav
    by (destruct (d !! "MemAvailable"%string) eqn:E; [by apply (Hd _ _ E) | done]).
  split_and!.
  - apply usage_range. lia.
  - apply usage_range. lia.
  - intros Hnone. rewrite Hnone. cbn [default id]. unfold id.
    replace (Z.max 0 (0 - default 0 (d !! "MemAvailable"%string))) with 0 by lia.
    split_and!; reflexivity.
  - intros total Ht Hpos Hnone. rewrite Ht, Hnone. cbn [default id]. unfold id.
    replace (Z.max 0 (total - 0)) with total by lia.
    unfold or_one. rewrite (proj2 (Z.eqb_neq total 0)) by lia.
    transitivity (round 100); [|reflexivity]. apply round_comp. field.
    change 0%Q with (inject_Z 0). rewrite inject_Z_injective. lia.
Qed.

Lemma mem_info_usage_range_witness :
  let lines := ["MemTotal:       16000000 kB"; "MemFree:          123456 kB";
                "MemAvailable:    4000000 kB"]%string in
  meminfo_dict lines !! "MemTotal"%string = Some 16000000 /\
  meminfo_dict lines !! "MemAvailable"%string = Some 4000000 /\
  let '(used_gb, avail_gb, total_gb, usage) := mem_info lines in
  0 <= usage <= 100.
Proof.
  cbv zeta. split; [by vm_compute|]. split; [by vm_compute|].
  pose proof (mem_info_usage_range
    ["MemTotal:       16000000 kB"; "MemFree:          123456 kB";
     "MemAvailable:    4000000 kB"]%string) as Hm.
  specialize (Hm ltac:(repeat constructor)).
  destruct (mem_info _) as [[[used_gb avail_gb] total_gb] usage].
  exact (proj1 Hm).
Defined.

(** X23.  For a file system whose available blocks do not exceed its
    blocks, [disk_numbers] reports a usage between 0 and 100 and a used
    size between 0 and the total size; an empty file system (no blocks)
    gives usage 0. *)
Theorem disk_numbers_range (st : statvfs) :
  0 <= f_frsize st -> 0 <= f_bavail st <= f_blocks st ->
  let '(used_gb, total_gb, usage) := disk_numbers st in
  0 <= usage <= 100 /\ 0 <= used_gb <= total_gb /\
  (f_blocks st = 0 -> usage = 0 /\ used_gb = 0 /\ total_gb = 0).
Proof.
  intros Hfr Hbl. unfold disk_numbers.
  assert (0 <= f_frsize st * f_blocks st - f_frsize st * f_bavail st
            <= f_frsize st * f_blocks st) as Hused by nia.
  set (used := f_frsize st * f_blocks st - f_frsize st * f_bavail st) in *.
  set (total := f_frsize st * f_blocks st) in *.
  assert (0 <= inject_Z used)%Q as Hu0
    by (change 0%Q with (inject_Z 0); rewrite <- Zle_Qle; lia).
  assert (inject_Z used <= inject_Z total)%Q as Hu1 by (rewrite <- Zle_Qle; lia).
  assert (forall x y : Q, (0 <= x)%Q -> (x <= y)%Q ->
            (0 <= x / 1024 / 1024 / 1024 <= y / 1024 / 1024 / 1024)%Q) as Hgb.
  { intros x y Hx Hxy.
    assert (forall z : Q, z / 1024 / 1024 / 1024 == z * (1 # 1073741824))%Q as E
      by (intros z; field).
    rewrite !E. split; lra. }
  destruct (Hgb _ _ Hu0 Hu1) as [Hg0 Hg1].
  split_and!.
  - by apply usage_range.
  - by apply usage_range.
  - by apply round_nonneg.
  - by apply round_mono.
  - intros Hz. assert (total = 0) as Ht by (unfold total; rewrite Hz; lia).
    assert (used = 0) as Hu by lia. rewrite Ht, Hu. split_and!; reflexivity.
Qed.

Lemma disk_numbers_range_witness :
  let '(used_gb, total_gb, usage) :=
    disk_numbers {| f_frsize := 4096; f_blocks := 100000000; f_bavail := 40000000 |} in
  0 <= usage <= 100 /\ 0 <= used_gb <= total_gb.
Proof.
  pose proof (disk_numbers_range
    {| f_frsize := 4096; f_blocks := 100000000; f_bavail := 40000000 |}) as Hd.
  cbn [f_frsize f_bavail f_blocks] in Hd.
  specialize (Hd ltac:(lia) ltac:(lia)).
  destruct (disk_numbers _) as [[used_gb total_gb] usage].
  destruct Hd as (Hu & Hg & _). split; [exact Hu | exact Hg].
Defined.

End FiguresMore.

(** ** Label cache and battery tile *)

Section CacheMore.
Import Py Cache Battery.

Lemma cache_get_set_same (c : gmap string (string * Q)) (k v : string) (t ttl now : Q) :
  _cache_get (_cache_set c k v t) k ttl now
    = if negb (bool_decide (v = ""%string)) && Qlt_bool (now - t) ttl then Some v else None.
Proof. unfold _cache_get, _cache_set. by rewrite lookup_insert_eq. Qed.

Lemma cache_get_set_other (c : gmap string (string * Q)) (k k' v : string) (t ttl now : Q) :
  k <> k' -> _cache_get (_cache_set c k v t) k' ttl now = _cache_get c k' ttl now.
Proof. intros Hne. unfold _cache_get, _cache_set. by rewrite lookup_insert_ne. Qed.

(** X24.  What [_cache_set] stores under a key, [_cache_get] returns for
    that key as long as less than [ttl] seconds have passed, and no longer
    once [ttl] seconds have passed; an empty value is never returned, even
    at once; other keys are not affected; and a key that was never set
    reads as absent. *)
Theorem cache_set_get_roundtrip (c : gmap string (string * Q)) (k v : string)
    (t ttl now : Q) :
  (v <> ""%string -> (now - t < ttl)%Q ->
     _cache_get (_cache_set c k v t) k ttl now = Some v) /\
  ((ttl <= now - t)%Q -> _cache_get (_cache_set c k v t) k ttl now = None) /\
  _cache_get (_cache_set c k ""%string t) k ttl now = None /\
  (forall k', k <> k' ->
     _cache_get (_cache_set c k v t) k' ttl now = _cache_get c k' ttl now) /\
  (c !! k = None -> _cache_get c k ttl now = None).
Proof.
  split_and!.
  - intros Hv Hlt. rewrite cache_get_set_same, bool_decide_false by done.
    by rewrite (proj2 (Qlt_bool_iff _ _) Hlt).
  - intros Hge. rewrite cache_get_set_same, (proj2 (Qlt_bool_false _ _) Hge).
    by rewrite andb_false_r.
  - by rewrite cache_get_set_same.
  - intros k' Hne. by apply cache_get_set_other.
  - intros Hnone. unfold _cache_get. by rewrite Hnone.
Qed.

Lemma cache_set_get_roundtrip_witness :
  _cache_get (_cache_set _cache "ram" "Samsung" 10) "ram" 3600 3609 = Some "Samsung"%string.
Proof.
  apply (cache_set_get_roundtrip _cache "ram" "Samsung" 10 3600 3609);
    [discriminate | reflexivity].
Defined.

(** X25.  A label is scanned once an hour at most: after a call that
    missed the cache and scanned a non-empty label, a call less than 3600
    seconds after the store returns that label and leaves the cache as it
    is, whatever a new scan would give; once 3600 seconds have passed, or
    when the scanned label was empty, the next call scans again.  The RAM
    and disk labels do not disturb each other, and the cache as created
    holds no label. *)
Theorem cached_label_scans_once_an_hour (k : string) (c : gmap string (string * Q))
    (t1 t1' t2 t2' : Q) (scan1 scan2 : string) :
  _cache_get c k 3600 t1 = None ->
  let first := cached_label k c t1 t1' scan1 in
  let second := cached_label k first.2 t2 t2' scan2 in
  first.1 = scan1 /\
  (scan1 <> ""%string -> (t2 - t1' < 3600)%Q -> second.1 = scan1 /\ second.2 = first.2) /\
  (scan1 = ""%string -> second.1 = scan2) /\
  ((3600 <= t2 - t1')%Q -> second.1 = scan2) /\
  (forall k' ttl now, k <> k' -> _cache_get first.2 k' ttl now = _cache_get c k' ttl now) /\
  (forall ttl now, _cache_get _cache "ram" ttl now = None /\
                   _cache_get _cache "disk" ttl now = None).
Proof.
  intros Hmiss. cbv zeta.
  assert (cached_label k c t1 t1' scan1 = (scan1, _cache_set c k scan1 t1')) as ->
    by (unfold cached_label; by rewrite Hmiss).
  cbn [fst snd]. split_and!.
  - done.
  - intros Hne Hlt. unfold cached_label.
    rewrite cache_get_set_same, bool_decide_false by done.
    by rewrite (proj2 (Qlt_bool_iff _ _) Hlt).
  - intros ->. unfold cached_label. by rewrite cache_get_set_same.
  - intros Hge. unfold cached_label.
    rewrite cache_get_set_same, (proj2 (Qlt_bool_false _ _) Hge). by rewrite andb_false_r.
  - intros k' ttl now Hne. by apply cache_get_set_other.
  - done.
Qed.

Lemma cached_label_scans_once_an_hour_witness :
  (ram_label (ram_label _cache 10 11 "Samsung").2 3000 3001 "Micron").1 = "Samsung"%string.
Proof.
  destruct (cached_label_scans_once_an_hour "ram" _cache 10 11 3000 3001 "Samsung" "Micron")
    as (_ & Hhit & _); [reflexivity|].
  apply Hhit; [discriminate | reflexivity].
Defined.

Lemma bat_loop_skips (pre : list (string * option Z)) :
  Forall (fun e : string * option Z => String.prefix "BAT" e.1 = false) pre ->
  forall rest, bat_loop (pre ++ rest) = bat_loop rest.
Proof.
  induction 1 as [|[n r] pre Hn _ IH]; intros rest; [done|].
  cbn [app bat_loop]. cbn in Hn. by rewrite Hn.
Qed.

(** X26.  [p_bat] looks at the first entry of [/sys/class/power_supply]
    whose name starts with BAT and at no other: if its capacity can be
    read the payload carries that number, and if it cannot the payload is
    the sentinel [{Battery:177}] even when a later battery is readable.
    The sentinel is also what a directory without such an entry, or one
    that cannot be listed, gives. *)
Theorem p_bat_first_battery_decides (pre post : list (string * option Z))
    (base : string) (capacity : option Z) :
  Forall (fun e : string * option Z => String.prefix "BAT" e.1 = false) pre ->
  String.prefix "BAT" base = true ->
  p_bat (Some (pre ++ (base, capacity) :: post))
    = match capacity with
      | Some v => "{Battery:" +:+ pretty v +:+ "}"
      | None => "{Battery:177}"
      end /\
  p_bat (Some pre) = "{Battery:177}" /\
  p_bat None = "{Battery:177}" /\
  (forall v, p_bat (Some (pre ++ (base, Some v) :: post)) = "{Battery:177}" -> v = 177).
Proof.
  intros Hpre Hbase.
  assert (forall r, p_bat (Some (pre ++ (base, r) :: post))
    = match r with
      | Some v => "{Battery:" +:+ pretty v +:+ "}"
      | None => "{Battery:177}"
      end) as Hfirst.
  { intros r. unfold p_bat. rewrite bat_loop_skips by done. cbn [bat_loop].
    rewrite Hbase. by destruct r. }
  split_and!; [apply Hfirst | | done |].
  - unfold p_bat. rewrite <- (app_nil_r pre), bat_loop_skips by done. done.
  - intros v. rewrite Hfirst. change "{Battery:177}" with ("{Battery:" +:+ pretty 177 +:+ "}").
    intros Heq. apply (inj (String.app "{Battery:")) in Heq.
    assert (forall a b : string, a +:+ "}" = b +:+ "}" -> a = b) as Hinj.
    { induction a as [|x a IH]; intros [|y b] Hab; try done.
      - destruct b; done.
      - destruct a; done.
      - injection Hab as -> Hab. f_equal. by apply IH. }
    apply Hinj in Heq. by apply (inj pretty) in Heq.
Qed.

Lemma p_bat_first_battery_decides_witness :
  p_bat (Some ([("AC", None)] ++ ("BAT0"%string, None) :: [("BAT1"%string, Some 80)]))
    = "{Battery:177}"%string.
Proof.
  apply (p_bat_first_battery_decides [("AC"%string, None)] [("BAT1"%string, Some 80)]
           "BAT0"%string None).
  - repeat constructor.
  - reflexivity.
Defined.

End CacheMore.
